(** * AI Academy Dashboard: mastery evaluator, readiness engine, live-session sync

  A shallow embedding of the logic layer of the dashboard:
  - [Mastery]: the threshold evaluator [calculateNewLevel] (cron route and
    client hook) and the scheduled sweep [GET];
  - [Readiness]: [getExpectedReadiness], [calculateTaskForceReadiness] and
    [calculateOverallProgramReadiness];
  - [LiveSession]: the student view's sync state ([toggleSync],
    [rejoinSync]) on top of the [useLiveSession] hook state;
  - [JsArray], [ReadinessReport]: the array sort, [getReadinessLabel] and
    [getReadinessRecommendations];
  - [MasteryProgress]: [useMasteryProgress];
  - [SessionChannel]: the participant list and [sendStateUpdate];
  - [Recognition]: the recognition sweep and its finders;
  - [OfflineBriefing]: [useOfflineBriefing].

  Numbers.  Counters, levels, counts and timestamps are integer-valued
  JavaScript numbers and are modelled by [Z] (exact below 2^53).  Quotients
  are not integers: every [/] and the [* 100] that follows it are IEEE-754
  binary64 operations, taken from the standard library's [SpecFloat], and
  [Math.round] maps the resulting double back to an integer. *)

From Stdlib Require Import ZArith List String Bool Lia Permutation Sorted.
From Stdlib Require Import Floats.SpecFloat DecimalString.
Import ListNotations.
Open Scope Z_scope.

(** ** JavaScript numbers *)

Module JS.

(** A number that is integer-valued, or one of the three non-finite values. *)
Inductive number :=
| Int (z : Z)
| NaN
| Infinity (neg : bool).

Definition prec : Z := 53.
Definition emax : Z := 1024.

(** Conversion of an exact integer to the nearest double. *)
Definition Z2SF (z : Z) : spec_float := binary_normalize prec emax z 0 false.

Definition to_float (a : number) : spec_float :=
  match a with
  | Int z => Z2SF z
  | NaN => S754_nan
  | Infinity s => S754_infinity s
  end.

Definition fdiv : spec_float -> spec_float -> spec_float := SFdiv prec emax.
Definition fmul : spec_float -> spec_float -> spec_float := SFmul prec emax.

(** [a / b] on numbers: a double. *)
Definition div (a b : number) : spec_float := fdiv (to_float a) (to_float b).

(** [Math.round]: the nearest integer, ties towards +infinity, that is
    [floor (x + 1/2)] computed exactly. *)
Definition Math_round (x : spec_float) : number :=
  match x with
  | S754_zero _ => Int 0
  | S754_infinity s => Infinity s
  | S754_nan => NaN
  | S754_finite s m e =>
      let n := if s then Zneg m else Zpos m in
      match e with
      | Zneg k => Int ((2 * n + 2 ^ Zpos k) / 2 ^ (Zpos k + 1))
      | _ => Int (n * 2 ^ e)
      end
  end.

Definition add (a b : number) : number :=
  match a, b with
  | NaN, _ | _, NaN => NaN
  | Int x, Int y => Int (x + y)
  | Infinity s, Infinity t => if eqb s t then Infinity s else NaN
  | Infinity s, Int _ => Infinity s
  | Int _, Infinity t => Infinity t
  end.

Definition sub (a b : number) : number :=
  match a, b with
  | NaN, _ | _, NaN => NaN
  | Int x, Int y => Int (x - y)
  | Infinity s, Infinity t => if eqb s t then NaN else Infinity s
  | Infinity s, Int _ => Infinity s
  | Int _, Infinity t => Infinity (negb t)
  end.

Definition mul (a b : number) : number :=
  match a, b with
  | NaN, _ | _, NaN => NaN
  | Int x, Int y => Int (x * y)
  | Infinity s, Infinity t => Infinity (xorb s t)
  | Infinity s, Int y => if y =? 0 then NaN else Infinity (xorb s (y <? 0))
  | Int x, Infinity t => if x =? 0 then NaN else Infinity (xorb (x <? 0) t)
  end.

(** [a < b]; every comparison with [NaN] is false. *)
Definition ltb (a b : number) : bool :=
  match a, b with
  | NaN, _ | _, NaN => false
  | Int x, Int y => x <? y
  | Infinity s, Infinity t => s && negb t
  | Infinity s, Int _ => s
  | Int _, Infinity t => negb t
  end.

Definition gtb (a b : number) : bool := ltb b a.

(** [a >= b]. *)
Definition geb (a b : number) : bool :=
  match a, b with
  | NaN, _ | _, NaN => false
  | Int x, Int y => y <=? x
  | Infinity s, Infinity t => negb s || t
  | Infinity s, Int _ => negb s
  | Int _, Infinity t => t
  end.

(** A non-negative double whose value is at most the integer [N]. *)
Definition bounded_by (N : Z) (x : spec_float) : Prop :=
  match x with
  | S754_zero false => True
  | S754_finite false m e => e <= 0 /\ Zpos m <= N * 2 ^ (- e)
  | _ => False
  end.

End JS.

(** ** Mastery threshold evaluator and scheduled sweep *)

Module Mastery.

Definition ClearanceLevel := string.

(** An entry of [MASTERY_THRESHOLDS] as the cron route declares it: every
    requirement but [daysCompleted] is optional. *)
Record Threshold := {
  daysCompleted : Z;
  aiTutorSessions : option Z;
  artifactsSubmitted : option Z;
  peerAssistsGiven : option Z;
  clearance : ClearanceLevel
}.

Definition MASTERY_THRESHOLDS_2 : Threshold :=
  {| daysCompleted := 3; aiTutorSessions := Some 1;
     artifactsSubmitted := None; peerAssistsGiven := None;
     clearance := "FIELD_TRAINEE"%string |}.

Definition MASTERY_THRESHOLDS_3 : Threshold :=
  {| daysCompleted := 10; aiTutorSessions := None;
     artifactsSubmitted := Some 1; peerAssistsGiven := None;
     clearance := "FIELD_READY"%string |}.

Definition MASTERY_THRESHOLDS_4 : Threshold :=
  {| daysCompleted := 20; aiTutorSessions := None;
     artifactsSubmitted := Some 3; peerAssistsGiven := Some 2;
     clearance := "SPECIALIST"%string |}.

Record MasteryRecord := {
  id : string;
  participant_id : string;
  mastery_level : Z;
  mr_clearance : ClearanceLevel;
  days_completed : Z;
  artifacts_submitted : Z;
  ai_tutor_sessions : Z;
  peer_assists_given : Z
}.

Record LevelUp := {
  newLevel : Z;
  newClearance : ClearanceLevel
}.

(** [x ?? d] *)
Definition nullish (x : option Z) (d : Z) : Z :=
  match x with Some v => v | None => d end.

(** [calculateNewLevel] of the cron route; [None] is [null]. *)
Definition calculateNewLevel (mastery : MasteryRecord) : option LevelUp :=
  let currentLevel := mastery_level mastery in
  let t4 := MASTERY_THRESHOLDS_4 in
  if (currentLevel <? 4)
     && ((days_completed mastery >=? daysCompleted t4)
         && (artifacts_submitted mastery >=? nullish (artifactsSubmitted t4) 0)
         && (peer_assists_given mastery >=? nullish (peerAssistsGiven t4) 0))
  then Some {| newLevel := 4; newClearance := clearance t4 |}
  else
    let t3 := MASTERY_THRESHOLDS_3 in
    if (currentLevel <? 3)
       && ((days_completed mastery >=? daysCompleted t3)
           && (artifacts_submitted mastery >=? nullish (artifactsSubmitted t3) 0))
    then Some {| newLevel := 3; newClearance := clearance t3 |}
    else
      let t2 := MASTERY_THRESHOLDS_2 in
      if (currentLevel <? 2)
         && ((days_completed mastery >=? daysCompleted t2)
             && (ai_tutor_sessions mastery >=? nullish (aiTutorSessions t2) 0))
      then Some {| newLevel := 2; newClearance := clearance t2 |}
      else None.

(** [calculateNewLevel] of the [useMastery] hook: the same ladder over a
    table whose requirements are plain fields. *)
Definition hook_calculateNewLevel (currentMastery : MasteryRecord)
  : option LevelUp :=
  let currentLevel := mastery_level currentMastery in
  if (currentLevel <? 4)
     && ((days_completed currentMastery >=? 20)
         && (artifacts_submitted currentMastery >=? 3)
         && (peer_assists_given currentMastery >=? 2))
  then Some {| newLevel := 4; newClearance := "SPECIALIST"%string |}
  else
    if (currentLevel <? 3)
       && ((days_completed currentMastery >=? 10)
           && (artifacts_submitted currentMastery >=? 1))
    then Some {| newLevel := 3; newClearance := "FIELD_READY"%string |}
    else
      if (currentLevel <? 2)
         && ((days_completed currentMastery >=? 3)
             && (ai_tutor_sessions currentMastery >=? 1))
      then Some {| newLevel := 2; newClearance := "FIELD_TRAINEE"%string |}
      else None.

(** The row after [.update({ mastery_level, clearance })]. *)
Definition update_row (m : MasteryRecord) (u : LevelUp) : MasteryRecord :=
  {| id := id m;
     participant_id := participant_id m;
     mastery_level := newLevel u;
     mr_clearance := newClearance u;
     days_completed := days_completed m;
     artifacts_submitted := artifacts_submitted m;
     ai_tutor_sessions := ai_tutor_sessions m;
     peer_assists_given := peer_assists_given m |}.

(** One level-up check followed by its update, as both [checkForLevelUp]
    and the sweep perform it on a row. *)
Definition applyLevelUp (m : MasteryRecord) : MasteryRecord :=
  match calculateNewLevel m with
  | Some u => update_row m u
  | None => m
  end.

(** *** The specification's reading of the ladder *)

(** The threshold table, highest level first. *)
Definition ladder : list (Z * Threshold) :=
  [(4, MASTERY_THRESHOLDS_4); (3, MASTERY_THRESHOLDS_3); (2, MASTERY_THRESHOLDS_2)].

(** A requirement the table entry does not list is not checked. *)
Definition meets (x : Z) (required : option Z) : bool :=
  match required with Some r => x >=? r | None => true end.

Definition satisfies (m : MasteryRecord) (t : Threshold) : bool :=
  (days_completed m >=? daysCompleted t)
  && meets (ai_tutor_sessions m) (aiTutorSessions t)
  && meets (artifacts_submitted m) (artifactsSubmitted t)
  && meets (peer_assists_given m) (peerAssistsGiven t).

(** First entry of the ladder that lies strictly above the current level
    and whose requirements are met. *)
Definition first_satisfied (m : MasteryRecord) : option LevelUp :=
  match find (fun lt => (mastery_level m <? fst lt) && satisfies m (snd lt)) ladder with
  | Some (l, t) => Some {| newLevel := l; newClearance := clearance t |}
  | None => None
  end.

(** *** The scheduled sweep: [GET /api/cron/mastery-update] *)

Record UpdateEntry := {
  participantId : string;
  oldLevel : Z;
  u_newLevel : Z;
  u_newClearance : ClearanceLevel
}.

Inductive Body :=
| ErrorBody (error : string)
| Summary (success : bool) (processed : Z) (updated : Z)
          (updates : list UpdateEntry).

Record Response := { status : Z; body : Body }.

(** [NextResponse.json(body)] answers 200 unless a status is given.  The
    handler's [catch] branch (status 500) is reached only when a call
    throws; the client resolves failed requests with an [error] value
    instead, so that branch is not part of the model. *)
Definition json (b : Body) : Response := {| status := 200; body := b |}.
Definition json_status (b : Body) (st : Z) : Response :=
  {| status := st; body := b |}.

(** What [select('*')] resolves to: the client reports a failure in the
    [error] field of the resolved value, it does not throw. *)
Record SelectReply := {
  data : option (list MasteryRecord);
  fetchError : bool
}.

(** The world the handler runs in: the shared secret, the reply of the
    fetch, and for the record at each position of the fetched list whether
    its update comes back with an error. *)
Record Env := {
  CRON_SECRET : option string;
  select_reply : SelectReply;
  updateError : nat -> bool
}.

Definition Table := list MasteryRecord.

(** [.update({...}).eq('id', key)] on the table. *)
Definition db_update (t : Table) (key : string) (u : LevelUp) : Table :=
  map (fun row => if String.eqb (id row) key then update_row row u else row) t.

(** A string is truthy when it is defined and not empty. *)
Definition truthy (s : option string) : bool :=
  match s with
  | Some v => negb (String.eqb v EmptyString)
  | None => false
  end.

Definition bearer (secret : option string) : string :=
  match secret with
  | Some v => ("Bearer " ++ v)%string
  | None => "Bearer undefined"%string
  end.

Definition header_differs (h : option string) (expected : string) : bool :=
  match h with
  | Some v => negb (String.eqb v expected)
  | None => true
  end.

(** The [for ... of] loop over the fetched records; [i] is the position of
    the record at the head of [records]. *)
Fixpoint sweep (e : Env) (records : list MasteryRecord) (i : nat)
         (t : Table) (updates : list UpdateEntry)
  : Table * list UpdateEntry :=
  match records with
  | [] => (t, updates)
  | mastery :: rest =>
      match calculateNewLevel mastery with
      | Some levelUp =>
          if updateError e i
          then sweep e rest (S i) t updates
          else sweep e rest (S i)
                 (db_update t (id mastery) levelUp)
                 (updates ++ [{| participantId := participant_id mastery;
                                 oldLevel := mastery_level mastery;
                                 u_newLevel := newLevel levelUp;
                                 u_newClearance := newClearance levelUp |}])
      | None => sweep e rest (S i) t updates
      end
  end.

Definition or_empty (d : option (list MasteryRecord)) : list MasteryRecord :=
  match d with Some l => l | None => [] end.

Definition GET (e : Env) (authHeader : option string) (t : Table)
  : Response * Table :=
  let cronSecret := CRON_SECRET e in
  if truthy cronSecret && header_differs authHeader (bearer cronSecret)
  then (json_status (ErrorBody "Unauthorized") 401, t)
  else
    let masteryRecords := data (select_reply e) in
    if fetchError (select_reply e)
    then (json_status (ErrorBody "Failed to fetch records") 500, t)
    else
      let '(t', updates) := sweep e (or_empty masteryRecords) 0%nat t [] in
      (json (Summary true
               (match masteryRecords with
                | Some l => Z.of_nat (List.length l)
                | None => 0
                end)
               (Z.of_nat (List.length updates))
               updates),
       t').

(** The fetched records paired with their positions. *)
Definition indexed (records : list MasteryRecord) : list (nat * MasteryRecord) :=
  combine (seq 0 (List.length records)) records.

(** The entry the sweep reports for a record that levels up. *)
Definition entry_of (im : nat * MasteryRecord) : UpdateEntry :=
  let u := match calculateNewLevel (snd im) with
           | Some u => u
           | None => {| newLevel := mastery_level (snd im);
                        newClearance := mr_clearance (snd im) |}
           end in
  {| participantId := participant_id (snd im);
     oldLevel := mastery_level (snd im);
     u_newLevel := newLevel u;
     u_newClearance := newClearance u |}.

(** The record at position [i] qualifies for a level-up and its update
    succeeds. *)
Definition applied (e : Env) (im : nat * MasteryRecord) : bool :=
  match calculateNewLevel (snd im) with
  | Some _ => negb (updateError e (fst im))
  | None => false
  end.

End Mastery.

(** ** Readiness engine *)

Module Readiness.
Import JS.

Definition RoleType := string.
Definition ClearanceLevel := string.

Record MemberMastery := {
  participant_id : string;
  name : string;
  role : RoleType;
  mastery_level : Z;
  clearance : ClearanceLevel;
  days_completed : Z
}.

Record RoleBreakdown := {
  rb_role : RoleType;
  count : Z;
  totalMastery : Z;
  avgMastery : spec_float;
  readyCount : Z;
  readinessPercent : number
}.

Inductive Trend := up | down | stable.

Record TaskForceReadiness := {
  taskForceId : string;
  taskForceName : string;
  totalMembers : Z;
  overallReadiness : number;
  roleBreakdown : list RoleBreakdown;
  trend : Trend;
  trendValue : number;
  targetReadiness : Z;
  isOnTrack : bool;
  members : list MemberMastery;
  lowestRole : option RoleType;
  highestRole : option RoleType
}.

Definition MAX_MASTERY_LEVEL : Z := 4.

(** [new Date('2026-02-02').getTime()]: midnight UTC, in milliseconds. *)
Definition PROGRAM_START : Z := 1769990400000.

(** [getCurrentProgramDay]; the clock reading [now] ([new Date().getTime()])
    is an argument.  Time values are integers of magnitude below 2^53, for
    which [Math.floor] of the double quotient by the 86400000 milliseconds
    of a day is the floor of the exact quotient, the division of [Z]. *)
Definition getCurrentProgramDay (now : Z) : Z :=
  let diffTime := now - PROGRAM_START in
  let diffDays := diffTime / (1000 * 60 * 60 * 24) in
  if diffDays <? 0 then 0 else Z.min (diffDays + 1) 25.

Definition getExpectedReadiness (programDay : Z) : Z :=
  if programDay <=? 0 then 0
  else if programDay >=? 25 then 100
  else if programDay <=? 3 then 25
  else if programDay <=? 10 then 50
  else if programDay <=? 20 then 75
  else 100.

(** A [Map] keyed by role: entries in insertion order. *)
Definition JsMap (V : Type) := list (RoleType * V).

Fixpoint Map_get {V : Type} (m : JsMap V) (k : RoleType) : option V :=
  match m with
  | [] => None
  | (k', v) :: rest => if String.eqb k' k then Some v else Map_get rest k
  end.

(** [set] keeps the position of a key that is already present and appends
    a new key at the end. *)
Fixpoint Map_set {V : Type} (m : JsMap V) (k : RoleType) (v : V) : JsMap V :=
  match m with
  | [] => [(k, v)]
  | (k', v') :: rest =>
      if String.eqb k' k then (k', v) :: rest else (k', v') :: Map_set rest k v
  end.

(** [members.reduce((sum, m) => sum + m.mastery_level, 0)] *)
Definition reduce_mastery (ms : list MemberMastery) : Z :=
  fold_left (fun sum m => sum + mastery_level m) ms 0.

(** The grouping loop: fetch the role's group (or a new one), push the
    member, store the group back. *)
Definition group_by_role (ms : list MemberMastery) : JsMap (list MemberMastery) :=
  fold_left
    (fun roleGroups m =>
       let group := match Map_get roleGroups (role m) with
                    | Some g => g
                    | None => []
                    end in
       Map_set roleGroups (role m) (group ++ [m]))
    ms [].

(** The variables the breakdown loop updates. *)
Record Tally := {
  t_roleBreakdown : list RoleBreakdown;
  lowestReadiness : number;
  highestReadiness : number;
  t_lowestRole : option RoleType;
  t_highestRole : option RoleType
}.

Definition tally_role (t : Tally) (entry : RoleType * list MemberMastery) : Tally :=
  let '(role, roleMembers) := entry in
  let totalMastery := reduce_mastery roleMembers in
  let len := Z.of_nat (List.length roleMembers) in
  let avgMastery := fdiv (Z2SF totalMastery) (Z2SF len) in
  let readyCount :=
    Z.of_nat (List.length (filter (fun m => mastery_level m >=? 3) roleMembers)) in
  let readinessPercent :=
    Math_round (fmul (fdiv (Z2SF totalMastery) (Z2SF (len * MAX_MASTERY_LEVEL)))
                     (Z2SF 100)) in
  let pushed := t_roleBreakdown t ++
                [{| rb_role := role; count := len; totalMastery := totalMastery;
                    avgMastery := avgMastery; readyCount := readyCount;
                    readinessPercent := readinessPercent |}] in
  let lower := ltb readinessPercent (lowestReadiness t) in
  let higher := gtb readinessPercent (highestReadiness t) in
  {| t_roleBreakdown := pushed;
     lowestReadiness := if lower then readinessPercent else lowestReadiness t;
     highestReadiness := if higher then readinessPercent else highestReadiness t;
     t_lowestRole := if lower then Some role else t_lowestRole t;
     t_highestRole := if higher then Some role else t_highestRole t |}.

Definition tally_roles (groups : JsMap (list MemberMastery)) : Tally :=
  fold_left tally_role groups
    {| t_roleBreakdown := []; lowestReadiness := Int 101;
       highestReadiness := Int (-1);
       t_lowestRole := None; t_highestRole := None |}.

(** [Array.prototype.sort] with the comparator
    [(a, b) => a.readinessPercent - b.readinessPercent]: the sort is stable,
    an element moves behind another one only when the comparator is
    positive. *)
Definition compare_readiness (a b : RoleBreakdown) : number :=
  sub (readinessPercent a) (readinessPercent b).

Fixpoint insert_sorted (x : RoleBreakdown) (l : list RoleBreakdown)
  : list RoleBreakdown :=
  match l with
  | [] => [x]
  | y :: ys =>
      if gtb (compare_readiness x y) (Int 0)
      then y :: insert_sorted x ys
      else x :: y :: ys
  end.

Definition sort_by_readiness (l : list RoleBreakdown) : list RoleBreakdown :=
  fold_right insert_sorted [] l.

Definition calculateTaskForceReadiness
           (now : Z) (taskForceId taskForceName : string)
           (members : list MemberMastery) (previousReadiness : option number)
  : TaskForceReadiness :=
  match members with
  | [] =>
      {| taskForceId := taskForceId;
         taskForceName := taskForceName;
         totalMembers := 0;
         overallReadiness := Int 0;
         roleBreakdown := [];
         trend := stable;
         trendValue := Int 0;
         targetReadiness := getExpectedReadiness (getCurrentProgramDay now);
         isOnTrack := false;
         members := [];
         lowestRole := None;
         highestRole := None |}
  | _ :: _ =>
      let totalMasterySum := reduce_mastery members in
      let overallReadiness :=
        Math_round
          (fmul (fdiv (Z2SF totalMasterySum)
                      (Z2SF (Z.of_nat (List.length members) * MAX_MASTERY_LEVEL)))
                (Z2SF 100)) in
      let roleGroups := group_by_role members in
      let t := tally_roles roleGroups in
      let roleBreakdown := sort_by_readiness (t_roleBreakdown t) in
      let '(trend, trendValue) :=
        match previousReadiness with
        | Some previous =>
            let trendValue := sub overallReadiness previous in
            (if gtb trendValue (Int 0) then up
             else if ltb trendValue (Int 0) then down
             else stable,
             trendValue)
        | None => (stable, Int 0)
        end in
      let targetReadiness := getExpectedReadiness (getCurrentProgramDay now) in
      let isOnTrack := geb overallReadiness (Int targetReadiness) in
      {| taskForceId := taskForceId;
         taskForceName := taskForceName;
         totalMembers := Z.of_nat (List.length members);
         overallReadiness := overallReadiness;
         roleBreakdown := roleBreakdown;
         trend := trend;
         trendValue := trendValue;
         targetReadiness := targetReadiness;
         isOnTrack := isOnTrack;
         members := members;
         lowestRole := t_lowestRole t;
         highestRole := t_highestRole t |}
  end.

(** *** Program-wide aggregate *)

Record RoleSum := { total : Z; sumReadiness : number }.
Record RoleAverage := { ra_total : Z; avgReadiness : number }.

Record ProgramReadiness := {
  p_overallReadiness : number;
  totalParticipants : Z;
  taskForcesOnTrack : Z;
  taskForcesAtRisk : Z;
  roleAnalysis : JsMap RoleAverage
}.

Definition analyse_role (roleAnalysis : JsMap RoleSum) (rb : RoleBreakdown)
  : JsMap RoleSum :=
  let existing := match Map_get roleAnalysis (rb_role rb) with
                  | Some e => e
                  | None => {| total := 0; sumReadiness := Int 0 |}
                  end in
  Map_set roleAnalysis (rb_role rb)
    {| total := total existing + count rb;
       sumReadiness := add (sumReadiness existing)
                           (mul (readinessPercent rb) (Int (count rb))) |}.

Definition calculateOverallProgramReadiness (taskForces : list TaskForceReadiness)
  : ProgramReadiness :=
  match taskForces with
  | [] =>
      {| p_overallReadiness := Int 0;
         totalParticipants := 0;
         taskForcesOnTrack := 0;
         taskForcesAtRisk := 0;
         roleAnalysis := [] |}
  | _ :: _ =>
      let totalParticipants :=
        fold_left (fun sum tf => sum + totalMembers tf) taskForces 0 in
      let weightedReadiness :=
        fold_left (fun sum tf => add sum (mul (overallReadiness tf)
                                             (Int (totalMembers tf))))
                  taskForces (Int 0) in
      let overallReadiness :=
        Math_round (div weightedReadiness (Int totalParticipants)) in
      let taskForcesOnTrack :=
        Z.of_nat (List.length (filter isOnTrack taskForces)) in
      let taskForcesAtRisk :=
        Z.of_nat (List.length taskForces) - taskForcesOnTrack in
      let roleAnalysis :=
        fold_left (fun acc tf => fold_left analyse_role (roleBreakdown tf) acc)
                  taskForces [] in
      let roleAnalysisFinal :=
        map (fun entry =>
               (fst entry,
                {| ra_total := total (snd entry);
                   avgReadiness :=
                     Math_round (div (sumReadiness (snd entry))
                                     (Int (total (snd entry)))) |}))
            roleAnalysis in
      {| p_overallReadiness := overallReadiness;
         totalParticipants := totalParticipants;
         taskForcesOnTrack := taskForcesOnTrack;
         taskForcesAtRisk := taskForcesAtRisk;
         roleAnalysis := roleAnalysisFinal |}
  end.

(** *** The specification's formulas *)

Definition sum_levels (ms : list MemberMastery) : Z :=
  fold_right (fun m acc => mastery_level m + acc) 0 ms.

(** [round(sum(level) / (count * 4) * 100)] in the arithmetic of the
    program. *)
Definition readiness_formula (ms : list MemberMastery) : number :=
  Math_round (fmul (fdiv (Z2SF (sum_levels ms))
                         (Z2SF (Z.of_nat (List.length ms) * 4)))
                   (Z2SF 100)).

Definition members_of_role (r : RoleType) (ms : list MemberMastery)
  : list MemberMastery :=
  filter (fun m => String.eqb (role m) r) ms.

Definition sum_members (tfs : list TaskForceReadiness) : Z :=
  fold_right (fun tf acc => totalMembers tf + acc) 0 tfs.

(** Sum of the task forces' readiness values, each weighted by its member
    count. *)
Definition weighted_sum (tfs : list TaskForceReadiness) : number :=
  fold_right (fun tf acc => add (mul (overallReadiness tf) (Int (totalMembers tf))) acc)
             (Int 0) tfs.

Definition weighted_average (tfs : list TaskForceReadiness) : spec_float :=
  div (weighted_sum tfs) (Int (sum_members tfs)).

End Readiness.

(** ** Live-session sync: the student view over the [useLiveSession] hook *)

Module LiveSession.

Record SessionState := {
  currentStep : Z;
  currentSection : string;
  isActive : bool
}.

(** The payload of a [state_update] broadcast is a partial state. *)
Record Payload := {
  p_currentStep : option Z;
  p_currentSection : option string;
  p_isActive : option bool
}.

(** The session row the page was rendered with; both positions may be
    null. *)
Record LiveSessionRow := {
  current_step : option Z;
  current_section : option string
}.

(** React state of [StudentSessionView] together with the hook's
    [sessionState]; [left] records that [onSessionEnd] navigated away. *)
Record StudentView := {
  session : LiveSessionRow;
  sessionState : option SessionState;
  isSyncPaused : bool;
  localStep : option Z;
  localSection : option string;
  left : bool
}.

(** First render: [useState(false)], [useState(session.current_step)],
    [useState(session.current_section)], and no hook state yet. *)
Definition mount (row : LiveSessionRow) : StudentView :=
  {| session := row; sessionState := None; isSyncPaused := false;
     localStep := current_step row; localSection := current_section row;
     left := false |}.

Definition instructorStep (v : StudentView) : Z :=
  match sessionState v with
  | Some s => currentStep s
  | None => match current_step (session v) with Some c => c | None => 1 end
  end.

Definition instructorSection (v : StudentView) : string :=
  match sessionState v with
  | Some s => currentSection s
  | None => match current_section (session v) with
            | Some c => c
            | None => "briefing"%string
            end
  end.

Definition step_is (a : option Z) (b : Z) : bool :=
  match a with Some x => x =? b | None => false end.

Definition section_is (a : option string) (b : string) : bool :=
  match a with Some x => String.eqb x b | None => false end.

Definition isOutOfSync (v : StudentView) : bool :=
  isSyncPaused v
  || negb (step_is (localStep v) (instructorStep v))
  || negb (section_is (localSection v) (instructorSection v)).

(** [onSessionEnd]: a toast and [router.push('/live-session')]. *)
Definition onSessionEnd (v : StudentView) : StudentView :=
  {| session := session v; sessionState := sessionState v;
     isSyncPaused := isSyncPaused v; localStep := localStep v;
     localSection := localSection v; left := true |}.

(** The student's [onStateChange] callback. *)
Definition onStateChange (state : SessionState) (v : StudentView) : StudentView :=
  if negb (isSyncPaused v)
  then {| session := session v; sessionState := sessionState v;
          isSyncPaused := isSyncPaused v;
          localStep := Some (currentStep state);
          localSection := Some (currentSection state);
          left := left v |}
  else v.

Definition setSessionState (s : option SessionState) (v : StudentView)
  : StudentView :=
  {| session := session v; sessionState := s;
     isSyncPaused := isSyncPaused v; localStep := localStep v;
     localSection := localSection v; left := left v |}.

(** Handler of the [state_update] broadcast. *)
Definition on_state_update (payload : Payload) (v : StudentView) : StudentView :=
  let newState :=
    {| currentStep :=
         match p_currentStep payload with
         | Some x => x
         | None => match sessionState v with
                   | Some s => currentStep s
                   | None => 1
                   end
         end;
       currentSection :=
         match p_currentSection payload with
         | Some x => x
         | None => match sessionState v with
                   | Some s => currentSection s
                   | None => "briefing"%string
                   end
         end;
       isActive :=
         match p_isActive payload with
         | Some x => x
         | None => match sessionState v with
                   | Some s => isActive s
                   | None => true
                   end
         end |} in
  let v1 := onStateChange newState (setSessionState (Some newState) v) in
  if negb (isActive newState) then onSessionEnd v1 else v1.

(** Handler of the [session_end] broadcast. *)
Definition on_session_end (v : StudentView) : StudentView :=
  onSessionEnd
    (setSessionState
       (match sessionState v with
        | Some prev => Some {| currentStep := currentStep prev;
                               currentSection := currentSection prev;
                               isActive := false |}
        | None => None
        end) v).

(** [fetchSessionState] after it received the session: the hook state is
    set, [onStateChange] is not called. *)
Definition on_fetched (state : SessionState) (v : StudentView) : StudentView :=
  let v1 := setSessionState (Some state) v in
  if negb (isActive state) then onSessionEnd v1 else v1.

Definition toggleSync (v : StudentView) : StudentView :=
  let '(step, section) :=
    if isSyncPaused v
    then match sessionState v with
         | Some s => (Some (currentStep s), Some (currentSection s))
         | None => (localStep v, localSection v)
         end
    else (localStep v, localSection v) in
  {| session := session v; sessionState := sessionState v;
     isSyncPaused := negb (isSyncPaused v);
     localStep := step; localSection := section; left := left v |}.

Definition rejoinSync (v : StudentView) : StudentView :=
  match sessionState v with
  | Some s =>
      {| session := session v; sessionState := sessionState v;
         isSyncPaused := false;
         localStep := Some (currentStep s);
         localSection := Some (currentSection s);
         left := left v |}
  | None => v
  end.

(** Click on a section of the progress bar. *)
Definition selectSection (sectionId : string) (v : StudentView) : StudentView :=
  {| session := session v; sessionState := sessionState v;
     isSyncPaused :=
       if negb (isSyncPaused v)
          && negb (String.eqb sectionId (instructorSection v))
       then true else isSyncPaused v;
     localStep := localStep v;
     localSection := Some sectionId;
     left := left v |}.

Inductive Event :=
| StateUpdate (payload : Payload)
| SessionEnd
| Fetched (state : SessionState)
| ToggleSync
| RejoinSync
| SelectSection (sectionId : string).

Definition step (v : StudentView) (e : Event) : StudentView :=
  match e with
  | StateUpdate payload => on_state_update payload v
  | SessionEnd => on_session_end v
  | Fetched state => on_fetched state v
  | ToggleSync => toggleSync v
  | RejoinSync => rejoinSync v
  | SelectSection sectionId => selectSection sectionId v
  end.

Definition run (v : StudentView) (es : list Event) : StudentView :=
  fold_left step es v.

(** The student's position is the given session state's position and sync
    is running. *)
Definition follows (v : StudentView) (s : SessionState) : Prop :=
  localStep v = Some (currentStep s)
  /\ localSection v = Some (currentSection s)
  /\ isSyncPaused v = false.

End LiveSession.

(** ** Arrays: [Array.prototype.sort] with a comparator *)

Module JsArray.
Import JS.

Section Sort.
Context {A : Type}.
Variable cmp : A -> A -> number.

(** The sort is stable: an element moves behind another one only when the
    comparator is positive (a comparator that yields [NaN] counts as 0). *)
Fixpoint insert (x : A) (l : list A) : list A :=
  match l with
  | [] => [x]
  | y :: ys => if gtb (cmp x y) (Int 0) then y :: insert x ys else x :: y :: ys
  end.

Definition sort (l : list A) : list A := fold_right insert [] l.

End Sort.

(** [`${n}`] and [n.toString()] for the numbers the program prints: decimal
    digits for an integer (below 10^21, where JavaScript switches to the
    exponent notation). *)
Definition toString (n : number) : string :=
  match n with
  | Int z => NilZero.string_of_int (Z.to_int z)
  | NaN => "NaN"%string
  | Infinity false => "Infinity"%string
  | Infinity true => "-Infinity"%string
  end.

(** A string is truthy when it is neither null nor empty. *)
Definition truthy (s : option string) : bool :=
  match s with
  | Some v => negb (String.eqb v EmptyString)
  | None => false
  end.

End JsArray.

(** ** Readiness engine: labels and recommendations *)

Module ReadinessReport.
Import JS Readiness.

Record ReadinessLabel := {
  label : string;
  color : string;
  description : string
}.

Definition getReadinessLabel (readiness : number) : ReadinessLabel :=
  if geb readiness (Int 90) then
    {| label := "Mission Ready"; color := "text-green-500";
       description := "Task force is fully prepared for deployment" |}%string
  else if geb readiness (Int 75) then
    {| label := "Field Ready"; color := "text-blue-500";
       description := "Most members are prepared for field operations" |}%string
  else if geb readiness (Int 50) then
    {| label := "In Training"; color := "text-yellow-500";
       description := "Active skill development in progress" |}%string
  else if geb readiness (Int 25) then
    {| label := "Initiating"; color := "text-orange-500";
       description := "Early stages of training" |}%string
  else
    {| label := "Mobilizing"; color := "text-red-500";
       description := "Task force is being assembled" |}%string.

Definition behind_target (readiness : TaskForceReadiness) : string :=
  ("Task force is "
   ++ JsArray.toString (sub (Int (targetReadiness readiness))
                            (overallReadiness readiness))
   ++ "% behind target. Consider additional support sessions.")%string.

Definition focus_on (r : RoleType) : string :=
  ("Focus on " ++ r
   ++ " role members - they have the lowest readiness in the team.")%string.

Definition still_level_1 (n : nat) : string :=
  (JsArray.toString (Int (Z.of_nat n))
   ++ " member(s) are still at Level 1. Pair them with advanced members.")%string.

Definition declined : string :=
  "Readiness has declined. Check for engagement issues or blockers."%string.

(** [recommendations.push(...)] under a condition. *)
Definition push_if (c : bool) (s : string) (l : list string) : list string :=
  if c then l ++ [s] else l.

Definition getReadinessRecommendations (readiness : TaskForceReadiness)
  : list string :=
  let r1 := push_if (negb (isOnTrack readiness)) (behind_target readiness) [] in
  let r2 := push_if (JsArray.truthy (lowestRole readiness))
                    (focus_on (match lowestRole readiness with
                               | Some r => r
                               | None => EmptyString
                               end)) r1 in
  let needsAttention := filter (fun m => mastery_level m <? 2) (members readiness) in
  let r3 := push_if (0 <? List.length needsAttention)%nat
                    (still_level_1 (List.length needsAttention)) r2 in
  push_if (match trend readiness with down => true | _ => false end) declined r3.

End ReadinessReport.

(** ** Progress towards the next mastery level: [useMasteryProgress] *)

Module MasteryProgress.
Import JS Mastery.

Record Requirement := {
  req_name : string;
  current : Z;
  required : Z;
  completed : bool
}.

Record Progress := {
  currentLevel : Z;
  nextLevel : option Z;
  requirements : list Requirement;
  overallProgress : number
}.

(** The hook returns a value or throws a [TypeError]. *)
Inductive Outcome :=
| Throws
| Returns (p : Progress).

(** [MASTERY_THRESHOLDS[level]]: the table has the keys 2, 3 and 4; a
    requirement that is [Some] is a key of the entry. *)
Definition threshold_at (level : Z) : option Threshold :=
  if level =? 2 then Some MASTERY_THRESHOLDS_2
  else if level =? 3 then Some MASTERY_THRESHOLDS_3
  else if level =? 4 then Some MASTERY_THRESHOLDS_4
  else None.

(** [if (key in threshold) requirements.push({...})] *)
Definition push_requirement (name : string) (cur : Z) (req : option Z)
           (l : list Requirement) : list Requirement :=
  match req with
  | Some r => l ++ [{| req_name := name; current := cur; required := r;
                       completed := cur >=? r |}]
  | None => l
  end.

Definition useMasteryProgress (mastery : option MasteryRecord) : Outcome :=
  match mastery with
  | None =>
      Returns {| currentLevel := 1; nextLevel := Some 2; requirements := [];
                 overallProgress := Int 0 |}
  | Some mastery =>
      let currentLevel := mastery_level mastery in
      let nextLevel := Z.min (currentLevel + 1) 4 in
      if currentLevel >=? 4 then
        Returns {| currentLevel := 4; nextLevel := None; requirements := [];
                   overallProgress := Int 100 |}
      else
        match threshold_at nextLevel with
        | None => Throws
        | Some threshold =>
            let r1 := push_requirement "Days Completed" (days_completed mastery)
                        (Some (daysCompleted threshold)) [] in
            let r2 := push_requirement "AI Tutor Sessions" (ai_tutor_sessions mastery)
                        (aiTutorSessions threshold) r1 in
            let r3 := push_requirement "Artifacts Submitted"
                        (artifacts_submitted mastery)
                        (artifactsSubmitted threshold) r2 in
            let requirements :=
              push_requirement "Peer Assists" (peer_assists_given mastery)
                (peerAssistsGiven threshold) r3 in
            let completedRequirements :=
              Z.of_nat (List.length (filter completed requirements)) in
            let overallProgress :=
              Math_round
                (fmul (fdiv (Z2SF completedRequirements)
                            (Z2SF (Z.of_nat (List.length requirements))))
                      (Z2SF 100)) in
            Returns {| currentLevel := currentLevel; nextLevel := Some nextLevel;
                       requirements := requirements;
                       overallProgress := overallProgress |}
        end
  end.

End MasteryProgress.

(** ** The session channel: participants and the instructor's broadcasts *)

Module SessionChannel.
Import LiveSession.

Record Participant := {
  id : string;
  name : string;
  avatar_url : option string;
  role : string;
  joined_at : string
}.

(** Updater of the [participant_join] broadcast:
    [prev.find((p) => p.id === payload.id) ? prev : [...prev, payload]]. *)
Definition participant_join (payload : Participant) (prev : list Participant)
  : list Participant :=
  match find (fun p => String.eqb (id p) (id payload)) prev with
  | Some _ => prev
  | None => prev ++ [payload]
  end.

(** Updater of the [participant_leave] broadcast. *)
Definition participant_leave (payload_id : string) (prev : list Participant)
  : list Participant :=
  filter (fun p => negb (String.eqb (id p) payload_id)) prev.

Inductive ChannelEvent :=
| ParticipantJoin (payload : Participant)
| ParticipantLeave (payload_id : string).

Definition receive (prev : list Participant) (e : ChannelEvent)
  : list Participant :=
  match e with
  | ParticipantJoin payload => participant_join payload prev
  | ParticipantLeave payload_id => participant_leave payload_id prev
  end.

Definition receive_all (prev : list Participant) (es : list ChannelEvent)
  : list Participant :=
  fold_left receive es prev.




End SessionChannel.

(** ** The recognition sweep: [GET /api/cron/recognition] *)

Module Recognition.
Import JS Readiness.

Definition EARLY_RISER : string := "early_riser".
Definition NIGHT_SCHOLAR : string := "night_scholar".
Definition MOMENTUM : string := "momentum".
Definition TEAM_SUPPORTER : string := "team_supporter".

Record SubmissionWithTime := {
  s_participant_id : string;
  submitted_at : string
}.

Record ParticipantStreak := {
  l_participant_id : string;
  current_streak : Z
}.

Record PeerAssistCount := {
  m_participant_id : string;
  peer_assists_given : Z
}.

Record RecognitionType := {
  rt_id : Z;
  code : string
}.

(** A row of [participant_recognitions], with the columns the route
    writes. *)
Record Recognition := {
  participant_id : string;
  recognition_type_id : Z;
  context : string;
  earned_at : string
}.

(** What a query resolves to: the client reports a failure in [error]. *)
Record Reply (A : Type) := {
  data : option A;
  error : bool
}.
Arguments data {A} _.
Arguments error {A} _.

(** The world the handler runs in: the secret, the replies of the five
    read queries (each already restricted by the query's own filters), the
    local hour [new Date(s).getHours()] of a timestamp, and for the n-th
    insert of the run whether it fails and what [new Date().toISOString()]
    gives. *)
Record Env := {
  CRON_SECRET : option string;
  recognition_types : Reply (list RecognitionType);
  early_submissions : Reply (list SubmissionWithTime);
  night_submissions : Reply (list SubmissionWithTime);
  leaderboard : Reply (list ParticipantStreak);
  participant_mastery : Reply (list PeerAssistCount);
  getHours : string -> number;
  insertError : nat -> bool;
  toISOString : nat -> string
}.

(** The table and the number of inserts requested so far. *)
Record World := {
  recognitions : list Recognition;
  inserts : nat
}.

(** [Set.prototype.add]; [Array.from(set)] lists the elements in the order
    of their first insertion. *)
Definition Set_add (x : string) (s : list string) : list string :=
  if existsb (String.eqb x) s then s else s ++ [x].

Definition rows {A : Type} (r : Reply (list A)) : option (list A) :=
  if error r then None else data r.

Definition findEarlyRisers (e : Env) : list string :=
  match rows (early_submissions e) with
  | None => []
  | Some submissions =>
      fold_left
        (fun earlyRisers sub =>
           let hour := getHours e (submitted_at sub) in
           if ltb hour (Int 8) then Set_add (s_participant_id sub) earlyRisers
           else earlyRisers)
        submissions []
  end.

Definition findNightScholars (e : Env) : list string :=
  match rows (night_submissions e) with
  | None => []
  | Some submissions =>
      fold_left
        (fun nightScholars sub =>
           let hour := getHours e (submitted_at sub) in
           if geb hour (Int 22) then Set_add (s_participant_id sub) nightScholars
           else nightScholars)
        submissions []
  end.

Definition findMomentumAchievers (e : Env) : list string :=
  match rows (leaderboard e) with
  | None => []
  | Some leaderboard => map l_participant_id leaderboard
  end.

Definition findTeamSupporters (e : Env) : list string :=
  match rows (participant_mastery e) with
  | None => []
  | Some mastery => map m_participant_id mastery
  end.

Definition matches (participantId : string) (recognitionTypeId : Z)
           (r : Recognition) : bool :=
  String.eqb (participant_id r) participantId
  && (recognition_type_id r =? recognitionTypeId).

(** [awardRecognition].  [.single()] yields a row only when exactly one
    row matches; with none or several its [data] is [null]. *)
Definition awardRecognition (e : Env) (participantId : string)
           (recognitionTypeId : Z) (context : string) (w : World)
  : bool * World :=
  match filter (matches participantId recognitionTypeId) (recognitions w) with
  | [existing] => (false, w)
  | _ =>
      let n := inserts w in
      if insertError e n
      then (false, {| recognitions := recognitions w; inserts := S n |})
      else (true,
            {| recognitions :=
                 recognitions w
                 ++ [{| participant_id := participantId;
                        recognition_type_id := recognitionTypeId;
                        context := context;
                        earned_at := toISOString e n |}];
               inserts := S n |})
  end.

Record Count := {
  found : Z;
  awarded : Z
}.

(** [for (const participantId of found) { ... if (awarded) count++ }] *)
Fixpoint award_each (e : Env) (participantIds : list string) (typeId : Z)
         (context : string) (count : Z) (w : World) : Z * World :=
  match participantIds with
  | [] => (count, w)
  | participantId :: rest =>
      let '(awarded, w1) := awardRecognition e participantId typeId context w in
      award_each e rest typeId context
        (if awarded then count + 1 else count) w1
  end.

(** One of the four blocks of the handler, which differ in the code looked
    up, the finder and the context text: the block runs when the type id
    is truthy (defined and not 0). *)
Definition process (e : Env) (typeId : option Z) (finder : Env -> list string)
           (context : string) (w : World) : Count * World :=
  match typeId with
  | Some typeId =>
      if typeId =? 0 then ({| found := 0; awarded := 0 |}, w)
      else
        let participantIds := finder e in
        let '(count, w1) := award_each e participantIds typeId context 0 w in
        ({| found := Z.of_nat (List.length participantIds); awarded := count |},
         w1)
  | None => ({| found := 0; awarded := 0 |}, w)
  end.

Record Results := {
  earlyRiser : Count;
  nightScholar : Count;
  momentum : Count;
  teamSupporter : Count
}.

Inductive Body :=
| ErrorBody (error : string)
| Summary (success : bool) (results : Results) (totalAwarded : Z).

Record Response := { status : Z; body : Body }.

(** [new Map(recognitionTypes.map((t) => [t.code, t.id]))] *)
Definition typeMap (types : list RecognitionType) : JsMap Z :=
  fold_left (fun m t => Map_set m (code t) (rt_id t)) types [].

Definition GET (e : Env) (authHeader : option string) (w : World)
  : Response * World :=
  let cronSecret := CRON_SECRET e in
  if Mastery.truthy cronSecret
     && Mastery.header_differs authHeader (Mastery.bearer cronSecret)
  then ({| status := 401; body := ErrorBody "Unauthorized" |}, w)
  else
    match rows (recognition_types e) with
    | None =>
        ({| status := 500; body := ErrorBody "Failed to fetch recognition types" |},
         w)
    | Some recognitionTypes =>
        let typeMap := typeMap recognitionTypes in
        let '(r1, w1) :=
          process e (Map_get typeMap EARLY_RISER) findEarlyRisers
            "Submitted work before 8:00 AM" w in
        let '(r2, w2) :=
          process e (Map_get typeMap NIGHT_SCHOLAR) findNightScholars
            "Submitted work after 10:00 PM" w1 in
        let '(r3, w3) :=
          process e (Map_get typeMap MOMENTUM) findMomentumAchievers
            "Maintained 5+ day submission streak" w2 in
        let '(r4, w4) :=
          process e (Map_get typeMap TEAM_SUPPORTER) findTeamSupporters
            "Helped 3+ peers with their work" w3 in
        let totalAwarded := awarded r1 + awarded r2 + awarded r3 + awarded r4 in
        ({| status := 200;
            body := Summary true
                      {| earlyRiser := r1; nightScholar := r2;
                         momentum := r3; teamSupporter := r4 |}
                      totalAwarded |},
         w4)
    end.

End Recognition.

(** ** Offline briefings: [useOfflineBriefing] *)

Module OfflineBriefing.
Import JS Readiness JsArray.

Record CachedDay := {
  day : Z;
  cachedAt : string;
  size : Z
}.

(** The browser the hook runs in: whether [caches] exists in [window],
    whether the calls on the cache storage resolve, for each URL the size
    of the body when the fetch answers ok and the response is stored (and
    [None] when the fetch fails or answers with an error status), and
    [new Date().toISOString()]. *)
Record Browser := {
  supported : bool;
  storage_ok : bool;
  fetched : string -> option Z;
  now : string
}.

(** The hook's state [cachedDays], the value under [offline-cached-days]
    in [localStorage], and the entries of the cache
    [briefing-offline-cache] with the sizes of their bodies. *)
Record Hook := {
  cachedDays : list CachedDay;
  stored : option (list CachedDay);
  cache : JsMap Z
}.

Definition cache_delete (c : JsMap Z) (url : string) : JsMap Z :=
  filter (fun entry => negb (String.eqb (fst entry) url)) c.

Definition urls (d : Z) : list string :=
  [("/api/content/day/" ++ toString (Int d))%string;
   ("/mission/day/" ++ toString (Int d))%string].

(** [updateCachedDays] *)
Definition updateCachedDays (days : list CachedDay) (h : Hook) : Hook :=
  {| cachedDays := days; stored := Some days; cache := cache h |}.

Definition set_cache (c : JsMap Z) (h : Hook) : Hook :=
  {| cachedDays := cachedDays h; stored := stored h; cache := c |}.

(** [(a, b) => a.day - b.day] *)
Definition by_day (a b : CachedDay) : number := sub (Int (day a)) (Int (day b)).

(** [cacheDay].  The callback reads the [cachedDays] of the render it was
    created in, passed as [captured]. *)
Definition cacheDay (b : Browser) (d : Z) (captured : list CachedDay) (h : Hook)
  : bool * Hook :=
  if negb (supported b) then (false, h)
  else if negb (storage_ok b) then (false, h)
  else
    let '(c, totalSize) :=
      fold_left
        (fun (acc : JsMap Z * Z) url =>
           match fetched b url with
           | Some blob_size => (Map_set (fst acc) url blob_size,
                                snd acc + blob_size)
           | None => acc
           end)
        (urls d) (cache h, 0) in
    let newCachedDay := {| day := d; cachedAt := now b; size := totalSize |} in
    let updatedDays :=
      sort by_day
        (filter (fun x => negb (day x =? d)) captured ++ [newCachedDay]) in
    (true, updateCachedDays updatedDays (set_cache c h)).

Definition uncacheDay (b : Browser) (d : Z) (captured : list CachedDay)
           (h : Hook) : bool * Hook :=
  if negb (supported b) then (false, h)
  else if negb (storage_ok b) then (false, h)
  else
    let c := fold_left cache_delete (urls d) (cache h) in
    let updatedDays := filter (fun x => negb (day x =? d)) captured in
    (true, updateCachedDays updatedDays (set_cache c h)).

(** [cacheMultipleDays]: every call in the loop goes to the [cacheDay] of
    the render the batch was started in, and so reads that render's
    [cachedDays]. *)
Definition cacheMultipleDays (b : Browser) (days : list Z) (h : Hook) : Hook :=
  fold_left (fun h' d => snd (cacheDay b d (cachedDays h) h')) days h.

Definition clearAllCache (b : Browser) (h : Hook) : Hook :=
  if negb (supported b) then h
  else if negb (storage_ok b) then h
  else updateCachedDays [] (set_cache [] h).

Definition isCached (d : Z) (h : Hook) : bool :=
  existsb (fun x => day x =? d) (cachedDays h).

End OfflineBriefing.

(** * Properties *)

(** ** Mastery threshold evaluator *)

Section MasteryFacts.
Import Mastery.

Ltac ladder_cases m :=
  destruct m as [i p lvl cl days art tut peer]; cbn;
  repeat match goal with
    | |- context [?a <? ?b] => destruct (Z.ltb_spec a b)
    | |- context [?a >=? ?b] =>
        let E := fresh "E" in
        destruct (a >=? b) eqn:E;
        [apply Z.geb_le in E | rewrite Z.geb_leb in E; apply Z.leb_gt in E]
    end; cbn; try reflexivity; try lia; auto.

Lemma calculateNewLevel_first_satisfied (m : MasteryRecord) :
  calculateNewLevel m = first_satisfied m.
Proof.
  unfold calculateNewLevel, first_satisfied, satisfies, meets, ladder.
  ladder_cases m.
Qed.

(** The hook's copy of the evaluator computes the same function as the
    cron route's. *)
Lemma hook_calculateNewLevel_agrees (m : MasteryRecord) :
  hook_calculateNewLevel m = calculateNewLevel m.
Proof.
  unfold calculateNewLevel, hook_calculateNewLevel.
  ladder_cases m.
Qed.

Lemma calculateNewLevel_above (m : MasteryRecord) (u : LevelUp) :
  calculateNewLevel m = Some u -> mastery_level m < newLevel u.
Proof.
  unfold calculateNewLevel.
  destruct m as [i p lvl cl days art tut peer]; cbn.
  repeat match goal with
    | |- context [?a <? ?b] => destruct (Z.ltb_spec a b)
    end; cbn;
  repeat match goal with
    | |- context [if ?c then _ else _] => destruct c
    end; intros Hsome; inversion Hsome; subst; cbn; lia.
Qed.

Lemma calculateNewLevel_after_update (m : MasteryRecord) (u : LevelUp) :
  calculateNewLevel m = Some u -> calculateNewLevel (update_row m u) = None.
Proof.
  unfold calculateNewLevel, update_row.
  destruct m as [i p lvl cl days art tut peer].
  cbn [mastery_level days_completed artifacts_submitted ai_tutor_sessions
       peer_assists_given daysCompleted artifactsSubmitted aiTutorSessions
       peerAssistsGiven clearance nullish MASTERY_THRESHOLDS_4
       MASTERY_THRESHOLDS_3 MASTERY_THRESHOLDS_2].
  destruct ((days >=? 20) && (art >=? 3) && (peer >=? 2)) eqn:C4,
           ((days >=? 10) && (art >=? 1)) eqn:C3,
           ((days >=? 3) && (tut >=? 1)) eqn:C2;
    destruct (Z.ltb_spec lvl 4) as [L4|L4], (Z.ltb_spec lvl 3) as [L3|L3],
             (Z.ltb_spec lvl 2) as [L2|L2]; try lia;
    cbn [andb]; intros Hsome; inversion Hsome; subst;
    cbn [newLevel newClearance]; reflexivity.
Qed.

(** C2. [calculateNewLevel] walks the thresholds 4, 3, 2, skips the levels
    that are not strictly above the current one and returns the first
    level whose requirements are met with that level's clearance, or
    [null]; a returned level is strictly greater than the current level;
    a record at level 1 with three days completed and one tutor session is
    promoted to level 2, FIELD_TRAINEE.  The hook's copy behaves alike. *)
Theorem calculateNewLevel_ladder (m : MasteryRecord) :
  calculateNewLevel m = first_satisfied m
  /\ hook_calculateNewLevel m = first_satisfied m
  /\ (forall u, calculateNewLevel m = Some u -> mastery_level m < newLevel u)
  /\ (mastery_level m = 1 -> days_completed m = 3 -> ai_tutor_sessions m = 1 ->
      calculateNewLevel m
      = Some {| newLevel := 2; newClearance := "FIELD_TRAINEE"%string |}).
Proof.
  split; [apply calculateNewLevel_first_satisfied|].
  split; [rewrite hook_calculateNewLevel_agrees;
          apply calculateNewLevel_first_satisfied|].
  split; [intros u; apply calculateNewLevel_above|].
  intros Hl Hd Ht. unfold calculateNewLevel.
  rewrite Hl, Hd, Ht. reflexivity.
Qed.

Definition trainee : MasteryRecord :=
  {| id := "row-1"%string; participant_id := "p-1"%string;
     mastery_level := 1; mr_clearance := "RECRUIT"%string;
     days_completed := 3;
     artifacts_submitted := 0; ai_tutor_sessions := 1;
     peer_assists_given := 0 |}.

Lemma calculateNewLevel_ladder_witness :
  mastery_level trainee = 1 /\ days_completed trainee = 3
  /\ ai_tutor_sessions trainee = 1
  /\ calculateNewLevel trainee
     = Some {| newLevel := 2; newClearance := "FIELD_TRAINEE"%string |}
  /\ mastery_level trainee < 2.
Proof.
  pose proof (calculateNewLevel_ladder trainee) as [_ [_ [Habove Hex]]].
  assert (E : calculateNewLevel trainee
              = Some {| newLevel := 2; newClearance := "FIELD_TRAINEE"%string |})
    by (apply Hex; reflexivity).
  split; [reflexivity|]. split; [reflexivity|]. split; [reflexivity|].
  split; [exact E | exact (Habove _ E)].
Defined.

(** C7. Applying the level-up computed by [calculateNewLevel] and running
    the evaluator again on the updated row (same counters) yields [null]:
    a second application changes nothing.  Two clients that computed the
    same level-up from the same row write the same final state. *)
Theorem levelUp_idempotent (m : MasteryRecord) :
  calculateNewLevel (applyLevelUp m) = None
  /\ hook_calculateNewLevel (applyLevelUp m) = None
  /\ applyLevelUp (applyLevelUp m) = applyLevelUp m
  /\ (forall u, update_row (update_row m u) u = update_row m u).
Proof.
  assert (E : calculateNewLevel (applyLevelUp m) = None).
  { unfold applyLevelUp. destruct (calculateNewLevel m) as [u|] eqn:H.
    - apply calculateNewLevel_after_update; exact H.
    - exact H. }
  split; [exact E|]. split; [|split].
  - rewrite hook_calculateNewLevel_agrees. exact E.
  - unfold applyLevelUp at 1. rewrite E. reflexivity.
  - reflexivity.
Qed.

End MasteryFacts.

(** ** The scheduled mastery sweep *)

Section SweepFacts.
Import Mastery.

Lemma sweep_updates (e : Env) (records : list MasteryRecord) :
  forall (i : nat) (t : Table) (updates : list UpdateEntry),
    snd (sweep e records i t updates)
    = updates ++ map entry_of
                   (filter (applied e)
                      (combine (seq i (List.length records)) records)).
Proof.
  induction records as [|m rest IH]; intros i t updates; cbn [sweep].
  - cbn. now rewrite app_nil_r.
  - cbn [List.length seq combine filter]. unfold applied at 1. cbn [fst snd].
    destruct (calculateNewLevel m) as [u|] eqn:Hu.
    + destruct (updateError e i); cbn [negb].
      * apply IH.
      * rewrite IH. cbn [map]. rewrite <- app_assoc. cbn [app].
        unfold entry_of at 2. cbn [snd]. now rewrite Hu.
    + apply IH.
Qed.

Lemma indexed_nth (records : list MasteryRecord) :
  forall (k i : nat) (m : MasteryRecord),
    nth_error records i = Some m ->
    In ((k + i)%nat, m) (combine (seq k (List.length records)) records).
Proof.
  induction records as [|r rest IH]; intros k i m H.
  - destruct i; discriminate.
  - destruct i as [|i]; cbn in *.
    + inversion H; subst. left. f_equal. lia.
    + right. replace (k + S i)%nat with (S k + i)%nat by lia.
      now apply IH.
Qed.

(** C9. When the request passes the secret check and the fetch succeeds
    with [records], the endpoint answers 200 with a summary whose
    [processed] is the number of fetched records and whose [updated] is the
    number of records that qualify for a level-up and whose update came
    back without error; every such record is reported in [updates],
    whatever happened to the updates of the other records. *)
Theorem GET_partial_success
        (e : Env) (authHeader : option string) (t : Table)
        (records : list MasteryRecord) :
  truthy (CRON_SECRET e)
    && header_differs authHeader (bearer (CRON_SECRET e)) = false ->
  select_reply e = {| data := Some records; fetchError := false |} ->
  let succeeded := filter (applied e) (indexed records) in
  fst (GET e authHeader t)
  = json (Summary true
            (Z.of_nat (List.length records))
            (Z.of_nat (List.length succeeded))
            (map entry_of succeeded))
  /\ (forall (i : nat) (m : MasteryRecord),
         nth_error records i = Some m ->
         applied e (i, m) = true ->
         In (entry_of (i, m)) (map entry_of succeeded)).
Proof.
  intros Hauth Hsel succeeded. split.
  - unfold GET. rewrite Hauth, Hsel. cbn [data fetchError or_empty].
    pose proof (sweep_updates e records 0 t []) as Hs.
    destruct (sweep e records 0 t []) as [t' updates].
    cbn [snd app] in Hs. cbn [fst]. subst updates.
    now rewrite length_map.
  - intros i m Hi Happ. apply in_map. apply filter_In. split.
    + exact (indexed_nth records 0 i m Hi).
    + exact Happ.
Qed.

(** A level-1 row that qualifies for level 2, a level-2 row that qualifies
    for level 3, and a row that qualifies for nothing. *)
Definition row (key : string) (level days artifacts tutor : Z) : MasteryRecord :=
  {| id := key; participant_id := key; mastery_level := level;
     mr_clearance := "RECRUIT"%string; days_completed := days;
     artifacts_submitted := artifacts; ai_tutor_sessions := tutor;
     peer_assists_given := 0 |}.

Definition fetched_rows : list MasteryRecord :=
  [row "a" 1 3 0 1; row "b" 2 10 1 0; row "c" 1 0 0 0; row "d" 1 20 1 0].

(** The update of the first row fails, all others succeed. *)
Definition flaky : Env :=
  {| CRON_SECRET := Some "s3cret"%string;
     select_reply := {| data := Some fetched_rows; fetchError := false |};
     updateError := fun i => Nat.eqb i 0 |}.

Lemma GET_partial_success_witness :
  fst (GET flaky (Some "Bearer s3cret"%string) fetched_rows)
  = json (Summary true 4 2
            [{| participantId := "b"%string; oldLevel := 2; u_newLevel := 3;
                u_newClearance := "FIELD_READY"%string |};
             {| participantId := "d"%string; oldLevel := 1; u_newLevel := 3;
                u_newClearance := "FIELD_READY"%string |}]).
Proof.
  exact (proj1 (GET_partial_success flaky (Some "Bearer s3cret"%string)
                  fetched_rows fetched_rows eq_refl eq_refl)).
Defined.

End SweepFacts.

(** ** Target readiness and the on-track flag *)

Section TargetFacts.
Import JS Readiness.

Ltac plateau d :=
  unfold getExpectedReadiness;
  repeat match goal with
    | |- context [?a <=? ?b] => destruct (Z.leb_spec a b)
    | |- context [?a >=? ?b] =>
        let E := fresh "E" in
        destruct (a >=? b) eqn:E;
        [apply Z.geb_le in E | rewrite Z.geb_leb in E; apply Z.leb_gt in E]
    end; cbn; auto; try lia.

(** C3. The target is a step function of the program day: 0 up to day 0,
    then the four plateaus 25 (days 1-3), 50 (days 4-10), 75 (days 11-20)
    and 100 (from day 21); it never decreases, takes only these four
    values on days 1..25, and is 75 on day 15. *)
Theorem getExpectedReadiness_plateaus :
  (forall d, d <= 0 -> getExpectedReadiness d = 0)
  /\ (forall d, 1 <= d <= 3 -> getExpectedReadiness d = 25)
  /\ (forall d, 4 <= d <= 10 -> getExpectedReadiness d = 50)
  /\ (forall d, 11 <= d <= 20 -> getExpectedReadiness d = 75)
  /\ (forall d, 21 <= d -> getExpectedReadiness d = 100)
  /\ (forall d, 1 <= d <= 25 -> In (getExpectedReadiness d) [25; 50; 75; 100])
  /\ (forall d d', d <= d' -> getExpectedReadiness d <= getExpectedReadiness d')
  /\ getExpectedReadiness 15 = 75.
Proof.
  repeat split; try (intros d H; plateau d).
Qed.

Lemma getExpectedReadiness_plateaus_witness :
  1 <= 2 <= 3 /\ getExpectedReadiness 2 = 25
  /\ 4 <= 7 <= 10 /\ getExpectedReadiness 7 = 50
  /\ 11 <= 15 <= 20 /\ getExpectedReadiness 15 = 75
  /\ 21 <= 25 /\ getExpectedReadiness 25 = 100
  /\ -3 <= 0 /\ getExpectedReadiness (-3) = 0.
Proof.
  destruct getExpectedReadiness_plateaus as [H0 [H1 [H2 [H3 [H4 _]]]]].
  split; [lia|]. split; [apply H1; lia|].
  split; [lia|]. split; [apply H2; lia|].
  split; [lia|]. split; [apply H3; lia|].
  split; [lia|]. split; [apply H4; lia|].
  split; [lia|]. apply H0; lia.
Defined.

Lemma getCurrentProgramDay_started (now : Z) :
  PROGRAM_START <= now -> 1 <= getCurrentProgramDay now <= 25.
Proof.
  intros H. unfold getCurrentProgramDay.
  assert (0 <= (now - PROGRAM_START) / (1000 * 60 * 60 * 24))
    by (apply Z.div_pos; lia).
  destruct (Z.ltb_spec ((now - PROGRAM_START) / (1000 * 60 * 60 * 24)) 0); lia.
Qed.

Lemma getExpectedReadiness_started (d : Z) :
  1 <= d -> 25 <= getExpectedReadiness d.
Proof. intros H. plateau d. Qed.

(** C4. For the empty member list the result is zeroed: no readiness, an
    empty breakdown, not on track.  The function is total, no input makes
    it fail. *)
Theorem calculateTaskForceReadiness_empty
        (now : Z) (taskForceId taskForceName : string)
        (previousReadiness : option number) :
  let r := calculateTaskForceReadiness now taskForceId taskForceName []
             previousReadiness in
  overallReadiness r = Int 0
  /\ roleBreakdown r = []
  /\ isOnTrack r = false
  /\ totalMembers r = 0
  /\ members r = []
  /\ lowestRole r = None /\ highestRole r = None
  /\ trend r = stable /\ trendValue r = Int 0.
Proof. cbn. repeat split. Qed.

(** C6, as stated, fails: before the program starts (here at noon of
    2026-02-01) the target is 0, and for the empty list the flag is false
    although [0 >= 0]. *)
Lemma isOnTrack_empty_before_start :
  let r := calculateTaskForceReadiness (PROGRAM_START - 43200000)
             "tf-1" "Alpha" [] None in
  overallReadiness r = Int 0 /\ targetReadiness r = 0
  /\ isOnTrack r = false
  /\ geb (overallReadiness r) (Int (targetReadiness r)) = true
  /\ isOnTrack r <> geb (overallReadiness r) (Int (targetReadiness r)).
Proof. cbn. repeat split; discriminate. Qed.

(** C6, amended.  The target is the expected readiness of the current
    program day, and the flag is [overallReadiness >= targetReadiness] for
    every non-empty member list, and for the empty list too once the
    program has started. *)
Theorem isOnTrack_meets_target
        (now : Z) (taskForceId taskForceName : string)
        (ms : list MemberMastery) (previousReadiness : option number) :
  ms <> [] \/ PROGRAM_START <= now ->
  let r := calculateTaskForceReadiness now taskForceId taskForceName ms
             previousReadiness in
  targetReadiness r = getExpectedReadiness (getCurrentProgramDay now)
  /\ isOnTrack r = geb (overallReadiness r) (Int (targetReadiness r)).
Proof.
  intros H. destruct ms as [|m ms].
  - destruct H as [H|H]; [congruence|].
    cbn. split; [reflexivity|].
    pose proof (getCurrentProgramDay_started now H) as Hd.
    pose proof (getExpectedReadiness_started _ (proj1 Hd)).
    symmetry. apply Z.leb_gt. lia.
  - unfold calculateTaskForceReadiness.
    destruct previousReadiness; cbn; split; reflexivity.
Qed.

Definition member (key role : string) (level : Z) : MemberMastery :=
  {| participant_id := key; name := key; role := role;
     mastery_level := level; clearance := "FIELD_READY"%string;
     days_completed := 12 |}.

(** Day 15 of the program, a two-member task force at level 3. *)
Lemma isOnTrack_meets_target_witness :
  let ms := [member "p1" "FDE" 3; member "p2" "AI-SE" 3] in
  let r := calculateTaskForceReadiness (PROGRAM_START + 14 * 86400000)
             "tf-1" "Alpha" ms None in
  (ms <> [] \/ PROGRAM_START <= PROGRAM_START + 14 * 86400000)
  /\ targetReadiness r = 75
  /\ isOnTrack r = geb (overallReadiness r) (Int (targetReadiness r)).
Proof.
  intros ms r.
  assert (H : ms <> [] \/ PROGRAM_START <= PROGRAM_START + 14 * 86400000)
    by (left; discriminate).
  split; [exact H|].
  exact (isOnTrack_meets_target (PROGRAM_START + 14 * 86400000)
           "tf-1" "Alpha" ms None H).
Defined.

End TargetFacts.

(** ** Live-session sync *)

Section SyncFacts.
Import LiveSession.

(** Once the hook holds a session state, no event of the view discards
    it. *)
Lemma sessionState_kept (v : StudentView) (e : Event) :
  sessionState v <> None -> sessionState (step v e) <> None.
Proof.
  intros H. destruct e; cbn.
  - unfold on_state_update, onStateChange, onSessionEnd, setSessionState.
    cbn. repeat match goal with
           | |- context [if ?c then _ else _] => destruct c
           end; cbn; discriminate.
  - destruct (sessionState v); [discriminate | contradiction].
  - unfold on_fetched. destruct (negb (isActive state)); cbn; discriminate.
  - unfold toggleSync.
    destruct (isSyncPaused v), (sessionState v); cbn; congruence.
  - unfold rejoinSync. destruct (sessionState v) eqn:E; cbn; congruence.
  - exact H.
Qed.

Lemma run_sessionState_kept (es : list Event) :
  forall v, sessionState v <> None -> sessionState (run v es) <> None.
Proof.
  induction es as [|e es IH]; intros v H; [exact H|].
  apply IH. now apply sessionState_kept.
Qed.

(** After a [state_update] broadcast or a successful fetch, and whatever
    the student and the instructor do next, the hook holds a state. *)
Lemma sessionState_after_contact (v : StudentView) (e : Event) (es : list Event) :
  (exists payload, e = StateUpdate payload) \/ (exists state, e = Fetched state) ->
  exists s, sessionState (run (step v e) es) = Some s.
Proof.
  intros H.
  assert (N : sessionState (step v e) <> None).
  { destruct H as [[payload ->]|[state ->]]; cbn.
    - unfold on_state_update, onStateChange, onSessionEnd, setSessionState.
      cbn. repeat match goal with
             | |- context [if ?c then _ else _] => destruct c
             end; cbn; discriminate.
    - unfold on_fetched. destruct (negb (isActive state)); cbn; discriminate. }
  pose proof (run_sessionState_kept es _ N) as K.
  destruct (sessionState (run (step v e) es)) as [s|]; [now exists s | contradiction].
Qed.

Definition briefing_row : LiveSessionRow :=
  {| current_step := Some 1; current_section := Some "briefing"%string |}.

(** C8, as stated, fails while the hook holds no session state (the
    initial fetch has not answered and nothing was broadcast): the student
    opens the lab section, sync pauses, and the rejoin action changes
    nothing. *)
Lemma rejoinSync_without_state :
  let v := run (mount briefing_row) [SelectSection "lab"; RejoinSync] in
  sessionState v = None
  /\ isSyncPaused v = true
  /\ localSection v = Some "lab"%string
  /\ instructorSection v = "briefing"%string
  /\ isOutOfSync v = true.
Proof. cbn. repeat split. Qed.

(** C8, amended.  When the hook holds a session state, [rejoinSync] puts
    the student on that state's step and section and resumes sync, from
    any local position, and so does [toggleSync] when sync is paused; the
    view is then no longer out of sync.  Without a session state
    [rejoinSync] changes nothing. *)
Theorem rejoinSync_converges (v : StudentView) :
  (forall s, sessionState v = Some s ->
     follows (rejoinSync v) s
     /\ sessionState (rejoinSync v) = Some s
     /\ isOutOfSync (rejoinSync v) = false
     /\ (isSyncPaused v = true ->
         follows (toggleSync v) s /\ isOutOfSync (toggleSync v) = false))
  /\ (sessionState v = None -> rejoinSync v = v).
Proof.
  split.
  - intros s Hs.
    assert (R : rejoinSync v
                = {| session := session v; sessionState := Some s;
                     isSyncPaused := false;
                     localStep := Some (currentStep s);
                     localSection := Some (currentSection s);
                     left := left v |})
      by (unfold rejoinSync; now rewrite Hs).
    rewrite R. unfold follows, isOutOfSync, instructorStep, instructorSection.
    cbn. rewrite Z.eqb_refl, String.eqb_refl.
    repeat split.
    all: unfold toggleSync;
      match goal with Hp : isSyncPaused _ = true |- _ => rewrite Hp end;
      rewrite Hs; cbn; rewrite ?Hs; cbn;
      rewrite ?Z.eqb_refl, ?String.eqb_refl; reflexivity.
  - intros Hn. unfold rejoinSync. now rewrite Hn.
Qed.

(** A student who paused sync on step 1 while the instructor went on to
    step 7 of the lab. *)
Definition diverged : StudentView :=
  run (mount briefing_row)
      [Fetched {| currentStep := 1; currentSection := "briefing"%string;
                  isActive := true |};
       ToggleSync;
       StateUpdate {| p_currentStep := Some 7;
                      p_currentSection := Some "lab"%string;
                      p_isActive := None |}].

Lemma rejoinSync_converges_witness :
  let s := {| currentStep := 7; currentSection := "lab"%string;
              isActive := true |} in
  sessionState diverged = Some s
  /\ localStep diverged = Some 1
  /\ isSyncPaused diverged = true
  /\ follows (rejoinSync diverged) s
  /\ follows (toggleSync diverged) s.
Proof.
  intros s.
  assert (Hs : sessionState diverged = Some s) by reflexivity.
  assert (Hp : isSyncPaused diverged = true) by reflexivity.
  destruct (proj1 (rejoinSync_converges diverged) s Hs) as [Hr [_ [_ Ht]]].
  split; [exact Hs|]. split; [reflexivity|]. split; [exact Hp|].
  split; [exact Hr | exact (proj1 (Ht Hp))].
Defined.

End SyncFacts.

(** ** Readiness of a task force: the formula and the role breakdown *)

Section BreakdownFacts.
Import JS Readiness.

Definition keys {V : Type} (m : JsMap V) : list RoleType := map fst m.

(** The breakdown entry the loop pushes for a role group. *)
Definition breakdown_of (entry : RoleType * list MemberMastery) : RoleBreakdown :=
  let roleMembers := snd entry in
  let len := Z.of_nat (List.length roleMembers) in
  {| rb_role := fst entry;
     count := len;
     totalMastery := reduce_mastery roleMembers;
     avgMastery := fdiv (Z2SF (reduce_mastery roleMembers)) (Z2SF len);
     readyCount :=
       Z.of_nat (List.length (filter (fun m => mastery_level m >=? 3) roleMembers));
     readinessPercent :=
       Math_round (fmul (fdiv (Z2SF (reduce_mastery roleMembers))
                              (Z2SF (len * MAX_MASTERY_LEVEL)))
                        (Z2SF 100)) |}.

Lemma fold_left_mastery (ms : list MemberMastery) :
  forall a, fold_left (fun sum m => sum + mastery_level m) ms a = a + sum_levels ms.
Proof.
  induction ms as [|m ms IH]; intros a; cbn [fold_left].
  - cbn. lia.
  - rewrite IH. unfold sum_levels. cbn [fold_right]. lia.
Qed.

Lemma reduce_mastery_sum (ms : list MemberMastery) :
  reduce_mastery ms = sum_levels ms.
Proof. unfold reduce_mastery. now rewrite fold_left_mastery. Qed.

Lemma Map_get_None {V : Type} (m : JsMap V) (k : RoleType) :
  Map_get m k = None <-> ~ In k (keys m).
Proof.
  induction m as [|[k' v] m IH]; cbn.
  - tauto.
  - destruct (String.eqb_spec k' k) as [->|N].
    + split; [discriminate | intros H; exfalso; apply H; now left].
    + rewrite IH. split; [intros H [E|I]; auto | tauto].
Qed.

Lemma Map_get_Some {V : Type} (m : JsMap V) (k : RoleType) (v : V) :
  Map_get m k = Some v -> In (k, v) m.
Proof.
  induction m as [|[k' v'] m IH]; cbn; [discriminate|].
  destruct (String.eqb_spec k' k) as [->|N].
  - intros H; inversion H; now left.
  - intros H; right; auto.
Qed.

Lemma keys_Map_set {V : Type} (m : JsMap V) (k : RoleType) (v : V) :
  keys (Map_set m k v)
  = match Map_get m k with Some _ => keys m | None => keys m ++ [k] end.
Proof.
  induction m as [|[k' v'] m IH]; cbn; [reflexivity|].
  destruct (String.eqb_spec k' k) as [->|N]; cbn; [reflexivity|].
  fold (keys (Map_set m k v)). rewrite IH.
  destruct (Map_get m k); reflexivity.
Qed.

Lemma NoDup_Map_set {V : Type} (m : JsMap V) (k : RoleType) (v : V) :
  NoDup (keys m) -> NoDup (keys (Map_set m k v)).
Proof.
  intros H. rewrite keys_Map_set.
  destruct (Map_get m k) eqn:E; [exact H|].
  apply Map_get_None in E.
  apply NoDup_rev in H. rewrite <- (rev_involutive (keys m ++ [k])).
  apply NoDup_rev. rewrite rev_app_distr. cbn. constructor; [|exact H].
  now rewrite <- in_rev.
Qed.

Lemma In_Map_set {V : Type} (m : JsMap V) (k : RoleType) (v : V) :
  forall r g, In (r, g) (Map_set m k v) ->
              (r = k /\ g = v) \/ (r <> k /\ In (r, g) m) \/ In k (keys m) /\ r = k.
Proof.
  induction m as [|[k' v'] m IH]; intros r g; cbn.
  - intros [H|[]]. inversion H; auto.
  - destruct (String.eqb_spec k' k) as [->|N]; cbn.
    + intros [H|H].
      * inversion H; auto.
      * destruct (String.eqb_spec r k) as [->|N]; [right; right; auto|].
        right; left; auto.
    + intros [H|H].
      * inversion H; subst. right; left; auto.
      * destruct (IH r g H) as [?|[[? ?]|[? ?]]]; auto.
Qed.

Lemma In_Map_set_NoDup {V : Type} (m : JsMap V) (k : RoleType) (v : V) :
  NoDup (keys m) ->
  forall r g, In (r, g) (Map_set m k v) ->
              (r = k /\ g = v) \/ (r <> k /\ In (r, g) m).
Proof.
  intros ND r g H.
  pose proof (NoDup_Map_set m k v ND) as ND'.
  destruct (String.eqb_spec r k) as [->|N].
  - left; split; [reflexivity|].
    assert (I : In (k, v) (Map_set m k v)).
    { clear. induction m as [|[k' v'] m IH]; cbn; [now left|].
      destruct (String.eqb_spec k' k) as [->|N]; cbn; auto. }
    clear - ND' H I. revert ND' H I. generalize (Map_set m k v) as l.
    induction l as [|[k' v'] l IH]; cbn; [tauto|].
    intros ND [H|H] [I|I].
    + congruence.
    + inversion H; subst. inversion ND; subst.
      exfalso. apply H2. change k with (fst (k, v)). now apply in_map.
    + inversion I; subst. inversion ND; subst.
      exfalso. apply H2. change k with (fst (k, g)). now apply in_map.
    + inversion ND; subst. auto.
  - destruct (In_Map_set m k v r g H) as [[? ?]|[[? ?]|[? ?]]]; try contradiction.
    right; auto.
Qed.

Lemma group_by_role_snoc (ms : list MemberMastery) (m : MemberMastery) :
  group_by_role (ms ++ [m])
  = Map_set (group_by_role ms) (role m)
      (match Map_get (group_by_role ms) (role m) with
       | Some g => g
       | None => []
       end ++ [m]).
Proof. unfold group_by_role. now rewrite fold_left_app. Qed.

Lemma members_of_role_snoc (r : RoleType) (ms : list MemberMastery) (m : MemberMastery) :
  members_of_role r (ms ++ [m])
  = members_of_role r ms ++ (if String.eqb (role m) r then [m] else []).
Proof.
  unfold members_of_role. rewrite filter_app. cbn.
  now destruct (String.eqb (role m) r).
Qed.

(** The groups partition the members by role, each role once, and no group
    is empty. *)
Lemma group_by_role_spec (ms : list MemberMastery) :
  NoDup (keys (group_by_role ms))
  /\ (forall r g, In (r, g) (group_by_role ms) -> g = members_of_role r ms)
  /\ (forall r, ~ In r (keys (group_by_role ms)) -> members_of_role r ms = [])
  /\ (forall m, In m ms -> In (role m) (keys (group_by_role ms)))
  /\ (forall r g, In (r, g) (group_by_role ms) -> g <> []).
Proof.
  induction ms as [|m ms IH] using rev_ind.
  - cbn. repeat split; try constructor; try tauto.
  - destruct IH as [ND [Hin [Hout [Hkey Hne]]]].
    rewrite group_by_role_snoc. set (G := group_by_role ms) in *.
    split; [now apply NoDup_Map_set|]. split; [|split; [|split]].
    + intros r g H. rewrite members_of_role_snoc.
      apply (In_Map_set_NoDup G _ _ ND) in H. destruct H as [[-> ->]|[N H]].
      * rewrite String.eqb_refl.
        destruct (Map_get G (role m)) as [g0|] eqn:E.
        -- apply Map_get_Some in E. now rewrite (Hin _ _ E).
        -- apply Map_get_None in E. now rewrite (Hout _ E).
      * destruct (String.eqb_spec (role m) r) as [E|_]; [congruence|].
        rewrite app_nil_r. now apply Hin.
    + intros r H. rewrite keys_Map_set in H. rewrite members_of_role_snoc.
      destruct (Map_get G (role m)) eqn:E.
      * destruct (String.eqb_spec (role m) r) as [<-|_].
        -- exfalso. apply H. apply Map_get_Some in E.
           change (role m) with (fst (role m, l)). now apply in_map.
        -- rewrite app_nil_r. now apply Hout.
      * rewrite in_app_iff in H. cbn in H.
        destruct (String.eqb_spec (role m) r) as [<-|_]; [tauto|].
        rewrite app_nil_r. apply Hout. tauto.
    + intros x Hx. rewrite keys_Map_set. apply in_app_iff in Hx.
      destruct (Map_get G (role m)) eqn:E.
      * destruct Hx as [Hx|[<-|[]]]; [now apply Hkey|].
        apply Map_get_Some in E.
        change (role m) with (fst (role m, l)). now apply in_map.
      * rewrite in_app_iff. destruct Hx as [Hx|[<-|[]]]; [left; now apply Hkey|].
        right; now left.
    + intros r g H.
      apply (In_Map_set_NoDup G _ _ ND) in H. destruct H as [[-> ->]|[N H]].
      * intros E. apply app_eq_nil in E. destruct E; discriminate.
      * now apply (Hne r).
Qed.

Lemma tally_roles_breakdown (groups : JsMap (list MemberMastery)) :
  forall t, t_roleBreakdown (fold_left tally_role groups t)
            = t_roleBreakdown t ++ map breakdown_of groups.
Proof.
  induction groups as [|[r g] groups IH]; intros t; cbn [fold_left map].
  - now rewrite app_nil_r.
  - rewrite IH. unfold tally_role. cbn [t_roleBreakdown].
    now rewrite <- app_assoc.
Qed.

Lemma insert_sorted_perm (x : RoleBreakdown) (l : list RoleBreakdown) :
  Permutation (insert_sorted x l) (x :: l).
Proof.
  induction l as [|y ys IH]; cbn [insert_sorted]; [reflexivity|].
  destruct (gtb (compare_readiness x y) (Int 0)); [|reflexivity].
  rewrite IH. apply perm_swap.
Qed.

(** Sorting reorders the breakdown, it neither drops nor adds an entry. *)
Lemma sort_by_readiness_perm (l : list RoleBreakdown) :
  Permutation (sort_by_readiness l) l.
Proof.
  induction l as [|x l IH]; [reflexivity|].
  unfold sort_by_readiness. cbn [fold_right]. fold (sort_by_readiness l).
  rewrite insert_sorted_perm. now constructor.
Qed.

Lemma breakdown_of_formula (r : RoleType) (g : list MemberMastery) :
  readinessPercent (breakdown_of (r, g)) = readiness_formula g.
Proof.
  unfold breakdown_of, readiness_formula, MAX_MASTERY_LEVEL. cbn [readinessPercent snd].
  now rewrite reduce_mastery_sum.
Qed.

(** The two fields of the result that the formula is about, for a non-empty
    member list. *)
Lemma calculateTaskForceReadiness_fields
      (now : Z) (taskForceId taskForceName : string)
      (ms : list MemberMastery) (previousReadiness : option number) :
  ms <> [] ->
  let r := calculateTaskForceReadiness now taskForceId taskForceName ms
             previousReadiness in
  overallReadiness r
  = Math_round (fmul (fdiv (Z2SF (reduce_mastery ms))
                           (Z2SF (Z.of_nat (List.length ms) * MAX_MASTERY_LEVEL)))
                     (Z2SF 100))
  /\ roleBreakdown r
     = sort_by_readiness (map breakdown_of (group_by_role ms))
  /\ totalMembers r = Z.of_nat (List.length ms).
Proof.
  intros H. destruct ms as [|m ms]; [congruence|].
  unfold calculateTaskForceReadiness.
  destruct previousReadiness;
    cbn [overallReadiness roleBreakdown totalMembers];
    unfold tally_roles; rewrite tally_roles_breakdown; repeat split.
Qed.

(** C1. For a non-empty member list, [overallReadiness] is
    [round(sum of levels / (members * 4) * 100)], and the breakdown holds
    exactly one entry per role that occurs among the members, whose
    [readinessPercent] is the same formula over the members of that role
    (and whose [count] is their number). *)
Theorem calculateTaskForceReadiness_formula
        (now : Z) (taskForceId taskForceName : string)
        (ms : list MemberMastery) (previousReadiness : option number) :
  ms <> [] ->
  let r := calculateTaskForceReadiness now taskForceId taskForceName ms
             previousReadiness in
  overallReadiness r = readiness_formula ms
  /\ (forall rb, In rb (roleBreakdown r) ->
        readinessPercent rb = readiness_formula (members_of_role (rb_role rb) ms)
        /\ count rb = Z.of_nat (List.length (members_of_role (rb_role rb) ms))
        /\ members_of_role (rb_role rb) ms <> [])
  /\ (forall m, In m ms -> exists rb, In rb (roleBreakdown r) /\ rb_role rb = role m)
  /\ NoDup (map rb_role (roleBreakdown r)).
Proof.
  intros H r.
  destruct (calculateTaskForceReadiness_fields now taskForceId taskForceName
              ms previousReadiness H) as [Ho [Hb _]].
  fold r in Ho, Hb. rewrite Ho, Hb.
  destruct (group_by_role_spec ms) as [ND [Hin [Hout [Hkey Hne]]]].
  pose proof (sort_by_readiness_perm (map breakdown_of (group_by_role ms))) as P.
  split; [|split; [|split]].
  - unfold readiness_formula, MAX_MASTERY_LEVEL. now rewrite reduce_mastery_sum.
  - intros rb Hrb. apply (Permutation_in _ P) in Hrb.
    apply in_map_iff in Hrb. destruct Hrb as [[k g] [<- Hg]].
    pose proof (Hne _ _ Hg) as Hg0.
    pose proof (Hin _ _ Hg) as E. cbn [rb_role breakdown_of fst].
    rewrite <- E.
    split; [apply breakdown_of_formula|]. split; [reflexivity | exact Hg0].
  - intros m Hm. apply Hkey in Hm. apply in_map_iff in Hm.
    destruct Hm as [[k g] [Ek Hg]]. cbn in Ek. subst k.
    exists (breakdown_of (role m, g)). split; [|reflexivity].
    apply (Permutation_in _ (Permutation_sym P)). now apply in_map.
  - apply (Permutation_NoDup (Permutation_sym (Permutation_map rb_role P))).
    rewrite map_map. cbn [breakdown_of rb_role]. exact ND.
Qed.

(** Ten members, seven at level 2 and three at level 3: the levels sum to
    23.  The quotient 23/40 and its product with 100 are rounded to doubles,
    the product is 57.49999999999999 and [Math.round] yields 57. *)
Definition squad : list MemberMastery :=
  repeat (member "fde" "FDE" 2) 7 ++ repeat (member "se" "AI-SE" 3) 3.

Lemma squad_readiness :
  let r := calculateTaskForceReadiness PROGRAM_START "tf-1" "Alpha" squad None in
  overallReadiness r = Int 57
  /\ map (fun rb => (rb_role rb, count rb, readinessPercent rb)) (roleBreakdown r)
     = [("FDE"%string, 7, Int 50); ("AI-SE"%string, 3, Int 75)]
  /\ lowestRole r = Some "FDE"%string /\ highestRole r = Some "AI-SE"%string.
Proof. vm_compute. repeat split. Qed.

Lemma calculateTaskForceReadiness_formula_witness :
  let r := calculateTaskForceReadiness PROGRAM_START "tf-1" "Alpha" squad None in
  squad <> []
  /\ overallReadiness r = readiness_formula squad
  /\ NoDup (map rb_role (roleBreakdown r)).
Proof.
  intros r.
  assert (H : squad <> []) by discriminate.
  destruct (calculateTaskForceReadiness_formula PROGRAM_START "tf-1" "Alpha"
              squad None H) as [Ho [_ [_ Hn]]].
  split; [exact H|]. split; [exact Ho | exact Hn].
Defined.

End BreakdownFacts.

(** ** Program-wide readiness *)

Section ProgramFacts.
Import JS Readiness.

Lemma add_0_r (a : number) : add a (Int 0) = a.
Proof. destruct a; cbn; try reflexivity. f_equal; lia. Qed.

Lemma add_0_l (a : number) : add (Int 0) a = a.
Proof. destruct a; reflexivity. Qed.

Lemma add_assoc (a b c : number) : add (add a b) c = add a (add b c).
Proof.
  destruct a as [x| |[|]], b as [y| |[|]], c as [z| |[|]]; cbn;
    try reflexivity; f_equal; lia.
Qed.

Lemma fold_left_weighted (tfs : list TaskForceReadiness) :
  forall a,
    fold_left (fun sum tf => add sum (mul (overallReadiness tf) (Int (totalMembers tf))))
              tfs a
    = add a (weighted_sum tfs).
Proof.
  induction tfs as [|tf tfs IH]; intros a; cbn [fold_left weighted_sum fold_right].
  - now rewrite add_0_r.
  - rewrite IH. apply add_assoc.
Qed.

Lemma fold_left_members (tfs : list TaskForceReadiness) :
  forall a, fold_left (fun sum tf => sum + totalMembers tf) tfs a = a + sum_members tfs.
Proof.
  induction tfs as [|tf tfs IH]; intros a; cbn [fold_left sum_members fold_right].
  - lia.
  - rewrite IH. unfold sum_members. lia.
Qed.

(** C10. When the member counts of the task forces sum to a positive
    number, the aggregate's [overallReadiness] is [Math.round] of the
    readiness values' average weighted by member count, [totalParticipants]
    is the sum of the member counts, and the on-track and at-risk counts add
    up to the number of task forces; the empty list yields the all-zero
    summary. *)
Theorem calculateOverallProgramReadiness_weighted (tfs : list TaskForceReadiness) :
  (0 < sum_members tfs ->
   let p := calculateOverallProgramReadiness tfs in
   p_overallReadiness p = Math_round (weighted_average tfs)
   /\ totalParticipants p = sum_members tfs
   /\ taskForcesOnTrack p = Z.of_nat (List.length (filter isOnTrack tfs))
   /\ taskForcesOnTrack p + taskForcesAtRisk p = Z.of_nat (List.length tfs))
  /\ calculateOverallProgramReadiness []
     = {| p_overallReadiness := Int 0; totalParticipants := 0;
          taskForcesOnTrack := 0; taskForcesAtRisk := 0; roleAnalysis := [] |}.
Proof.
  split; [|reflexivity].
  intros H. destruct tfs as [|tf tfs]; [cbn in H; lia|].
  unfold calculateOverallProgramReadiness.
  cbn [p_overallReadiness totalParticipants taskForcesOnTrack taskForcesAtRisk].
  rewrite fold_left_weighted, fold_left_members, add_0_l.
  unfold weighted_average. cbn [Z.add].
  repeat split. lia.
Qed.

(** Two task forces: the ten-member squad (57 %) and a pair at level 3
    (75 %); the weighted average is 720 / 12 = 60. *)
Definition program : list TaskForceReadiness :=
  [calculateTaskForceReadiness PROGRAM_START "tf-1" "Alpha" squad None;
   calculateTaskForceReadiness PROGRAM_START "tf-2" "Bravo"
     [member "p1" "FDE" 3; member "p2" "AI-PM" 3] None].

Lemma program_readiness :
  let p := calculateOverallProgramReadiness program in
  p_overallReadiness p = Int 60
  /\ totalParticipants p = 12
  /\ taskForcesOnTrack p = 2 /\ taskForcesAtRisk p = 0
  /\ map (fun e => (fst e, ra_total (snd e), avgReadiness (snd e))) (roleAnalysis p)
     = [("FDE"%string, 8, Int 53); ("AI-SE"%string, 3, Int 75);
        ("AI-PM"%string, 1, Int 75)].
Proof. vm_compute. repeat split. Qed.

Lemma calculateOverallProgramReadiness_weighted_witness :
  let p := calculateOverallProgramReadiness program in
  0 < sum_members program
  /\ p_overallReadiness p = Math_round (weighted_average program)
  /\ totalParticipants p = sum_members program
  /\ taskForcesOnTrack p + taskForcesAtRisk p = Z.of_nat (List.length program).
Proof.
  intros p.
  assert (H : 0 < sum_members program) by reflexivity.
  destruct (proj1 (calculateOverallProgramReadiness_weighted program) H)
    as [Ho [Ht [_ Hc]]].
  split; [exact H|]. split; [exact Ho|]. split; [exact Ht | exact Hc].
Defined.

(** The positive total is needed: task forces without members make the
    quotient 0/0, which is not a number. *)
Lemma program_without_members :
  p_overallReadiness
    (calculateOverallProgramReadiness
       [calculateTaskForceReadiness PROGRAM_START "tf-0" "Empty" [] None])
  = NaN.
Proof. reflexivity. Qed.

End ProgramFacts.

(** ** Rounding to binary64

    Upper bounds for the two float operations of the readiness formula: the
    quotient of two integers [a <= b] is a double that is at most 1, and its
    product with 100 is at most 100.  Both follow from one fact about
    [binary_round_aux]: a value that does not exceed a point of the grid it
    is rounded to is not rounded beyond that point. *)

Section RoundingFacts.
Import JS.

Lemma iter_pos_nat {A : Type} (f : A -> A) (p : positive) :
  forall x, iter_pos f p x = Nat.iter (Pos.to_nat p) f x.
Proof.
  induction p as [p IH|p IH|]; intros x; cbn [iter_pos].
  - rewrite !IH, Pos2Nat.inj_xI.
    replace (S (2 * Pos.to_nat p))%nat with (S (Pos.to_nat p + Pos.to_nat p))%nat by lia.
    now rewrite Nat.iter_succ_r, Nat.iter_add.
  - rewrite !IH, Pos2Nat.inj_xO.
    replace (2 * Pos.to_nat p)%nat with (Pos.to_nat p + Pos.to_nat p)%nat by lia.
    now rewrite Nat.iter_add.
  - reflexivity.
Qed.

(** One shift: halve the mantissa, remember the bit that fell off. *)
Lemma shr_1_spec (m : Z) (r s : bool) :
  0 <= m ->
  shr_1 {| shr_m := m; shr_r := r; shr_s := s |}
  = {| shr_m := m / 2; shr_r := Z.odd m; shr_s := r || s |}.
Proof.
  intros H. destruct m as [|p|p]; [reflexivity| |lia].
  destruct p as [p|p|]; cbn [shr_1]; f_equal.
  - rewrite Pos2Z.inj_xI. apply Z.div_unique with 1; lia.
  - rewrite Pos2Z.inj_xO. apply Z.div_unique with 0; lia.
Qed.

(** [n] shifts divide the mantissa by [2^n]; when nothing but zeros falls
    off an exact position, the position stays exact. *)
Lemma shr_iter_spec (n : nat) (m : Z) (r s : bool) :
  0 <= m ->
  let res := Nat.iter n shr_1 {| shr_m := m; shr_r := r; shr_s := s |} in
  shr_m res = m / 2 ^ Z.of_nat n
  /\ (m mod 2 ^ Z.of_nat n = 0 -> r = false -> s = false ->
      shr_r res = false /\ shr_s res = false).
Proof.
  intros H. induction n as [|n IH].
  - cbn. rewrite Z.div_1_r. split; [reflexivity|]. intros _ -> ->. auto.
  - cbn [Nat.iter nat_rect]. cbn zeta in *.
    fold (Nat.iter n shr_1 {| shr_m := m; shr_r := r; shr_s := s |}) in *.
    destruct (Nat.iter n shr_1 {| shr_m := m; shr_r := r; shr_s := s |})
      as [m' r' s'] eqn:E.
    cbn [shr_m shr_r shr_s] in IH. destruct IH as [Hm Hex].
    assert (P : 0 < 2 ^ Z.of_nat n) by (apply Z.pow_pos_nonneg; lia).
    assert (Hm' : 0 <= m') by (subst m'; apply Z.div_pos; lia).
    rewrite shr_1_spec by exact Hm'. cbn [shr_m shr_r shr_s].
    assert (E2 : 2 ^ Z.of_nat (S n) = 2 ^ Z.of_nat n * 2)
      by (rewrite Nat2Z.inj_succ, Z.pow_succ_r; lia).
    rewrite E2. split.
    + subst m'. rewrite Z.div_div by lia. reflexivity.
    + intros Hmod -> ->.
      assert (Hd : m = 2 ^ Z.of_nat n * 2 * (m / (2 ^ Z.of_nat n * 2)))
        by (apply Z.div_exact; lia).
      assert (Hmod' : m mod 2 ^ Z.of_nat n = 0).
      { rewrite Hd. rewrite <- Z.mul_assoc, Z.mul_comm. apply Z.mod_mul. lia. }
      destruct (Hex Hmod' eq_refl eq_refl) as [-> ->]. split; [|reflexivity].
      subst m'. rewrite Hd at 1.
      rewrite <- Z.mul_assoc, Z.mul_comm, Z.div_mul by lia.
      now rewrite Z.odd_mul.
Qed.


Lemma Zdigits2_log2 (m : Z) : 0 < m -> Zdigits2 m = Z.log2 m + 1.
Proof.
  destruct m as [|p|p]; try lia. intros _. cbn [Zdigits2].
  assert (D : forall q, digits2_pos q = Pos.size q)
    by (induction q; cbn; congruence).
  rewrite D. destruct p; cbn; lia.
Qed.

Lemma Zdigits2_nonneg (m : Z) : 0 <= Zdigits2 m.
Proof. destruct m; cbn; lia. Qed.

Lemma Zdigits2_mono (a b : Z) : 0 <= a <= b -> Zdigits2 a <= Zdigits2 b.
Proof.
  intros [Ha Hab]. destruct (Z.eq_dec a 0) as [->|N].
  - apply Zdigits2_nonneg.
  - rewrite !Zdigits2_log2 by lia. pose proof (Z.log2_le_mono a b Hab). lia.
Qed.

Lemma Zdigits2_pow2 (k : Z) : 0 <= k -> Zdigits2 (2 ^ k) = k + 1.
Proof.
  intros H. rewrite Zdigits2_log2 by (apply Z.pow_pos_nonneg; lia).
  now rewrite Z.log2_pow2.
Qed.

Lemma Zdigits2_mul_pow2 (a k : Z) :
  0 < a -> 0 <= k -> Zdigits2 (a * 2 ^ k) = Zdigits2 a + k.
Proof.
  intros Ha Hk.
  assert (0 < 2 ^ k) by (apply Z.pow_pos_nonneg; lia).
  rewrite !Zdigits2_log2 by nia. rewrite Z.log2_mul_pow2 by lia. lia.
Qed.

Lemma Zdigits2_lt_pow2 (a k : Z) : 0 <= a < 2 ^ k -> 0 <= k -> Zdigits2 a <= k.
Proof.
  intros [Ha Hk] H0. destruct (Z.eq_dec a 0) as [->|N]; [cbn; lia|].
  rewrite Zdigits2_log2 by lia.
  assert (Z.log2 a < k) by (apply Z.log2_lt_pow2; lia). lia.
Qed.


Lemma fexp_eq (e : Z) : fexp prec emax e = Z.max (e - 53) (-1074).
Proof. reflexivity. Qed.

Lemma shr_record_of_loc_m (m : Z) (l : location) :
  shr_m (shr_record_of_loc m l) = m.
Proof. destruct l as [|[]]; reflexivity. Qed.

Lemma loc_of_shr_record_of_loc (m : Z) (l : location) :
  loc_of_shr_record (shr_record_of_loc m l) = l.
Proof. destruct l as [|[]]; reflexivity. Qed.

Lemma round_nearest_even_bounds (m : Z) (l : location) :
  m <= round_nearest_even m l <= m + 1.
Proof.
  destruct l as [|[]]; cbn; try lia. destruct (Z.even m); lia.
Qed.

(** [shr] by [n] places (no shift when [n <= 0]). *)
Lemma shr_spec (m e n : Z) (l : location) :
  0 <= m ->
  let k := Z.max 0 n in
  let res := shr (shr_record_of_loc m l) e n in
  snd res = e + k
  /\ shr_m (fst res) = m / 2 ^ k
  /\ (k = 0 -> fst res = shr_record_of_loc m l)
  /\ (m mod 2 ^ k = 0 -> l = loc_Exact -> loc_of_shr_record (fst res) = loc_Exact).
Proof.
  intros H k res. destruct n as [|p|p]; subst k res; cbn [shr fst snd].
  - rewrite Z.max_id, Z.add_0_r. cbn [Z.pow]. rewrite Z.div_1_r.
    rewrite shr_record_of_loc_m. repeat split; auto.
    intros _ ->. reflexivity.
  - rewrite Z.max_r by lia. rewrite iter_pos_nat.
    pose proof (shr_iter_spec (Pos.to_nat p) m
                  (shr_r (shr_record_of_loc m l)) (shr_s (shr_record_of_loc m l)) H)
      as S.
    rewrite positive_nat_Z in S.
    replace {| shr_m := m; shr_r := shr_r (shr_record_of_loc m l);
               shr_s := shr_s (shr_record_of_loc m l) |}
      with (shr_record_of_loc m l) in S by (destruct l as [|[]]; reflexivity).
    cbn zeta in S. destruct S as [Sm Sx].
    repeat split; auto; [lia|].
    intros Hmod ->.
    change (shr_record_of_loc m loc_Exact)
      with {| shr_m := m; shr_r := false; shr_s := false |} in *.
    destruct (Sx Hmod eq_refl eq_refl) as [Hr Hs].
    destruct (Nat.iter (Pos.to_nat p) shr_1
                {| shr_m := m; shr_r := false; shr_s := false |})
      as [m' r' s']. cbn in Hr, Hs. subst. reflexivity.
  - rewrite Z.max_l by lia. rewrite Z.add_0_r. cbn [Z.pow]. rewrite Z.div_1_r.
    rewrite shr_record_of_loc_m. repeat split; auto.
    intros _ ->. reflexivity.
Qed.

(** First rounding step: when the exact value is at most [K] units of the
    target precision, so is the rounded mantissa. *)
Lemma shr_fexp_round_le (m e K : Z) (l : location) :
  0 <= m ->
  let n := Z.max 0 (fexp prec emax (Zdigits2 m + e) - e) in
  m < K * 2 ^ n \/ (m = K * 2 ^ n /\ l = loc_Exact) ->
  let res := shr_fexp prec emax m e l in
  snd res = e + n
  /\ 0 <= round_nearest_even (shr_m (fst res)) (loc_of_shr_record (fst res)) <= K.
Proof.
  intros H n HK res. subst res. unfold shr_fexp.
  destruct (shr_spec m e (fexp prec emax (Zdigits2 m + e) - e) l H)
    as [He [Hm [Hid Hex]]].
  fold n in He, Hm, Hid, Hex.
  set (res := shr (shr_record_of_loc m l) e (fexp prec emax (Zdigits2 m + e) - e)) in *.
  split; [exact He|].
  assert (P : 0 < 2 ^ n) by (apply Z.pow_pos_nonneg; lia).
  pose proof (round_nearest_even_bounds (shr_m (fst res)) (loc_of_shr_record (fst res))) as B.
  assert (0 <= shr_m (fst res)) by (rewrite Hm; apply Z.div_pos; lia).
  split; [lia|].
  destruct HK as [HK|[HK ->]].
  - assert (shr_m (fst res) < K)
      by (rewrite Hm; apply Z.div_lt_upper_bound; lia).
    lia.
  - rewrite Hex; auto.
    + cbn. rewrite Hm, HK. rewrite Z.div_mul; lia.
    + rewrite HK. apply Z.mod_mul. lia.
Qed.

Definition finish (m e : Z) : spec_float :=
  match m with
  | Z0 => S754_zero false
  | Zpos p => if e <=? emax - prec then S754_finite false p e else S754_infinity false
  | Zneg _ => S754_nan
  end.

(** Rounding a non-negative value that is at most [K * 2^(e+n)], where
    [e+n] is the exponent the first step rounds to. *)
Lemma binary_round_aux_le (m e K : Z) (l : location) :
  0 <= m ->
  let n := Z.max 0 (fexp prec emax (Zdigits2 m + e) - e) in
  m < K * 2 ^ n \/ (m = K * 2 ^ n /\ l = loc_Exact) ->
  exists m2 e2,
    binary_round_aux prec emax false m e l = finish m2 e2
    /\ 0 <= m2
    /\ e + n <= e2 <= Z.max (e + n) (fexp prec emax (Zdigits2 K + (e + n)))
    /\ m2 * 2 ^ (e2 - (e + n)) <= K.
Proof.
  intros H n HK.
  destruct (shr_fexp_round_le m e K l H HK) as [He1 [Hlo Hhi]].
  fold n in He1. unfold binary_round_aux.
  destruct (shr_fexp prec emax m e l) as [mrs e1]. cbn [fst snd] in *.
  set (m1 := round_nearest_even (shr_m mrs) (loc_of_shr_record mrs)) in *.
  unfold shr_fexp.
  destruct (shr_spec m1 e1 (fexp prec emax (Zdigits2 m1 + e1) - e1) loc_Exact Hlo)
    as [He2 [Hm2 _]].
  destruct (shr (shr_record_of_loc m1 loc_Exact) e1
              (fexp prec emax (Zdigits2 m1 + e1) - e1)) as [mrs2 e2].
  cbn [fst snd] in *.
  set (n2 := Z.max 0 (fexp prec emax (Zdigits2 m1 + e1) - e1)) in *.
  assert (P : 0 < 2 ^ n2) by (apply Z.pow_pos_nonneg; lia).
  exists (shr_m mrs2), e2. split; [reflexivity|].
  split; [rewrite Hm2; apply Z.div_pos; lia|].
  split.
  - pose proof (Zdigits2_mono m1 K (conj Hlo Hhi)) as D.
    subst n2. rewrite !fexp_eq in *. lia.
  - replace (e2 - (e + n)) with n2 by lia. rewrite Hm2.
    pose proof (Z.mul_div_le m1 (2 ^ n2) P). lia.
Qed.


Lemma finish_bounded (N m2 e1 e2 : Z) :
  0 <= m2 -> e1 <= e2 -> e2 <= 0 ->
  m2 * 2 ^ (e2 - e1) <= N * 2 ^ (- e1) ->
  bounded_by N (finish m2 e2).
Proof.
  intros Hm He1 He2 Hle. destruct m2 as [|p|p]; cbn [finish bounded_by]; [exact I| |lia].
  replace (e2 <=? emax - prec) with true
    by (symmetry; apply Z.leb_le; unfold emax, prec; lia).
  cbn [bounded_by]. split; [exact He2|].
  replace (- e1) with (- e2 + (e2 - e1)) in Hle by lia.
  rewrite Z.pow_add_r, Z.mul_assoc in Hle by lia.
  assert (P : 0 < 2 ^ (e2 - e1)) by (apply Z.pow_pos_nonneg; lia).
  apply Z.mul_le_mono_pos_r in Hle; assumption.
Qed.

(** [Math.round] of a double between 0 and [N] is an integer between 0 and
    [N]. *)
Lemma Math_round_bounded (N : Z) (x : spec_float) :
  0 <= N -> bounded_by N x ->
  exists z, Math_round x = Int z /\ 0 <= z <= N.
Proof.
  intros HN. destruct x as [[|]|s| |[|] m e]; cbn [bounded_by]; try tauto.
  - intros _. exists 0. split; [reflexivity | lia].
  - intros [He Hm]. cbn [Math_round]. destruct e as [|k|k]; [| lia |].
    + exists (Z.pos m). cbn in Hm |- *. split; [f_equal; lia | lia].
    + eexists. split; [reflexivity|].
      change (- Z.neg k) with (Z.pos k) in Hm.
      assert (P : 0 < 2 ^ Z.pos k) by (apply Z.pow_pos_nonneg; lia).
      assert (E : 2 ^ (Z.pos k + 1) = 2 ^ Z.pos k * 2)
        by (rewrite Z.pow_add_r; lia).
      rewrite E. split.
      * apply Z.div_pos; lia.
      * assert ((2 * Z.pos m + 2 ^ Z.pos k) / (2 ^ Z.pos k * 2) < N + 1)
          by (apply Z.div_lt_upper_bound; nia).
        lia.
Qed.

(** A mantissa that already has the target precision is left alone. *)
Lemma binary_round_aux_canonical (m : positive) (e : Z) :
  fexp prec emax (Zdigits2 (Z.pos m) + e) = e -> e <= emax - prec ->
  binary_round_aux prec emax false (Z.pos m) e loc_Exact = S754_finite false m e.
Proof.
  intros Hc He. unfold binary_round_aux, shr_fexp.
  rewrite Hc, Z.sub_diag. cbn [shr shr_record_of_loc shr_m loc_of_shr_record
                                 round_nearest_even].
  rewrite Hc, Z.sub_diag. cbn [shr shr_record_of_loc shr_m].
  apply Z.leb_le in He. now rewrite He.
Qed.

(** Integers below [2^53] convert to doubles without rounding. *)
Lemma Z2SF_exact (z : Z) :
  0 < z < 2 ^ 53 ->
  exists m, Z2SF z = S754_finite false m (Zdigits2 z - 53)
            /\ Z.pos m = z * 2 ^ (53 - Zdigits2 z)
            /\ Zdigits2 (Z.pos m) = 53.
Proof.
  intros [H0 H53]. destruct z as [|p|p]; try lia.
  assert (D : 1 <= Zdigits2 (Z.pos p) <= 53).
  { split; [cbn; lia|]. apply Zdigits2_lt_pow2; lia. }
  unfold Z2SF, binary_normalize, binary_round.
  change (Z.pos (digits2_pos p)) with (Zdigits2 (Z.pos p)).
  rewrite Z.add_0_r, fexp_eq, Z.max_l by lia. unfold shl_align.
  rewrite Z.sub_0_r.
  destruct (Zdigits2 (Z.pos p) - 53) as [|k|k] eqn:E; [|lia|].
  - exists p. replace (53 - Zdigits2 (Z.pos p)) with 0 by lia.
    split; [|split; lia].
    apply binary_round_aux_canonical; [|unfold emax, prec; lia].
    rewrite fexp_eq. lia.
  - fold (shift_pos k p).
    assert (S : Z.pos (shift_pos k p) = Z.pos p * 2 ^ Z.pos k)
      by (rewrite shift_pos_correct; rewrite Z.mul_comm; reflexivity).
    assert (Dm : Zdigits2 (Z.pos (shift_pos k p)) = 53).
    { rewrite S, Zdigits2_mul_pow2 by lia. lia. }
    exists (shift_pos k p). split; [|split].
    + rewrite <- E. apply binary_round_aux_canonical; [|unfold emax, prec; lia].
      rewrite Dm, fexp_eq. lia.
    + rewrite S. f_equal. f_equal. lia.
    + exact Dm.
Qed.


Lemma new_location_exact (nb_steps : Z) : new_location nb_steps 0 = loc_Exact.
Proof.
  unfold new_location. destruct (Z.even nb_steps); reflexivity.
Qed.

(** The quotient of two integers [a <= b] below [2^53] is a double that is
    at most 1. *)
Lemma fdiv_le_1 (a b : Z) :
  0 < a <= b -> b < 2 ^ 53 ->
  bounded_by 1 (fdiv (Z2SF a) (Z2SF b)).
Proof.
  intros [Ha Hab] Hb.
  destruct (Z2SF_exact a) as [mx [Ex [Vx Dx]]]; [lia|].
  destruct (Z2SF_exact b) as [my [Ey [Vy Dy]]]; [lia|].
  assert (Da : 1 <= Zdigits2 a <= 53)
    by (split; [rewrite Zdigits2_log2 by lia; pose proof (Z.log2_nonneg a); lia
               | apply Zdigits2_lt_pow2; lia]).
  assert (Db : Zdigits2 a <= Zdigits2 b <= 53)
    by (split; [apply Zdigits2_mono; lia | apply Zdigits2_lt_pow2; lia]).
  set (da := Zdigits2 a) in *. set (db := Zdigits2 b) in *.
  rewrite Ex, Ey. unfold fdiv, SFdiv, SFdiv_core_binary.
  rewrite Dx, Dy. cbn [xorb].
  replace (53 + (da - 53) - (53 + (db - 53))) with (da - db) by lia.
  rewrite fexp_eq.
  replace (Z.min (Z.max (da - db - 53) (-1074)) (da - 53 - (db - 53)))
    with (da - db - 53) by lia.
  replace (da - 53 - (db - 53) - (da - db - 53)) with 53 by lia.
  rewrite Z.shiftl_mul_pow2 by lia.
  set (m' := Z.pos mx * 2 ^ 53).
  pose proof (Z.div_eucl_eq m' (Z.pos my) ltac:(lia)) as Hdm.
  pose proof (Z.mod_pos_bound m' (Z.pos my) ltac:(lia)) as Hr.
  unfold Z.modulo, Z.div in Hdm, Hr.
  destruct (Z.div_eucl m' (Z.pos my)) as [q r]. cbn [fst snd] in Hdm, Hr.
  set (g := 53 + db - da).
  assert (Pa : 0 < 2 ^ (53 - da)) by (apply Z.pow_pos_nonneg; lia).
  assert (Pb : 0 < 2 ^ (53 - db)) by (apply Z.pow_pos_nonneg; lia).
  assert (Pg : 0 < 2 ^ g) by (apply Z.pow_pos_nonneg; unfold g; lia).
  (* the scaled dividend is at most [2^g] divisors *)
  assert (Hm' : m' <= Z.pos my * 2 ^ g).
  { unfold m'. rewrite Vx, Vy. unfold g.
    rewrite <- !Z.mul_assoc, <- !Z.pow_add_r by lia.
    replace (53 - da + 53) with (53 - db + (53 + db - da)) by lia.
    apply Z.mul_le_mono_nonneg_r; [|lia].
    apply Z.pow_nonneg; lia. }
  assert (Hq0 : 0 <= q) by nia.
  assert (Hq : q < 1 * 2 ^ g \/ (q = 1 * 2 ^ g /\ r = 0)) by nia.
  assert (Dq : Zdigits2 q <= g + 1).
  { rewrite <- (Zdigits2_pow2 g) by (unfold g; lia).
    apply Zdigits2_mono. lia. }
  set (n := Z.max 0 (fexp prec emax (Zdigits2 q + (da - db - 53)) - (da - db - 53))).
  assert (Hn : 0 <= n <= g - 52) by (unfold n, g in *; rewrite fexp_eq; lia).
  assert (Pn : 2 ^ g = 2 ^ (g - n) * 2 ^ n)
    by (rewrite <- Z.pow_add_r by lia; f_equal; lia).
  destruct (binary_round_aux_le q (da - db - 53) (2 ^ (g - n)) (new_location (Z.pos my) r) Hq0)
    as [m2 [e2 [-> [H0 [He Hv]]]]].
  { fold n. rewrite <- Pn. destruct Hq as [Hq|[Hq ->]]; [left; lia|].
    right. split; [lia | apply new_location_exact]. }
  fold n in He, Hv.
  rewrite Zdigits2_pow2, fexp_eq in He by lia.
  apply (finish_bounded 1 m2 (da - db - 53 + n) e2); try lia.
  replace (- (da - db - 53 + n)) with (g - n) by (unfold g; lia). lia.
Qed.


Lemma Z2SF_100 : Z2SF 100 = S754_finite false 7036874417766400 (-46).
Proof. reflexivity. Qed.

(** A double that is at most 1, multiplied by 100, is at most 100. *)
Lemma fmul_100_le (x : spec_float) :
  bounded_by 1 x -> bounded_by 100 (fmul x (Z2SF 100)).
Proof.
  rewrite Z2SF_100.
  destruct x as [[|]|s| |[|] mx ex]; cbn [bounded_by]; try tauto.
  intros [He Hm]. unfold fmul, SFmul. cbn [xorb].
  rewrite Pos2Z.inj_mul.
  change (Z.pos 7036874417766400) with (100 * 2 ^ 46).
  set (e := ex + -46).
  set (m := Z.pos mx * (100 * 2 ^ 46)).
  assert (Px : 0 < 2 ^ (- ex)) by (apply Z.pow_pos_nonneg; lia).
  assert (Hm0 : 0 <= m) by (unfold m; lia).
  assert (HmK : m <= 100 * 2 ^ (46 - ex)).
  { unfold m. replace (46 - ex) with (- ex + 46) by lia.
    rewrite Z.pow_add_r by lia. nia. }
  assert (Dm : Zdigits2 m <= 53 - ex).
  { replace (53 - ex) with (Zdigits2 (100 * 2 ^ (46 - ex))).
    - apply Zdigits2_mono. lia.
    - rewrite Zdigits2_mul_pow2 by lia. change (Zdigits2 100) with 7. lia. }
  set (n := Z.max 0 (fexp prec emax (Zdigits2 m + e) - e)).
  assert (Hn : 0 <= n <= - ex) by (unfold n, e in *; rewrite fexp_eq; lia).
  assert (Pn : 2 ^ (46 - ex) = 2 ^ (46 - ex - n) * 2 ^ n)
    by (rewrite <- Z.pow_add_r by lia; f_equal; lia).
  destruct (binary_round_aux_le m e (100 * 2 ^ (46 - ex - n)) loc_Exact Hm0)
    as [m2 [e2 [-> [H0 [He2 Hv]]]]].
  { fold n. rewrite <- Z.mul_assoc, <- Pn.
    destruct (Z.eq_dec m (100 * 2 ^ (46 - ex))); [right; auto | left; lia]. }
  fold n in He2, Hv.
  rewrite Zdigits2_mul_pow2, fexp_eq in He2 by lia.
  change (Zdigits2 100) with 7 in He2.
  apply (finish_bounded 100 m2 (e + n) e2); try (unfold e in *; lia).
  replace (- (e + n)) with (46 - ex - n) by (unfold e; lia). lia.
Qed.

End RoundingFacts.

(** ** Range of the readiness percentage *)

Section RangeFacts.
Import JS Readiness.

Lemma sum_levels_range (ms : list MemberMastery) :
  Forall (fun m => 1 <= mastery_level m <= 4) ms ->
  Z.of_nat (List.length ms) <= sum_levels ms <= 4 * Z.of_nat (List.length ms).
Proof.
  induction 1 as [|m ms Hm _ IH]; cbn [sum_levels fold_right List.length].
  - lia.
  - fold (sum_levels ms). lia.
Qed.

(** The formula stays within 0..100 for levels between 1 and 4. *)
Lemma readiness_formula_range (ms : list MemberMastery) :
  ms <> [] ->
  Z.of_nat (List.length ms) < 2 ^ 32 ->
  Forall (fun m => 1 <= mastery_level m <= 4) ms ->
  exists z, readiness_formula ms = Int z /\ 0 <= z <= 100.
Proof.
  intros Hne Hlen Hlv.
  pose proof (sum_levels_range ms Hlv) as Hs.
  assert (0 < Z.of_nat (List.length ms))
    by (destruct ms; [congruence | cbn [List.length]; lia]).
  unfold readiness_formula.
  apply Math_round_bounded; [lia|].
  apply fmul_100_le, fdiv_le_1; lia.
Qed.

(** C5. For a non-empty member list (an array holds fewer than 2^32
    elements) whose mastery levels are integers between 1 and 4,
    [overallReadiness] is an integer between 0 and 100. *)
Theorem overallReadiness_range
        (now : Z) (taskForceId taskForceName : string)
        (ms : list MemberMastery) (previousReadiness : option number) :
  ms <> [] ->
  Z.of_nat (List.length ms) < 2 ^ 32 ->
  Forall (fun m => 1 <= mastery_level m <= 4) ms ->
  exists z,
    overallReadiness (calculateTaskForceReadiness now taskForceId taskForceName
                        ms previousReadiness) = Int z
    /\ 0 <= z <= 100.
Proof.
  intros Hne Hlen Hlv.
  destruct (calculateTaskForceReadiness_fields now taskForceId taskForceName
              ms previousReadiness Hne) as [Ho _].
  rewrite Ho, reduce_mastery_sum.
  exact (readiness_formula_range ms Hne Hlen Hlv).
Qed.

Lemma overallReadiness_range_witness :
  squad <> []
  /\ Z.of_nat (List.length squad) < 2 ^ 32
  /\ Forall (fun m => 1 <= mastery_level m <= 4) squad
  /\ exists z,
      overallReadiness (calculateTaskForceReadiness PROGRAM_START "tf-1" "Alpha"
                          squad None) = Int z
      /\ 0 <= z <= 100.
Proof.
  assert (Hne : squad <> []) by discriminate.
  assert (Hlen : Z.of_nat (List.length squad) < 2 ^ 32) by (cbn; lia).
  assert (Hlv : Forall (fun m => 1 <= mastery_level m <= 4) squad)
    by (repeat constructor; cbn; lia).
  split; [exact Hne|]. split; [exact Hlen|]. split; [exact Hlv|].
  exact (overallReadiness_range PROGRAM_START "tf-1" "Alpha" squad None
           Hne Hlen Hlv).
Defined.

End RangeFacts.

(** * Further properties *)

(** ** Sorting with a comparator *)

Section SortFacts.
Import JS JsArray.
Context {A : Type}.
Variable cmp : A -> A -> number.
Variable key : A -> Z.

Definition ascending (l : list A) : Prop :=
  StronglySorted (fun a b => key a <= key b) l.

(** The first of the elements with the least key. *)
Fixpoint first_min (l : list A) : option A :=
  match l with
  | [] => None
  | x :: rest =>
      match first_min rest with
      | Some m => if key x <=? key m then Some x else Some m
      | None => Some x
      end
  end.

Lemma insert_perm (x : A) (l : list A) : Permutation (insert cmp x l) (x :: l).
Proof.
  induction l as [|y ys IH]; cbn [insert]; [reflexivity|].
  destruct (gtb (cmp x y) (Int 0)); [|reflexivity].
  rewrite IH. apply perm_swap.
Qed.

Lemma sort_perm (l : list A) : Permutation (sort cmp l) l.
Proof.
  induction l as [|x l IH]; [reflexivity|].
  unfold sort. cbn [fold_right]. fold (sort cmp l).
  rewrite insert_perm. now constructor.
Qed.

Lemma insert_ascending (x : A) (l : list A) :
  (forall y, In y l -> cmp x y = Int (key x - key y)) ->
  ascending l -> ascending (insert cmp x l).
Proof.
  unfold ascending. induction l as [|y ys IH]; intros Hc Hs; cbn [insert].
  - repeat constructor.
  - apply StronglySorted_inv in Hs. destruct Hs as [Hs Hy].
    rewrite (Hc y) by now left. cbn [gtb ltb].
    destruct (Z.ltb_spec 0 (key x - key y)) as [L|L].
    + constructor.
      * apply IH; [intros z Hz; apply Hc; now right | exact Hs].
      * apply (Permutation_Forall (Permutation_sym (insert_perm x ys))).
        constructor; [lia | exact Hy].
    + constructor; [now constructor|].
      constructor; [lia|].
      apply (Forall_impl _ (P := fun b => key y <= key b)); [intros; lia | exact Hy].
Qed.

(** When the comparator is the difference of integer keys on the elements
    of the list, the result is in ascending key order. *)
Lemma sort_ascending (l : list A) :
  (forall a b, In a l -> In b l -> cmp a b = Int (key a - key b)) ->
  ascending (sort cmp l).
Proof.
  induction l as [|x l IH]; intros Hc.
  - constructor.
  - unfold sort. cbn [fold_right]. fold (sort cmp l). apply insert_ascending.
    + intros y Hy. apply Hc; [now left|].
      right. exact (Permutation_in _ (sort_perm l) Hy).
    + apply IH. intros a b Ha Hb. apply Hc; now right.
Qed.

(** A list that is already in ascending order is left as it is. *)
Lemma sort_ascending_id (l : list A) :
  (forall a b, In a l -> In b l -> cmp a b = Int (key a - key b)) ->
  ascending l -> sort cmp l = l.
Proof.
  unfold ascending. induction l as [|x l IH]; intros Hc Hs; [reflexivity|].
  apply StronglySorted_inv in Hs. destruct Hs as [Hs Hx].
  unfold sort. cbn [fold_right]. fold (sort cmp l).
  rewrite IH; [|intros a b Ha Hb; apply Hc; now right | exact Hs].
  destruct l as [|y ys]; [reflexivity|]. cbn [insert].
  rewrite Hc; [|now left | right; now left]. cbn [gtb ltb].
  apply Forall_inv in Hx.
  destruct (Z.ltb_spec 0 (key x - key y)); [lia | reflexivity].
Qed.

(** Stability: the sorted list starts with the first of the least
    elements. *)
Lemma sort_head (l : list A) :
  (forall a b, In a l -> In b l -> cmp a b = Int (key a - key b)) ->
  hd_error (sort cmp l) = first_min l.
Proof.
  induction l as [|x l IH]; intros Hc; [reflexivity|].
  unfold sort. cbn [fold_right first_min]. fold (sort cmp l).
  rewrite <- IH by (intros a b Ha Hb; apply Hc; now right).
  pose proof (sort_perm l) as P.
  destruct (sort cmp l) as [|y ys]; [reflexivity|]. cbn [insert hd_error].
  rewrite Hc; [|now left | right; apply (Permutation_in _ P); now left].
  cbn [gtb ltb].
  destruct (Z.ltb_spec 0 (key x - key y)), (Z.leb_spec (key x) (key y));
    try lia; reflexivity.
Qed.

End SortFacts.

(** ** The role breakdown: order, range, lowest and highest role *)

Section BreakdownOrderFacts.
Import JS Readiness.

(** The integer a readiness percentage holds. *)
Definition pct (rb : RoleBreakdown) : Z :=
  match readinessPercent rb with Int z => z | _ => 0 end.

Definition percent_in_range (rb : RoleBreakdown) : Prop :=
  exists z, readinessPercent rb = Int z /\ 0 <= z <= 100.

Lemma insert_sorted_generic (x : RoleBreakdown) (l : list RoleBreakdown) :
  insert_sorted x l = JsArray.insert compare_readiness x l.
Proof. induction l as [|y ys IH]; cbn; [reflexivity | now rewrite IH]. Qed.

Lemma sort_by_readiness_generic (l : list RoleBreakdown) :
  sort_by_readiness l = JsArray.sort compare_readiness l.
Proof.
  induction l as [|x l IH]; [reflexivity|].
  unfold sort_by_readiness, JsArray.sort in *. cbn [fold_right].
  now rewrite IH, insert_sorted_generic.
Qed.

Lemma compare_readiness_pct (a b : RoleBreakdown) :
  percent_in_range a -> percent_in_range b ->
  compare_readiness a b = Int (pct a - pct b).
Proof.
  intros [za [Ea _]] [zb [Eb _]]. unfold compare_readiness, pct.
  now rewrite Ea, Eb.
Qed.

(** Every group of a member list with levels 1..4 has a percentage in
    0..100. *)
Lemma groups_in_range (ms : list MemberMastery) :
  Z.of_nat (List.length ms) < 2 ^ 32 ->
  Forall (fun m => 1 <= mastery_level m <= 4) ms ->
  Forall (fun g => percent_in_range (breakdown_of g)) (group_by_role ms).
Proof.
  intros Hlen Hlv. apply Forall_forall. intros [k g] Hg.
  destruct (group_by_role_spec ms) as [_ [Hin [_ [_ Hne]]]].
  pose proof (Hne _ _ Hg) as Hg0. pose proof (Hin _ _ Hg) as E.
  unfold percent_in_range. rewrite breakdown_of_formula.
  apply readiness_formula_range; [exact Hg0| |].
  - subst g. unfold members_of_role.
    pose proof (filter_length_le (fun m => String.eqb (role m) k) ms). lia.
  - subst g. unfold members_of_role. apply Forall_forall. intros m Hm.
    apply filter_In in Hm. rewrite Forall_forall in Hlv. now apply Hlv.
Qed.

Definition no_greater (a b : RoleBreakdown) : Prop :=
  geb (readinessPercent b) (readinessPercent a) = true.

(** X1. For a member list with levels between 1 and 4 every entry of the
    role breakdown carries an integer percentage between 0 and 100, and the
    breakdown is in ascending order of that percentage. *)
Theorem roleBreakdown_ascending
        (now : Z) (taskForceId taskForceName : string)
        (ms : list MemberMastery) (previousReadiness : option number) :
  ms <> [] ->
  Z.of_nat (List.length ms) < 2 ^ 32 ->
  Forall (fun m => 1 <= mastery_level m <= 4) ms ->
  let r := calculateTaskForceReadiness now taskForceId taskForceName ms
             previousReadiness in
  Forall percent_in_range (roleBreakdown r)
  /\ StronglySorted no_greater (roleBreakdown r).
Proof.
  intros Hne Hlen Hlv r.
  destruct (calculateTaskForceReadiness_fields now taskForceId taskForceName
              ms previousReadiness Hne) as [_ [Hb _]].
  fold r in Hb. rewrite Hb, sort_by_readiness_generic.
  pose proof (groups_in_range ms Hlen Hlv) as Hg.
  assert (Hr : Forall percent_in_range (map breakdown_of (group_by_role ms)))
    by (apply Forall_map; exact Hg).
  set (bs := map breakdown_of (group_by_role ms)) in *.
  pose proof (sort_perm compare_readiness bs) as P.
  assert (Hs : Forall percent_in_range (JsArray.sort compare_readiness bs))
    by (apply (Permutation_Forall (Permutation_sym P)); exact Hr).
  split; [exact Hs|].
  assert (Ha : ascending pct (JsArray.sort compare_readiness bs)).
  { apply sort_ascending. intros a b Ha Hb'. rewrite Forall_forall in Hr.
    apply compare_readiness_pct; auto. }
  unfold ascending in Ha. clear - Ha Hs.
  induction Ha as [|a l Hl IH Hal]; [constructor|].
  apply Forall_cons_iff in Hs. destruct Hs as [Ha' Hs].
  constructor; [now apply IH|].
  rewrite Forall_forall in *. intros b Hb.
  destruct Ha' as [za [Ea _]]. destruct (Hs b Hb) as [zb [Eb _]].
  specialize (Hal b Hb). unfold pct, no_greater in *.
  rewrite Ea, Eb in *. cbn. now apply Z.leb_le.
Qed.

End BreakdownOrderFacts.

(** ** The role breakdown partitions the members *)

Section BreakdownPartitionFacts.
Import JS Readiness.

Definition weight_sum (w : MemberMastery -> Z) (g : list MemberMastery) : Z :=
  fold_right (fun m acc => w m + acc) 0 g.

Definition groups_sum (w : MemberMastery -> Z) (gs : JsMap (list MemberMastery)) : Z :=
  fold_right (fun e acc => weight_sum w (snd e) + acc) 0 gs.

Definition sum_field (f : RoleBreakdown -> Z) (l : list RoleBreakdown) : Z :=
  fold_right (fun rb acc => f rb + acc) 0 l.

Lemma weight_sum_app (w : MemberMastery -> Z) (g h : list MemberMastery) :
  weight_sum w (g ++ h) = weight_sum w g + weight_sum w h.
Proof.
  unfold weight_sum. induction g as [|m g IH]; cbn [app fold_right]; lia.
Qed.

Lemma Map_set_sum (w : MemberMastery -> Z) (m : JsMap (list MemberMastery))
      (k : RoleType) (v : list MemberMastery) :
  groups_sum w (Map_set m k v)
  + weight_sum w (match Map_get m k with Some g => g | None => [] end)
  = groups_sum w m + weight_sum w v.
Proof.
  unfold groups_sum.
  induction m as [|[k' g] m IH]; cbn [Map_set Map_get fold_right snd].
  - unfold weight_sum at 2. cbn [fold_right]. lia.
  - destruct (String.eqb k' k); cbn [fold_right snd]; lia.
Qed.

Lemma group_by_role_sum (w : MemberMastery -> Z) (ms : list MemberMastery) :
  groups_sum w (group_by_role ms) = weight_sum w ms.
Proof.
  induction ms as [|m ms IH] using rev_ind; [reflexivity|].
  rewrite group_by_role_snoc, weight_sum_app.
  pose proof (Map_set_sum w (group_by_role ms) (role m)
                (match Map_get (group_by_role ms) (role m) with
                 | Some g => g
                 | None => []
                 end ++ [m])) as H.
  rewrite weight_sum_app in H. lia.
Qed.

Lemma sum_field_perm (f : RoleBreakdown -> Z) (l l' : list RoleBreakdown) :
  Permutation l l' -> sum_field f l = sum_field f l'.
Proof.
  unfold sum_field. induction 1; cbn [fold_right] in *; lia.
Qed.

Lemma sum_field_breakdown (f : RoleBreakdown -> Z) (w : MemberMastery -> Z)
      (gs : JsMap (list MemberMastery)) :
  (forall g, f (breakdown_of g) = weight_sum w (snd g)) ->
  sum_field f (map breakdown_of gs) = groups_sum w gs.
Proof.
  intros H. unfold sum_field, groups_sum in *.
  induction gs as [|g gs IH]; [reflexivity|].
  cbn [map fold_right]. now rewrite H, IH.
Qed.

Lemma length_weight (g : list MemberMastery) :
  Z.of_nat (List.length g) = weight_sum (fun _ => 1) g.
Proof.
  unfold weight_sum. induction g as [|m g IH]; [reflexivity|].
  cbn [List.length fold_right]. lia.
Qed.

Lemma filter_weight (p : MemberMastery -> bool) (g : list MemberMastery) :
  Z.of_nat (List.length (filter p g)) = weight_sum (fun m => if p m then 1 else 0) g.
Proof.
  unfold weight_sum. induction g as [|m g IH]; [reflexivity|].
  cbn [filter fold_right]. destruct (p m); cbn [List.length]; lia.
Qed.

(** X2. The breakdown partitions the members: the entries' counts add up
    to [totalMembers], their mastery totals to the sum of all levels, their
    ready counts to the number of members at level 3 or above, and no
    entry is empty. *)
Theorem roleBreakdown_partition
        (now : Z) (taskForceId taskForceName : string)
        (ms : list MemberMastery) (previousReadiness : option number) :
  let r := calculateTaskForceReadiness now taskForceId taskForceName ms
             previousReadiness in
  sum_field count (roleBreakdown r) = totalMembers r
  /\ totalMembers r = Z.of_nat (List.length ms)
  /\ sum_field totalMastery (roleBreakdown r) = sum_levels ms
  /\ sum_field readyCount (roleBreakdown r)
     = Z.of_nat (List.length (filter (fun m => mastery_level m >=? 3) ms))
  /\ Forall (fun rb => 1 <= count rb) (roleBreakdown r).
Proof.
  destruct ms as [|m0 ms0].
  - cbn. repeat split; constructor.
  - remember (m0 :: ms0) as ms eqn:E. intros r.
    assert (Hne : ms <> []) by (rewrite E; discriminate).
    destruct (calculateTaskForceReadiness_fields now taskForceId taskForceName
                ms previousReadiness Hne) as [_ [Hb Ht]].
    fold r in Hb, Ht. rewrite Hb, Ht.
    pose proof (sort_by_readiness_perm (map breakdown_of (group_by_role ms))) as P.
    rewrite !(sum_field_perm _ _ _ P).
    split; [|split; [reflexivity|split; [|split]]].
    + rewrite (sum_field_breakdown count (fun _ => 1)) by (intros g; apply length_weight).
      now rewrite group_by_role_sum, <- length_weight.
    + rewrite (sum_field_breakdown totalMastery mastery_level)
        by (intros g; cbn; apply reduce_mastery_sum).
      now rewrite group_by_role_sum.
    + rewrite (sum_field_breakdown readyCount
                 (fun m => if mastery_level m >=? 3 then 1 else 0))
        by (intros g; cbn; apply filter_weight).
      now rewrite group_by_role_sum, <- filter_weight.
    + apply (Permutation_Forall (Permutation_sym P)). apply Forall_map.
      apply Forall_forall. intros [k g] Hg. cbn.
      destruct (group_by_role_spec ms) as [_ [_ [_ [_ Hn]]]].
      specialize (Hn _ _ Hg). destruct g; [congruence | cbn [List.length]; lia].
Qed.

End BreakdownPartitionFacts.

(** ** Lowest and highest role *)

Section ExtremeRoleFacts.
Import JS Readiness.

Lemma first_min_spec {A : Type} (key : A -> Z) (l : list A) (m : A) :
  first_min key l = Some m ->
  In m l /\ forall x, In x l -> key m <= key x.
Proof.
  revert m. induction l as [|x l IH]; intros m; cbn [first_min]; [discriminate|].
  destruct (first_min key l) as [m'|] eqn:E.
  - destruct (IH m' eq_refl) as [Hin Hle].
    destruct (Z.leb_spec (key x) (key m')) as [L|L]; intros Hs; inversion Hs; subst.
    + split; [now left|]. intros y [<-|Hy]; [lia|]. specialize (Hle y Hy). lia.
    + split; [now right|]. intros y [<-|Hy]; [lia | now apply Hle].
  - intros Hs; inversion Hs; subst. destruct l as [|y l].
    + split; [now left|]. intros z [<-|[]]. lia.
    + cbn [first_min] in E. destruct (first_min key l); [destruct (_ <=? _)|];
        discriminate.
Qed.

Lemma first_min_some {A : Type} (key : A -> Z) (l : list A) :
  l <> [] -> exists m, first_min key l = Some m.
Proof.
  destruct l as [|x l]; [congruence|]. intros _. cbn [first_min].
  destruct (first_min key l) as [m|]; [destruct (_ <=? _)|]; eauto.
Qed.

Definition has_int_percent (g : RoleType * list MemberMastery) : Prop :=
  exists z, readinessPercent (breakdown_of g) = Int z.

Lemma tally_lowest (gs : JsMap (list MemberMastery)) :
  forall (t : Tally) (L : Z),
    lowestReadiness t = Int L ->
    Forall has_int_percent gs ->
    let t' := fold_left tally_role gs t in
    (lowestReadiness t', t_lowestRole t')
    = match first_min pct (map breakdown_of gs) with
      | Some m => if pct m <? L then (Int (pct m), Some (rb_role m))
                  else (Int L, t_lowestRole t)
      | None => (Int L, t_lowestRole t)
      end.
Proof.
  induction gs as [|[k g] gs IH]; intros t L HL Hall; cbn [fold_left map first_min].
  - now rewrite HL.
  - apply Forall_cons_iff in Hall. destruct Hall as [[z Hz] Hall].
    assert (Pz : pct (breakdown_of (k, g)) = z) by (unfold pct; now rewrite Hz).
    set (t1 := tally_role t (k, g)).
    assert (H1 : lowestReadiness t1 = Int (if z <? L then z else L)
                 /\ t_lowestRole t1 = if z <? L then Some k else t_lowestRole t).
    { unfold t1, tally_role. cbn [lowestReadiness t_lowestRole].
      change (Math_round _) with (readinessPercent (breakdown_of (k, g))).
      rewrite Hz, HL. cbn [ltb]. destruct (z <? L); auto. }
    destruct H1 as [H1 H2].
    rewrite (IH t1 _ H1 Hall). rewrite H2, Pz.
    change (rb_role (breakdown_of (k, g))) with k.
    destruct (first_min pct (map breakdown_of gs)) as [m|].
    + destruct (Z.ltb_spec z L), (Z.leb_spec z (pct m)); rewrite ?Pz;
        repeat match goal with
          | |- context [?a <? ?b] => destruct (Z.ltb_spec a b)
          end; try lia; try reflexivity.
    + rewrite Pz. destruct (Z.ltb_spec z L); reflexivity.
Qed.

Lemma tally_highest (gs : JsMap (list MemberMastery)) :
  forall (t : Tally) (H : Z),
    highestReadiness t = Int H ->
    Forall has_int_percent gs ->
    let t' := fold_left tally_role gs t in
    (highestReadiness t', t_highestRole t')
    = match first_min (fun rb => - pct rb) (map breakdown_of gs) with
      | Some m => if H <? pct m then (Int (pct m), Some (rb_role m))
                  else (Int H, t_highestRole t)
      | None => (Int H, t_highestRole t)
      end.
Proof.
  induction gs as [|[k g] gs IH]; intros t H HH Hall; cbn [fold_left map first_min].
  - now rewrite HH.
  - apply Forall_cons_iff in Hall. destruct Hall as [[z Hz] Hall].
    assert (Pz : pct (breakdown_of (k, g)) = z) by (unfold pct; now rewrite Hz).
    set (t1 := tally_role t (k, g)).
    assert (H1 : highestReadiness t1 = Int (if H <? z then z else H)
                 /\ t_highestRole t1 = if H <? z then Some k else t_highestRole t).
    { unfold t1, tally_role. cbn [highestReadiness t_highestRole].
      change (Math_round _) with (readinessPercent (breakdown_of (k, g))).
      rewrite Hz, HH. cbn [gtb ltb]. destruct (H <? z); auto. }
    destruct H1 as [H1 H2].
    rewrite (IH t1 _ H1 Hall). rewrite H2, Pz.
    change (rb_role (breakdown_of (k, g))) with k.
    destruct (first_min (fun rb => - pct rb) (map breakdown_of gs)) as [m|].
    + destruct (Z.ltb_spec H z), (Z.leb_spec (- z) (- pct m)); rewrite ?Pz;
        repeat match goal with
          | |- context [?a <? ?b] => destruct (Z.ltb_spec a b)
          end; try lia; try reflexivity.
    + rewrite Pz. destruct (Z.ltb_spec H z); reflexivity.
Qed.

Lemma calculateTaskForceReadiness_roles
      (now : Z) (taskForceId taskForceName : string)
      (ms : list MemberMastery) (previousReadiness : option number) :
  ms <> [] ->
  let r := calculateTaskForceReadiness now taskForceId taskForceName ms
             previousReadiness in
  lowestRole r = t_lowestRole (tally_roles (group_by_role ms))
  /\ highestRole r = t_highestRole (tally_roles (group_by_role ms)).
Proof.
  intros H. destruct ms as [|m ms]; [congruence|].
  unfold calculateTaskForceReadiness.
  destruct previousReadiness; cbn [lowestRole highestRole]; split; reflexivity.
Qed.

(** X3. For a non-empty member list with levels between 1 and 4 both
    roles are set: [lowestRole] is the role of the first entry of the
    sorted breakdown, no entry has a smaller percentage than that one, and
    [highestRole] is the role of an entry that no entry exceeds. *)
Theorem lowest_and_highest_role
        (now : Z) (taskForceId taskForceName : string)
        (ms : list MemberMastery) (previousReadiness : option number) :
  ms <> [] ->
  Z.of_nat (List.length ms) < 2 ^ 32 ->
  Forall (fun m => 1 <= mastery_level m <= 4) ms ->
  let r := calculateTaskForceReadiness now taskForceId taskForceName ms
             previousReadiness in
  exists lo hi,
    hd_error (roleBreakdown r) = Some lo
    /\ lowestRole r = Some (rb_role lo)
    /\ In hi (roleBreakdown r)
    /\ highestRole r = Some (rb_role hi)
    /\ forall rb, In rb (roleBreakdown r) -> no_greater lo rb /\ no_greater rb hi.
Proof.
  intros Hne Hlen Hlv r.
  destruct (calculateTaskForceReadiness_fields now taskForceId taskForceName
              ms previousReadiness Hne) as [_ [Hb _]].
  destruct (calculateTaskForceReadiness_roles now taskForceId taskForceName
              ms previousReadiness Hne) as [Hlo Hhi].
  fold r in Hb, Hlo, Hhi. rewrite Hb, Hlo, Hhi, sort_by_readiness_generic.
  clear Hb Hlo Hhi r.
  pose proof (groups_in_range ms Hlen Hlv) as Hg.
  assert (Hint : Forall has_int_percent (group_by_role ms)).
  { apply (Forall_impl _ (P := fun g => percent_in_range (breakdown_of g)));
      [|exact Hg]. intros g [z [Hz _]]. now exists z. }
  assert (Hr : Forall percent_in_range (map breakdown_of (group_by_role ms)))
    by (apply Forall_map; exact Hg).
  assert (Gne : group_by_role ms <> []).
  { destruct (group_by_role_spec ms) as [_ [_ [_ [Hkey _]]]].
    destruct ms as [|m ms']; [congruence|].
    specialize (Hkey m (or_introl eq_refl)).
    destruct (group_by_role (m :: ms')); [destruct Hkey | discriminate]. }
  set (bs := map breakdown_of (group_by_role ms)) in *.
  assert (Bne : bs <> []).
  { unfold bs. destruct (group_by_role ms); [congruence | discriminate]. }
  destruct (first_min_some pct bs Bne) as [lo Elo].
  destruct (first_min_some (fun rb => - pct rb) bs Bne) as [hi Ehi].
  destruct (first_min_spec _ _ _ Elo) as [Ilo Mlo].
  destruct (first_min_spec _ _ _ Ehi) as [Ihi Mhi].
  pose proof (sort_perm compare_readiness bs) as P.
  rewrite Forall_forall in Hr.
  exists lo, hi.
  unfold tally_roles.
  set (init := {| t_roleBreakdown := []; lowestReadiness := Int 101;
                  highestReadiness := Int (-1);
                  t_lowestRole := None; t_highestRole := None |}).
  pose proof (tally_lowest (group_by_role ms) init 101 eq_refl Hint) as TL.
  pose proof (tally_highest (group_by_role ms) init (-1) eq_refl Hint) as TH.
  cbn zeta in TL, TH. fold bs in TL, TH. rewrite Elo in TL. rewrite Ehi in TH.
  destruct (Hr lo Ilo) as [zl [El Rl]]. destruct (Hr hi Ihi) as [zh [Eh Rh]].
  assert (Pl : pct lo = zl) by (unfold pct; now rewrite El).
  assert (Ph : pct hi = zh) by (unfold pct; now rewrite Eh).
  rewrite Pl in TL. rewrite Ph in TH.
  replace (zl <? 101) with true in TL by (symmetry; apply Z.ltb_lt; lia).
  replace (-1 <? zh) with true in TH by (symmetry; apply Z.ltb_lt; lia).
  assert (TLr : t_lowestRole (fold_left tally_role (group_by_role ms) init)
                = Some (rb_role lo)) by (inversion TL; reflexivity).
  assert (THr : t_highestRole (fold_left tally_role (group_by_role ms) init)
                = Some (rb_role hi)) by (inversion TH; reflexivity).
  split; [|split; [|split; [|split]]].
  - rewrite (sort_head compare_readiness pct); [exact Elo|].
    intros a b Ha Hb. apply compare_readiness_pct; auto.
  - exact TLr.
  - apply (Permutation_in _ (Permutation_sym P)). exact Ihi.
  - exact THr.
  - intros rb Hrb. apply (Permutation_in _ P) in Hrb.
    destruct (Hr rb Hrb) as [z [Ez _]].
    specialize (Mlo rb Hrb). specialize (Mhi rb Hrb). unfold pct in Mlo, Mhi.
    rewrite El, Ez in Mlo. rewrite Eh, Ez in Mhi.
    unfold no_greater. rewrite El, Eh, Ez. cbn [geb].
    split; apply Z.leb_le; lia.
Qed.

Lemma roleBreakdown_ascending_witness :
  let r := calculateTaskForceReadiness PROGRAM_START "tf-1" "Alpha" squad None in
  squad <> []
  /\ Z.of_nat (List.length squad) < 2 ^ 32
  /\ Forall (fun m => 1 <= mastery_level m <= 4) squad
  /\ Forall percent_in_range (roleBreakdown r)
  /\ StronglySorted no_greater (roleBreakdown r).
Proof.
  intros r.
  assert (Hne : squad <> []) by discriminate.
  assert (Hlen : Z.of_nat (List.length squad) < 2 ^ 32) by (cbn; lia).
  assert (Hlv : Forall (fun m => 1 <= mastery_level m <= 4) squad)
    by (repeat constructor; cbn; lia).
  split; [exact Hne|]. split; [exact Hlen|]. split; [exact Hlv|].
  exact (roleBreakdown_ascending PROGRAM_START "tf-1" "Alpha" squad None
           Hne Hlen Hlv).
Defined.

Lemma lowest_and_highest_role_witness :
  let r := calculateTaskForceReadiness PROGRAM_START "tf-1" "Alpha" squad None in
  squad <> []
  /\ Z.of_nat (List.length squad) < 2 ^ 32
  /\ Forall (fun m => 1 <= mastery_level m <= 4) squad
  /\ exists lo hi,
      hd_error (roleBreakdown r) = Some lo
      /\ lowestRole r = Some (rb_role lo)
      /\ In hi (roleBreakdown r)
      /\ highestRole r = Some (rb_role hi)
      /\ forall rb, In rb (roleBreakdown r) -> no_greater lo rb /\ no_greater rb hi.
Proof.
  intros r.
  assert (Hne : squad <> []) by discriminate.
  assert (Hlen : Z.of_nat (List.length squad) < 2 ^ 32) by (cbn; lia).
  assert (Hlv : Forall (fun m => 1 <= mastery_level m <= 4) squad)
    by (repeat constructor; cbn; lia).
  split; [exact Hne|]. split; [exact Hlen|]. split; [exact Hlv|].
  exact (lowest_and_highest_role PROGRAM_START "tf-1" "Alpha" squad None
           Hne Hlen Hlv).
Defined.

End ExtremeRoleFacts.

(** ** Bounded quotients *)

Section QuotientFacts.
Import JS.

(** The quotient of two integers below [2^53] with [a <= N * b] is a double
    that is at most [N]. *)
Lemma fdiv_le (N a b : Z) :
  0 < N < 2 ^ 53 ->
  0 < a <= N * b -> a < 2 ^ 53 -> 0 < b < 2 ^ 53 ->
  bounded_by N (fdiv (Z2SF a) (Z2SF b)).
Proof.
  intros HN [Ha Hab] Ha53 [Hb0 Hb].
  destruct (Z2SF_exact a) as [mx [Ex [Vx Dx]]]; [lia|].
  destruct (Z2SF_exact b) as [my [Ey [Vy Dy]]]; [lia|].
  assert (Da : 1 <= Zdigits2 a <= 53)
    by (split; [rewrite Zdigits2_log2 by lia; pose proof (Z.log2_nonneg a); lia
               | apply Zdigits2_lt_pow2; lia]).
  assert (Db : 1 <= Zdigits2 b <= 53)
    by (split; [rewrite Zdigits2_log2 by lia; pose proof (Z.log2_nonneg b); lia
               | apply Zdigits2_lt_pow2; lia]).
  assert (Dn : 1 <= Zdigits2 N <= 53)
    by (split; [rewrite Zdigits2_log2 by lia; pose proof (Z.log2_nonneg N); lia
               | apply Zdigits2_lt_pow2; lia]).
  (* [a <= N * b < 2^(dN + db)] bounds the digits of [a] *)
  assert (Dab : Zdigits2 a <= Zdigits2 N + Zdigits2 b).
  { apply Zdigits2_lt_pow2; [|lia]. split; [lia|].
    rewrite Z.pow_add_r by lia.
    assert (N < 2 ^ Zdigits2 N).
    { rewrite Zdigits2_log2 by lia. apply Z.log2_spec. lia. }
    assert (b < 2 ^ Zdigits2 b).
    { rewrite Zdigits2_log2 by lia. apply Z.log2_spec. lia. }
    nia. }
  set (da := Zdigits2 a) in *. set (db := Zdigits2 b) in *.
  set (dn := Zdigits2 N) in *.
  rewrite Ex, Ey. unfold fdiv, SFdiv, SFdiv_core_binary.
  rewrite Dx, Dy. cbn [xorb].
  replace (53 + (da - 53) - (53 + (db - 53))) with (da - db) by lia.
  rewrite fexp_eq.
  replace (Z.min (Z.max (da - db - 53) (-1074)) (da - 53 - (db - 53)))
    with (da - db - 53) by lia.
  replace (da - 53 - (db - 53) - (da - db - 53)) with 53 by lia.
  rewrite Z.shiftl_mul_pow2 by lia.
  set (m' := Z.pos mx * 2 ^ 53).
  pose proof (Z.div_eucl_eq m' (Z.pos my) ltac:(lia)) as Hdm.
  pose proof (Z.mod_pos_bound m' (Z.pos my) ltac:(lia)) as Hr.
  unfold Z.modulo, Z.div in Hdm, Hr.
  destruct (Z.div_eucl m' (Z.pos my)) as [q r]. cbn [fst snd] in Hdm, Hr.
  set (g := 53 + db - da).
  assert (Hg : 53 - dn <= g) by (unfold g; lia).
  assert (Pa : 0 < 2 ^ (53 - da)) by (apply Z.pow_pos_nonneg; lia).
  assert (Pb : 0 < 2 ^ (53 - db)) by (apply Z.pow_pos_nonneg; lia).
  assert (Pg : 0 < 2 ^ g) by (apply Z.pow_pos_nonneg; lia).
  assert (Hm' : m' <= Z.pos my * (N * 2 ^ g)).
  { assert (E : 2 ^ (53 - da) * 2 ^ 53 = 2 ^ (53 - db) * 2 ^ g)
      by (rewrite <- !Z.pow_add_r by lia; f_equal; unfold g; lia).
    unfold m'. rewrite Vx, Vy, <- Z.mul_assoc, E.
    remember (2 ^ (53 - db)) as X eqn:EX. remember (2 ^ g) as Y eqn:EY.
    clear - Hab Ha Hb0 HN Pb Pg.
    assert (0 < X * Y) by nia. nia. }
  assert (Hq0 : 0 <= q) by nia.
  assert (Hq : q < N * 2 ^ g \/ (q = N * 2 ^ g /\ r = 0)) by nia.
  assert (Dq : Zdigits2 q <= dn + g).
  { unfold dn. rewrite <- (Zdigits2_mul_pow2 N g) by lia.
    apply Zdigits2_mono. lia. }
  set (n := Z.max 0 (fexp prec emax (Zdigits2 q + (da - db - 53)) - (da - db - 53))).
  assert (Hn : 0 <= n <= g + dn - 53) by (unfold n, g in *; rewrite fexp_eq; lia).
  assert (Pn : 2 ^ g = 2 ^ (g - n) * 2 ^ n)
    by (rewrite <- Z.pow_add_r by lia; f_equal; lia).
  destruct (binary_round_aux_le q (da - db - 53) (N * 2 ^ (g - n))
              (new_location (Z.pos my) r) Hq0)
    as [m2 [e2 [-> [H0 [He Hv]]]]].
  { fold n. rewrite <- Z.mul_assoc, <- Pn.
    destruct Hq as [Hq|[Hq ->]]; [left; lia|].
    right. split; [lia | apply new_location_exact]. }
  fold n in He, Hv.
  rewrite Zdigits2_mul_pow2, fexp_eq in He by lia. fold dn in He.
  apply (finish_bounded N m2 (da - db - 53 + n) e2); try lia.
  replace (- (da - db - 53 + n)) with (g - n) by (unfold g; lia). lia.
Qed.

Lemma fdiv_zero (b : Z) :
  0 < b < 2 ^ 53 -> fdiv (Z2SF 0) (Z2SF b) = S754_zero false.
Proof.
  intros Hb. destruct (Z2SF_exact b Hb) as [my [Ey _]]. now rewrite Ey.
Qed.

End QuotientFacts.

(** ** Program day, labels and recommendations *)

Section ReportFacts.
Import JS Readiness ReadinessReport.

Definition DAY : Z := 86400000.

Lemma program_day_quotient (now : Z) :
  let q := (now - PROGRAM_START) / (1000 * 60 * 60 * 24) in
  PROGRAM_START + q * DAY <= now < PROGRAM_START + (q + 1) * DAY.
Proof.
  intros q. subst q. change (1000 * 60 * 60 * 24) with DAY. unfold DAY.
  pose proof (Z.mul_div_le (now - PROGRAM_START) 86400000 ltac:(lia)).
  pose proof (Z.mul_succ_div_gt (now - PROGRAM_START) 86400000 ltac:(lia)).
  lia.
Qed.

(** X4. The program day lies between 0 and 25; it is 0 exactly before the
    program start, [d] (for [d] below 25) exactly during the [d]-th
    24-hour window after the start, and 25 from the 25th window on. *)
Theorem getCurrentProgramDay_window (now : Z) :
  0 <= getCurrentProgramDay now <= 25
  /\ (getCurrentProgramDay now = 0 <-> now < PROGRAM_START)
  /\ (forall d, 1 <= d < 25 ->
        (getCurrentProgramDay now = d
         <-> PROGRAM_START + (d - 1) * DAY <= now < PROGRAM_START + d * DAY))
  /\ (getCurrentProgramDay now = 25 <-> PROGRAM_START + 24 * DAY <= now).
Proof.
  pose proof (program_day_quotient now) as Q. cbn zeta in Q.
  unfold getCurrentProgramDay.
  set (q := (now - PROGRAM_START) / (1000 * 60 * 60 * 24)) in *.
  unfold DAY in *.
  destruct (Z.ltb_spec q 0) as [L|L].
  - repeat split; try lia; intros; nia.
  - repeat split; try lia; intros; try nia.
Qed.

Lemma getCurrentProgramDay_window_witness :
  1 <= 15 < 25
  /\ (getCurrentProgramDay (PROGRAM_START + 14 * DAY + 3600000) = 15
      <-> PROGRAM_START + (15 - 1) * DAY <= PROGRAM_START + 14 * DAY + 3600000
          < PROGRAM_START + 15 * DAY).
Proof.
  assert (H : 1 <= 15 < 25) by lia.
  split; [exact H|].
  exact (proj1 (proj2 (proj2 (getCurrentProgramDay_window
                                (PROGRAM_START + 14 * DAY + 3600000)))) 15 H).
Defined.

Lemma geb_weaken (x : number) (a b : Z) :
  geb x (Int a) = true -> b <= a -> geb x (Int b) = true.
Proof.
  destruct x as [z| |s]; cbn [geb]; intros H Hab; try assumption.
  apply Z.leb_le in H. apply Z.leb_le. lia.
Qed.

(** X5. A task force that is on track once the program has started is
    never labelled "Mobilizing"; from the eleventh day on it is at least
    "Field Ready", and from the twenty-first day on "Mission Ready". *)
Theorem on_track_label
        (now : Z) (taskForceId taskForceName : string)
        (ms : list MemberMastery) (previousReadiness : option number) :
  let r := calculateTaskForceReadiness now taskForceId taskForceName ms
             previousReadiness in
  let l := label (getReadinessLabel (overallReadiness r)) in
  isOnTrack r = true ->
  PROGRAM_START <= now ->
  l <> "Mobilizing"%string
  /\ (PROGRAM_START + 10 * DAY <= now ->
      l = "Field Ready"%string \/ l = "Mission Ready"%string)
  /\ (PROGRAM_START + 20 * DAY <= now -> l = "Mission Ready"%string).
Proof.
  intros r l Hon Hstart.
  assert (Hge : geb (overallReadiness r)
                    (Int (getExpectedReadiness (getCurrentProgramDay now))) = true).
  { subst r. destruct ms as [|m ms]; [discriminate Hon|].
    unfold calculateTaskForceReadiness in *.
    destruct previousReadiness; cbn [isOnTrack overallReadiness] in *; exact Hon. }
  pose proof (getCurrentProgramDay_started now Hstart) as Hd.
  pose proof (program_day_quotient now) as Q. cbn zeta in Q.
  assert (Day : forall k, 0 <= k < 25 -> PROGRAM_START + k * DAY <= now ->
                          k + 1 <= getCurrentProgramDay now).
  { intros k Hk Hnow. unfold getCurrentProgramDay.
    set (q := (now - PROGRAM_START) / (1000 * 60 * 60 * 24)) in *.
    unfold DAY in *. destruct (Z.ltb_spec q 0); nia. }
  subst l. unfold getReadinessLabel.
  split; [|split].
  - pose proof (getExpectedReadiness_started _ (proj1 Hd)) as Ht.
    rewrite (geb_weaken _ _ 25 Hge Ht).
    repeat match goal with
      | |- context [if ?c then _ else _] => destruct c
      end; cbn [label]; discriminate.
  - intros H10. specialize (Day 10 ltac:(lia) H10).
    assert (Ht : 75 <= getExpectedReadiness (getCurrentProgramDay now)).
    { unfold getExpectedReadiness.
      repeat match goal with
        | |- context [?a <=? ?b] => destruct (Z.leb_spec a b)
        | |- context [?a >=? ?b] =>
            let E := fresh "E" in
            destruct (a >=? b) eqn:E;
            [apply Z.geb_le in E | rewrite Z.geb_leb in E; apply Z.leb_gt in E]
        end; lia. }
    rewrite (geb_weaken _ _ 75 Hge Ht).
    destruct (geb (overallReadiness r) (Int 90)); cbn [label]; auto.
  - intros H20. specialize (Day 20 ltac:(lia) H20).
    assert (Ht : 90 <= getExpectedReadiness (getCurrentProgramDay now)).
    { unfold getExpectedReadiness.
      repeat match goal with
        | |- context [?a <=? ?b] => destruct (Z.leb_spec a b)
        | |- context [?a >=? ?b] =>
            let E := fresh "E" in
            destruct (a >=? b) eqn:E;
            [apply Z.geb_le in E | rewrite Z.geb_leb in E; apply Z.leb_gt in E]
        end; lia. }
    now rewrite (geb_weaken _ _ 90 Hge Ht).
Qed.

(** Day 15 of the program, two members at level 3: 75 %, on track. *)
Lemma on_track_label_witness :
  let now := PROGRAM_START + 14 * DAY in
  let r := calculateTaskForceReadiness now "tf-1" "Alpha"
             [member "p1" "FDE" 3; member "p2" "AI-SE" 3] None in
  isOnTrack r = true /\ PROGRAM_START <= now
  /\ label (getReadinessLabel (overallReadiness r)) <> "Mobilizing"%string.
Proof.
  intros now r.
  assert (H1 : isOnTrack r = true) by (vm_compute; reflexivity).
  assert (H2 : PROGRAM_START <= now) by (vm_compute; discriminate).
  split; [exact H1|]. split; [exact H2|].
  exact (proj1 (on_track_label now "tf-1" "Alpha"
                  [member "p1" "FDE" 3; member "p2" "AI-SE" 3] None H1 H2)).
Defined.

End ReportFacts.

(** ** Recommendations for a task force *)

Section RecommendationFacts.
Import JS Readiness ReadinessReport.

Lemma push_if_keeps (c : bool) (s x : string) (l : list string) :
  In x l -> In x (push_if c s l).
Proof. unfold push_if. destruct c; [intros; apply in_or_app; now left | auto]. Qed.

Lemma push_if_length (c : bool) (s : string) (l : list string) :
  List.length (push_if c s l) = (List.length l + if c then 1 else 0)%nat.
Proof.
  unfold push_if. destruct c; [rewrite length_app; reflexivity | lia].
Qed.

(** The role the tally ends with is the key of a group. *)
Lemma lowestRole_is_group
      (now : Z) (taskForceId taskForceName : string)
      (ms : list MemberMastery) (previousReadiness : option number) :
  ms <> [] ->
  Z.of_nat (List.length ms) < 2 ^ 32 ->
  Forall (fun m => 1 <= mastery_level m <= 4) ms ->
  exists k g,
    In (k, g) (group_by_role ms)
    /\ lowestRole (calculateTaskForceReadiness now taskForceId taskForceName ms
                     previousReadiness) = Some k.
Proof.
  intros Hne Hlen Hlv.
  destruct (calculateTaskForceReadiness_roles now taskForceId taskForceName
              ms previousReadiness Hne) as [Hlo _].
  rewrite Hlo. clear Hlo.
  pose proof (groups_in_range ms Hlen Hlv) as Hg.
  assert (Hint : Forall has_int_percent (group_by_role ms)).
  { apply (Forall_impl _ (P := fun g => percent_in_range (breakdown_of g)));
      [|exact Hg]. intros g [z [Hz _]]. now exists z. }
  assert (Bne : map breakdown_of (group_by_role ms) <> []).
  { destruct (group_by_role_spec ms) as [_ [_ [_ [Hkey _]]]].
    destruct ms as [|m ms']; [congruence|].
    specialize (Hkey m (or_introl eq_refl)).
    destruct (group_by_role (m :: ms')); [destruct Hkey | discriminate]. }
  destruct (first_min_some pct _ Bne) as [lo Elo].
  destruct (first_min_spec _ _ _ Elo) as [Ilo _].
  unfold tally_roles.
  set (init := {| t_roleBreakdown := []; lowestReadiness := Int 101;
                  highestReadiness := Int (-1);
                  t_lowestRole := None; t_highestRole := None |}).
  pose proof (tally_lowest (group_by_role ms) init 101 eq_refl Hint) as TL.
  cbn zeta in TL. rewrite Elo in TL.
  apply in_map_iff in Ilo. destruct Ilo as [[k g] [E Hkg]].
  rewrite Forall_forall in Hg. destruct (Hg _ Hkg) as [z [Hz Rz]].
  assert (Pl : pct lo = z) by (subst lo; unfold pct; now rewrite Hz).
  rewrite Pl in TL.
  replace (z <? 101) with true in TL by (symmetry; apply Z.ltb_lt; lia).
  exists k, g. split; [exact Hkg|].
  assert (H2 : t_lowestRole (fold_left tally_role (group_by_role ms) init)
               = Some (rb_role lo)) by (inversion TL; reflexivity).
  rewrite H2. now subst lo.
Qed.

(** X6. Every non-empty task force whose members have a role and a level
    between 1 and 4 receives the recommendation to focus on its lowest
    role, also when it is on track and fully trained; a task force that is
    not on track receives the behind-target line first; at most four
    recommendations are given. *)
Theorem recommendations_name_lowest_role
        (now : Z) (taskForceId taskForceName : string)
        (ms : list MemberMastery) (previousReadiness : option number) :
  ms <> [] ->
  Z.of_nat (List.length ms) < 2 ^ 32 ->
  Forall (fun m => 1 <= mastery_level m <= 4) ms ->
  Forall (fun m => role m <> EmptyString) ms ->
  let r := calculateTaskForceReadiness now taskForceId taskForceName ms
             previousReadiness in
  let recs := getReadinessRecommendations r in
  (exists k, lowestRole r = Some k /\ In (focus_on k) recs)
  /\ (isOnTrack r = false -> hd_error recs = Some (behind_target r))
  /\ (List.length recs <= 4)%nat.
Proof.
  intros Hne Hlen Hlv Hrole r recs.
  destruct (lowestRole_is_group now taskForceId taskForceName ms
              previousReadiness Hne Hlen Hlv) as [k [g [Hkg Hlo]]].
  fold r in Hlo.
  assert (Hk : k <> EmptyString).
  { destruct (group_by_role_spec ms) as [_ [Hin [_ [_ Hn]]]].
    pose proof (Hn _ _ Hkg) as Hg0. pose proof (Hin _ _ Hkg) as E. subst g.
    destruct (members_of_role k ms) as [|m g'] eqn:Em; [congruence|].
    assert (Hm : In m (members_of_role k ms)) by (rewrite Em; now left).
    apply filter_In in Hm. destruct Hm as [Hm Hr].
    apply String.eqb_eq in Hr. rewrite Forall_forall in Hrole.
    rewrite <- Hr. now apply Hrole. }
  assert (Ht : JsArray.truthy (lowestRole r) = true).
  { rewrite Hlo. cbn. destruct (String.eqb_spec k EmptyString); [contradiction | reflexivity]. }
  split; [|split].
  - exists k. split; [exact Hlo|].
    subst recs. unfold getReadinessRecommendations. rewrite Ht, Hlo.
    do 2 apply push_if_keeps. unfold push_if at 1.
    apply in_or_app. right. now left.
  - intros Hoff. subst recs. unfold getReadinessRecommendations.
    rewrite Hoff, Ht. cbn [negb]. unfold push_if.
    repeat match goal with
      | |- context [if ?c then _ else _] => destruct c
      end; reflexivity.
  - subst recs. unfold getReadinessRecommendations.
    rewrite !push_if_length. cbn [List.length].
    repeat match goal with
      | |- context [if ?c then _ else _] => destruct c
      end; lia.
Qed.

(** A task force that is on track and whose members are all at level 4
    still gets one recommendation. *)
Definition veterans : list MemberMastery :=
  [member "p1" "FDE" 4; member "p2" "AI-SE" 4].

Lemma recommendations_name_lowest_role_witness :
  let r := calculateTaskForceReadiness PROGRAM_START "tf-1" "Alpha" veterans None in
  veterans <> []
  /\ Z.of_nat (List.length veterans) < 2 ^ 32
  /\ Forall (fun m => 1 <= mastery_level m <= 4) veterans
  /\ Forall (fun m => role m <> EmptyString) veterans
  /\ isOnTrack r = true
  /\ (exists k, lowestRole r = Some k
                /\ In (focus_on k) (getReadinessRecommendations r)).
Proof.
  intros r.
  assert (Hne : veterans <> []) by discriminate.
  assert (Hlen : Z.of_nat (List.length veterans) < 2 ^ 32) by (cbn; lia).
  assert (Hlv : Forall (fun m => 1 <= mastery_level m <= 4) veterans)
    by (repeat constructor; cbn; lia).
  assert (Hro : Forall (fun m => role m <> EmptyString) veterans)
    by (repeat constructor; discriminate).
  split; [exact Hne|]. split; [exact Hlen|]. split; [exact Hlv|].
  split; [exact Hro|]. split; [vm_compute; reflexivity|].
  exact (proj1 (recommendations_name_lowest_role PROGRAM_START "tf-1" "Alpha"
                  veterans None Hne Hlen Hlv Hro)).
Defined.

End RecommendationFacts.

(** ** Range of the program-wide readiness *)

Section ProgramRangeFacts.
Import JS Readiness.

Definition well_formed (tf : TaskForceReadiness) : Prop :=
  0 <= totalMembers tf
  /\ exists z, overallReadiness tf = Int z /\ 0 <= z <= 100.

Lemma weighted_sum_range (tfs : list TaskForceReadiness) :
  Forall well_formed tfs ->
  0 <= sum_members tfs
  /\ exists w, weighted_sum tfs = Int w /\ 0 <= w <= 100 * sum_members tfs.
Proof.
  induction 1 as [|tf tfs [Hn [z [Hz Rz]]] _ [IHn [w [Hw Rw]]]].
  - cbn. split; [lia|]. exists 0. split; [reflexivity | lia].
  - cbn [sum_members weighted_sum fold_right].
    fold (sum_members tfs) (weighted_sum tfs). rewrite Hz, Hw. cbn [mul add].
    split; [lia|]. eexists. split; [reflexivity | nia].
Qed.

(** X7. When every task force has a readiness between 0 and 100 and a
    non-negative member count, and there are members at all, the
    program-wide readiness is an integer between 0 and 100. *)
Theorem program_readiness_range (tfs : list TaskForceReadiness) :
  Forall well_formed tfs ->
  0 < sum_members tfs < 2 ^ 32 ->
  exists z,
    p_overallReadiness (calculateOverallProgramReadiness tfs) = Int z
    /\ 0 <= z <= 100.
Proof.
  intros Hwf [Hpos Hlt].
  destruct (weighted_sum_range tfs Hwf) as [_ [w [Hw Rw]]].
  destruct tfs as [|tf tfs]; [cbn in Hpos; lia|].
  unfold calculateOverallProgramReadiness. cbn [p_overallReadiness].
  rewrite fold_left_weighted, fold_left_members, add_0_l, Hw.
  cbn [Z.add]. unfold div. cbn [to_float].
  apply Math_round_bounded; [lia|].
  destruct (Z.eq_dec w 0) as [->|Nw].
  - rewrite fdiv_zero by lia. exact I.
  - apply fdiv_le; lia.
Qed.

Lemma program_readiness_range_witness :
  Forall well_formed program
  /\ 0 < sum_members program < 2 ^ 32
  /\ exists z,
      p_overallReadiness (calculateOverallProgramReadiness program) = Int z
      /\ 0 <= z <= 100.
Proof.
  assert (Hwf : Forall well_formed program).
  { repeat constructor; try (cbn; lia).
    - exists 57. split; [vm_compute; reflexivity | lia].
    - exists 75. split; [vm_compute; reflexivity | lia]. }
  assert (Hs : 0 < sum_members program < 2 ^ 32) by (cbn; lia).
  split; [exact Hwf|]. split; [exact Hs|].
  exact (program_readiness_range program Hwf Hs).
Defined.

End ProgramRangeFacts.

(** ** Progress towards the next level *)

Section ProgressFacts.
Import JS Mastery MasteryProgress.

(** [Math.round((completed / total) * 100)] *)
Definition percentage (c n : Z) : number :=
  Math_round (fmul (fdiv (Z2SF c) (Z2SF n)) (Z2SF 100)).

Lemma percentage_values :
  percentage 0 2 = Int 0 /\ percentage 1 2 = Int 50 /\ percentage 2 2 = Int 100
  /\ percentage 0 3 = Int 0 /\ percentage 1 3 = Int 33
  /\ percentage 2 3 = Int 67 /\ percentage 3 3 = Int 100.
Proof. vm_compute. repeat split. Qed.

Ltac progress_cases :=
  repeat match goal with
    | |- context [?a >=? ?b] =>
        let E := fresh "E" in
        destruct (a >=? b) eqn:E;
        [apply Z.geb_le in E | rewrite Z.geb_leb in E; apply Z.leb_gt in E]
    end.

Lemma useMasteryProgress_on_ladder (m : MasteryRecord) (t : Threshold) :
  mastery_level m < 4 ->
  threshold_at (mastery_level m + 1) = Some t ->
  exists p,
    useMasteryProgress (Some m) = Returns p
    /\ currentLevel p = mastery_level m
    /\ nextLevel p = Some (mastery_level m + 1)
    /\ overallProgress p
       = percentage
           (Z.of_nat (List.length (filter completed (requirements p))))
           (Z.of_nat (List.length (requirements p)))
    /\ requirements p
       = push_requirement "Peer Assists" (peer_assists_given m)
           (peerAssistsGiven t)
           (push_requirement "Artifacts Submitted" (artifacts_submitted m)
              (artifactsSubmitted t)
              (push_requirement "AI Tutor Sessions" (ai_tutor_sessions m)
                 (aiTutorSessions t)
                 (push_requirement "Days Completed" (days_completed m)
                    (Some (daysCompleted t)) []))).
Proof.
  intros Hl Ht. unfold useMasteryProgress.
  destruct (Z.geb_spec (mastery_level m) 4) as [L|_]; [lia|].
  rewrite Z.min_l by lia. rewrite Ht.
  eexists. split; [reflexivity|]. cbn [currentLevel nextLevel overallProgress requirements].
  repeat split.
Qed.

(** X8. For a record at level 1, 2 or 3 the hook returns the progress
    towards the next level; the percentage is one of 0, 33, 50, 67 and 100,
    it is 100 exactly when the next level's requirements are all met, and
    then [calculateNewLevel] grants a level-up to the next level or
    beyond. *)
Theorem progress_complete_iff_threshold_met (m : MasteryRecord) :
  1 <= mastery_level m <= 3 ->
  exists p t,
    useMasteryProgress (Some m) = Returns p
    /\ nextLevel p = Some (mastery_level m + 1)
    /\ threshold_at (mastery_level m + 1) = Some t
    /\ In (overallProgress p) [Int 0; Int 33; Int 50; Int 67; Int 100]
    /\ (overallProgress p = Int 100 <-> satisfies m t = true)
    /\ (overallProgress p = Int 100 ->
        exists u, calculateNewLevel m = Some u
                  /\ mastery_level m + 1 <= newLevel u).
Proof.
  intros Hl.
  destruct percentage_values as [P02 [P12 [P22 [P03 [P13 [P23 P33]]]]]].
  assert (Ht : exists t, threshold_at (mastery_level m + 1) = Some t
                         /\ In (mastery_level m + 1, t) ladder).
  { assert (C : mastery_level m = 1 \/ mastery_level m = 2
                \/ mastery_level m = 3) by lia.
    destruct C as [E | [E | E]]; rewrite E; eexists;
      (split; [reflexivity|]); cbn; tauto. }
  destruct Ht as [t [Ht Hin]].
  destruct (useMasteryProgress_on_ladder m t ltac:(lia) Ht)
    as [p [Hp [_ [Hn [Ho Hr]]]]].
  exists p, t. split; [exact Hp|]. split; [exact Hn|]. split; [exact Ht|].
  rewrite Ho, Hr. clear Hp Hn Ho Hr Ht.
  unfold calculateNewLevel, satisfies, meets.
  destruct m as [i k lvl cl days art tut peer].
  cbn [mastery_level days_completed artifacts_submitted ai_tutor_sessions
       peer_assists_given] in *.
  unfold ladder in Hin. cbn [In] in Hin.
  destruct Hin as [H | [H | [H | []]]]; injection H as Hlvl <-;
    assert (Elvl : lvl = Z.pred (lvl + 1)) by lia; rewrite <- Hlvl in Elvl;
    cbn in Elvl; subst lvl; clear Hlvl Hl;
    cbn [daysCompleted aiTutorSessions artifactsSubmitted peerAssistsGiven
         clearance nullish push_requirement app Z.ltb Z.compare Pos.compare
         Pos.compare_cont andb Z.add Pos.add Pos.succ
         MASTERY_THRESHOLDS_2 MASTERY_THRESHOLDS_3 MASTERY_THRESHOLDS_4];
    progress_cases;
    cbn [filter completed List.length andb Z.of_nat Pos.of_succ_nat Pos.succ];
    rewrite ?P02, ?P12, ?P22, ?P03, ?P13, ?P23, ?P33;
    (split; [cbn [In]; tauto|]);
    (split; [split; intros H; first [reflexivity | discriminate H]|]);
    intros H; try discriminate H;
    try lia;
    eexists; (split; [reflexivity|]); cbn [newLevel]; lia.
Qed.
(** X9. Off the ladder: the hook throws exactly for a record whose level
    is 0 or less (the threshold table has no entry for its next level); a
    record at level 4 or above is reported as level 4, complete, with no
    next level; without a record the hook reports level 1 with nothing
    achieved. *)
Theorem useMasteryProgress_off_ladder (m : MasteryRecord) :
  (useMasteryProgress (Some m) = Throws <-> mastery_level m <= 0)
  /\ (4 <= mastery_level m <->
      useMasteryProgress (Some m)
      = Returns {| currentLevel := 4; nextLevel := None; requirements := [];
                   overallProgress := Int 100 |})
  /\ useMasteryProgress None
     = Returns {| currentLevel := 1; nextLevel := Some 2; requirements := [];
                  overallProgress := Int 0 |}.
Proof.
  split; [|split; [|reflexivity]].
  - unfold useMasteryProgress, threshold_at.
    destruct (Z.geb_spec (mastery_level m) 4) as [L|L].
    + split; [discriminate | lia].
    + destruct (Z.eqb_spec (Z.min (mastery_level m + 1) 4) 2) as [E2|E2];
        [split; [discriminate | lia]|].
      destruct (Z.eqb_spec (Z.min (mastery_level m + 1) 4) 3) as [E3|E3];
        [split; [discriminate | lia]|].
      destruct (Z.eqb_spec (Z.min (mastery_level m + 1) 4) 4) as [E4|E4];
        [split; [discriminate | lia]|].
      split; [lia | reflexivity].
  - unfold useMasteryProgress.
    destruct (Z.geb_spec (mastery_level m) 4) as [L|L].
    + split; [reflexivity | lia].
    + split; [lia|].
      destruct (threshold_at (Z.min (mastery_level m + 1) 4));
        [|discriminate].
      intros H. exfalso. injection H as H1 _ _ _. lia.
Qed.

Definition apprentice : MasteryRecord :=
  {| id := "row-2"%string; participant_id := "p-2"%string;
     mastery_level := 2; mr_clearance := "FIELD_TRAINEE"%string;
     days_completed := 12; artifacts_submitted := 1; ai_tutor_sessions := 4;
     peer_assists_given := 0 |}.

Lemma progress_complete_iff_threshold_met_witness :
  exists p t,
    useMasteryProgress (Some apprentice) = Returns p
    /\ nextLevel p = Some 3
    /\ threshold_at 3 = Some t
    /\ In (overallProgress p) [Int 0; Int 33; Int 50; Int 67; Int 100]
    /\ (overallProgress p = Int 100 <-> satisfies apprentice t = true)
    /\ (overallProgress p = Int 100 ->
        exists u, calculateNewLevel apprentice = Some u /\ 3 <= newLevel u).
Proof.
  apply (progress_complete_iff_threshold_met apprentice). cbn. lia.
Defined.

Lemma useMasteryProgress_off_ladder_witness :
  useMasteryProgress (Some (row "z" 0 5 0 2)) = Throws.
Proof.
  apply (proj1 (useMasteryProgress_off_ladder (row "z" 0 5 0 2))). cbn. lia.
Defined.

End ProgressFacts.

(** ** The table after a sweep *)

Section SweepTableFacts.
Import Mastery.

Lemma db_update_miss (t : Table) (key : string) (u : LevelUp) :
  ~ In key (map id t) -> db_update t key u = t.
Proof.
  unfold db_update. induction t as [|r t IH]; intros Hn; cbn [map].
  - reflexivity.
  - cbn [map In] in Hn.
    destruct (String.eqb_spec (id r) key) as [E|E].
    + exfalso. apply Hn. left. exact E.
    + f_equal. apply IH. intros Hin. apply Hn. right. exact Hin.
Qed.

Lemma db_update_hit (a b : Table) (m : MasteryRecord) (u : LevelUp) :
  NoDup (map id (a ++ m :: b)) ->
  db_update (a ++ m :: b) (id m) u = a ++ update_row m u :: b.
Proof.
  intros Hnd. rewrite map_app in Hnd. cbn [map] in Hnd.
  pose proof (NoDup_remove_2 _ _ _ Hnd) as Hout.
  assert (Ha : ~ In (id m) (map id a))
    by (intros Hin; apply Hout, in_or_app; left; exact Hin).
  assert (Hb : ~ In (id m) (map id b))
    by (intros Hin; apply Hout, in_or_app; right; exact Hin).
  pose proof (db_update_miss a (id m) u Ha) as Ea.
  pose proof (db_update_miss b (id m) u Hb) as Eb.
  unfold db_update in *. rewrite map_app. cbn [map].
  rewrite Ea, Eb, String.eqb_refl. reflexivity.
Qed.

(** What the sweep leaves of the record fetched at a given position. *)
Definition swept (e : Env) (im : nat * MasteryRecord) : MasteryRecord :=
  if applied e im then applyLevelUp (snd im) else snd im.

Lemma sweep_table (e : Env) (rs : list MasteryRecord) :
  forall (pre : Table) (i : nat) (ups : list UpdateEntry),
    NoDup (map id (pre ++ rs)) ->
    fst (sweep e rs i (pre ++ rs) ups)
    = pre ++ map (swept e) (combine (seq i (List.length rs)) rs).
Proof.
  induction rs as [|m rest IH]; intros pre i ups Hnd.
  - reflexivity.
  - cbn [sweep List.length seq combine map].
    unfold swept at 1, applied, applyLevelUp. cbn [fst snd].
    assert (Hkeep : forall ups',
               fst (sweep e rest (S i) (pre ++ m :: rest) ups')
               = pre ++ m :: map (swept e)
                               (combine (seq (S i) (List.length rest)) rest)).
    { intros ups'.
      replace (pre ++ m :: rest) with ((pre ++ [m]) ++ rest)
        by (rewrite <- app_assoc; reflexivity).
      rewrite IH by (rewrite <- app_assoc; exact Hnd).
      rewrite <- app_assoc. reflexivity. }
    destruct (calculateNewLevel m) as [u|] eqn:Hu.
    + destruct (updateError e i); cbn [negb].
      * apply Hkeep.
      * rewrite db_update_hit by exact Hnd.
        replace (pre ++ update_row m u :: rest)
          with ((pre ++ [update_row m u]) ++ rest)
          by (rewrite <- app_assoc; reflexivity).
        rewrite IH.
        -- rewrite <- app_assoc. reflexivity.
        -- rewrite <- app_assoc. cbn [app].
           rewrite map_app in *. cbn [map] in *. exact Hnd.
    + apply Hkeep.
Qed.

Lemma sweep_idle (e : Env) (rs : list MasteryRecord) :
  Forall (fun m => calculateNewLevel m = None) rs ->
  forall (i : nat) (t : Table) (ups : list UpdateEntry),
    sweep e rs i t ups = (t, ups).
Proof.
  induction 1 as [|m rest Hm _ IH]; intros i t ups; cbn [sweep].
  - reflexivity.
  - rewrite Hm. apply IH.
Qed.

Lemma applyLevelUp_settled (m : MasteryRecord) :
  calculateNewLevel (applyLevelUp m) = None.
Proof.
  unfold applyLevelUp. destruct (calculateNewLevel m) as [u|] eqn:Hu.
  - apply calculateNewLevel_after_update. exact Hu.
  - exact Hu.
Qed.

Lemma swept_row (e : Env) (im : nat * MasteryRecord) :
  id (swept e im) = id (snd im)
  /\ participant_id (swept e im) = participant_id (snd im)
  /\ days_completed (swept e im) = days_completed (snd im)
  /\ artifacts_submitted (swept e im) = artifacts_submitted (snd im)
  /\ ai_tutor_sessions (swept e im) = ai_tutor_sessions (snd im)
  /\ peer_assists_given (swept e im) = peer_assists_given (snd im)
  /\ mastery_level (snd im) <= mastery_level (swept e im) <= Z.max (mastery_level (snd im)) 4.
Proof.
  unfold swept, applyLevelUp. destruct (applied e im).
  - destruct (calculateNewLevel (snd im)) as [u|] eqn:Hu.
    + pose proof (calculateNewLevel_above _ _ Hu) as Hab.
      assert (newLevel u <= 4).
      { revert Hu. unfold calculateNewLevel.
        repeat match goal with
          | |- context [if ?c then _ else _] => destruct c
          end; intros Hs; inversion Hs; cbn; lia. }
      cbn. repeat split; lia.
    + repeat split; lia.
  - repeat split; lia.
Qed.

(** X10. When the sweep runs over the rows of the table itself and their
    ids are distinct, the table afterwards holds, position by position,
    the levelled-up row where a level-up was due and its update succeeded
    and the old row otherwise; no row is added or lost, ids and counters
    are untouched and no level goes down. *)
Theorem GET_table_after_sweep
        (e : Env) (authHeader : option string) (t : Table) :
  truthy (CRON_SECRET e)
    && header_differs authHeader (bearer (CRON_SECRET e)) = false ->
  select_reply e = {| data := Some t; fetchError := false |} ->
  NoDup (map id t) ->
  let t' := snd (GET e authHeader t) in
  t' = map (swept e) (indexed t)
  /\ map id t' = map id t
  /\ Forall2 (fun old new =>
                days_completed new = days_completed old
                /\ artifacts_submitted new = artifacts_submitted old
                /\ ai_tutor_sessions new = ai_tutor_sessions old
                /\ peer_assists_given new = peer_assists_given old
                /\ mastery_level old <= mastery_level new) t t'.
Proof.
  intros Hauth Hsel Hnd t'.
  assert (E : t' = map (swept e) (indexed t)).
  { unfold t', GET. rewrite Hauth, Hsel. cbn [data fetchError or_empty].
    pose proof (sweep_table e t [] 0 [] Hnd) as Hs. cbn [app] in Hs.
    destruct (sweep e t 0 t []) as [t1 ups]. exact Hs. }
  split; [exact E|]. rewrite E. clear. unfold indexed.
  generalize 0%nat as k.
  induction t as [|m t IH]; intros k; cbn [List.length seq combine map].
  - split; [reflexivity | constructor].
  - destruct (IH (S k)) as [I1 I2].
    pose proof (swept_row e (k, m)) as [S1 [_ [S3 [S4 [S5 [S6 S7]]]]]].
    cbn [snd] in *. split.
    + rewrite S1, I1. reflexivity.
    + constructor; [|exact I2]. repeat split; try assumption; lia.
Qed.

(** X11. After a sweep over the table's own rows in which no update
    failed, a second sweep over the resulting rows finds nothing to do: it
    reports every row as processed, none as updated, and leaves the table
    as it is. *)
Theorem GET_second_sweep_idle
        (e1 e2 : Env) (h1 h2 : option string) (t : Table) :
  truthy (CRON_SECRET e1)
    && header_differs h1 (bearer (CRON_SECRET e1)) = false ->
  truthy (CRON_SECRET e2)
    && header_differs h2 (bearer (CRON_SECRET e2)) = false ->
  select_reply e1 = {| data := Some t; fetchError := false |} ->
  (forall i, updateError e1 i = false) ->
  NoDup (map id t) ->
  let t1 := snd (GET e1 h1 t) in
  select_reply e2 = {| data := Some t1; fetchError := false |} ->
  GET e2 h2 t1 = (json (Summary true (Z.of_nat (List.length t)) 0 []), t1).
Proof.
  intros A1 A2 S1 Hok Hnd t1 S2.
  assert (E : t1 = map (swept e1) (indexed t)).
  { unfold t1, GET. rewrite A1, S1. cbn [data fetchError or_empty].
    pose proof (sweep_table e1 t [] 0 [] Hnd) as Hs. cbn [app] in Hs.
    destruct (sweep e1 t 0 t []) as [t2 ups]. exact Hs. }
  assert (Hsettled : Forall (fun m => calculateNewLevel m = None) t1).
  { rewrite E. apply Forall_forall. intros r Hin.
    apply in_map_iff in Hin. destruct Hin as [[i m] [<- _]].
    unfold swept, applied. cbn [fst snd]. rewrite Hok.
    destruct (calculateNewLevel m) as [u|] eqn:Hu; cbn [negb].
    - apply applyLevelUp_settled.
    - exact Hu. }
  assert (Hlen : List.length t1 = List.length t).
  { rewrite E, length_map. unfold indexed.
    rewrite length_combine, length_seq. apply Nat.min_id. }
  unfold GET. rewrite A2, S2. cbn [data fetchError or_empty].
  rewrite (sweep_idle e2 t1 Hsettled). rewrite Hlen. reflexivity.
Qed.

(** X12. The secret check: the endpoint answers 401 exactly when a
    non-empty [CRON_SECRET] is configured and the [authorization] header is
    not [Bearer <secret>]; such a request changes nothing.  In particular,
    with no secret (or an empty one) configured no request is refused,
    whatever its header. *)
Theorem GET_unauthorized_iff
        (e : Env) (authHeader : option string) (t : Table) :
  (status (fst (GET e authHeader t)) = 401
   <-> exists s, CRON_SECRET e = Some s /\ s <> EmptyString
                 /\ authHeader <> Some ("Bearer " ++ s)%string)
  /\ (status (fst (GET e authHeader t)) = 401 -> snd (GET e authHeader t) = t)
  /\ (truthy (CRON_SECRET e) = false ->
      GET e authHeader t = GET e None t).
Proof.
  assert (Hchk : truthy (CRON_SECRET e)
                 && header_differs authHeader (bearer (CRON_SECRET e)) = true
                 <-> exists s, CRON_SECRET e = Some s /\ s <> EmptyString
                               /\ authHeader <> Some ("Bearer " ++ s)%string).
  { unfold truthy, header_differs, bearer.
    destruct (CRON_SECRET e) as [s|].
    - destruct (String.eqb_spec s EmptyString) as [Es|Es]; cbn [negb andb].
      + split; [discriminate|]. intros [s' [Hs [Hne _]]].
        inversion Hs; subst. contradiction.
      + destruct authHeader as [v|].
        * destruct (String.eqb_spec v ("Bearer " ++ s)%string) as [Ev|Ev];
            cbn [negb].
          -- split; [discriminate|]. intros [s' [Hs [_ Hh]]].
             inversion Hs; subst. contradiction.
          -- split; [|reflexivity]. intros _. exists s.
             repeat split; [exact Es|]. intros Hh. inversion Hh. contradiction.
        * split; [|reflexivity]. intros _. exists s.
          repeat split; [exact Es | discriminate].
    - cbn [andb]. split; [discriminate|]. intros [s [Hs _]]. discriminate. }
  unfold GET.
  destruct (truthy (CRON_SECRET e)
            && header_differs authHeader (bearer (CRON_SECRET e))) eqn:Hc.
  - split; [|split].
    + cbn. split; [intros _; apply Hchk; reflexivity | reflexivity].
    + reflexivity.
    + intros Ht. rewrite Ht in Hc. discriminate.
  - assert (Hno : status
                    (fst (if fetchError (select_reply e)
                          then (json_status (ErrorBody "Failed to fetch records") 500, t)
                          else
                            let '(t', updates) :=
                              sweep e (or_empty (data (select_reply e))) 0 t [] in
                            (json (Summary true
                                     match data (select_reply e) with
                                     | Some l => Z.of_nat (List.length l)
                                     | None => 0
                                     end (Z.of_nat (List.length updates)) updates),
                              t'))) <> 401).
    { destruct (fetchError (select_reply e)); [cbn; discriminate|].
      destruct (sweep e (or_empty (data (select_reply e))) 0 t []).
      cbn. discriminate. }
    split; [|split].
    + split; [intros H; contradiction|].
      intros H. apply Hchk in H. discriminate.
    + intros H. contradiction.
    + intros Ht. rewrite Ht. reflexivity.
Qed.

Definition settled_sweep : Env :=
  {| CRON_SECRET := Some "s3cret"%string;
     select_reply := {| data := Some fetched_rows; fetchError := false |};
     updateError := fun _ => false |}.

Definition second_sweep : Env :=
  {| CRON_SECRET := None;
     select_reply := {| data := Some (snd (GET settled_sweep
                                             (Some "Bearer s3cret"%string)
                                             fetched_rows));
                        fetchError := false |};
     updateError := fun _ => true |}.

Lemma GET_table_after_sweep_witness :
  snd (GET flaky (Some "Bearer s3cret"%string) fetched_rows)
  = map (swept flaky) (indexed fetched_rows).
Proof.
  refine (proj1 (GET_table_after_sweep flaky (Some "Bearer s3cret"%string)
                   fetched_rows eq_refl eq_refl _)).
  repeat constructor; cbn; intuition discriminate.
Defined.

Lemma GET_second_sweep_idle_witness :
  GET second_sweep None (snd (GET settled_sweep (Some "Bearer s3cret"%string)
                                fetched_rows))
  = (json (Summary true 4 0 []),
     snd (GET settled_sweep (Some "Bearer s3cret"%string) fetched_rows)).
Proof.
  refine (GET_second_sweep_idle settled_sweep second_sweep
            (Some "Bearer s3cret"%string) None fetched_rows
            eq_refl eq_refl eq_refl (fun _ => eq_refl) _ eq_refl).
  repeat constructor; cbn; intuition discriminate.
Defined.

Lemma GET_unauthorized_iff_witness :
  status (fst (GET flaky None fetched_rows)) = 401
  /\ snd (GET flaky None fetched_rows) = fetched_rows.
Proof.
  destruct (GET_unauthorized_iff flaky None fetched_rows) as [[_ H] [K _]].
  assert (S : status (fst (GET flaky None fetched_rows)) = 401).
  { apply H. exists "s3cret"%string. repeat split; discriminate. }
  split; [exact S | exact (K S)].
Defined.

End SweepTableFacts.

(** ** Following the instructor *)

Section FollowFacts.
Import LiveSession.

(** The events that come from the channel rather than from the student. *)
Definition from_channel (e : Event) : bool :=
  match e with
  | StateUpdate _ | SessionEnd | Fetched _ => true
  | _ => false
  end.

(** The events that keep a following student in step: broadcasts, the
    rejoin action, and a click on the section the instructor is on. *)
Definition keeps_sync (v : StudentView) (e : Event) : bool :=
  match e with
  | StateUpdate _ | SessionEnd | RejoinSync => true
  | SelectSection sectionId => String.eqb sectionId (instructorSection v)
  | Fetched _ | ToggleSync => false
  end.

Fixpoint all_keep_sync (v : StudentView) (es : list Event) : bool :=
  match es with
  | [] => true
  | e :: rest => keeps_sync v e && all_keep_sync (step v e) rest
  end.

Lemma isOutOfSync_false (v : StudentView) :
  isOutOfSync v = false
  <-> isSyncPaused v = false
      /\ localStep v = Some (instructorStep v)
      /\ localSection v = Some (instructorSection v).
Proof.
  unfold isOutOfSync, step_is, section_is.
  destruct (isSyncPaused v); cbn [orb].
  - split; [discriminate | intros [H _]; discriminate].
  - destruct (localStep v) as [a|], (localSection v) as [b|]; cbn [negb orb].
    + destruct (Z.eqb_spec a (instructorStep v)) as [Ea|Ea];
        destruct (String.eqb_spec b (instructorSection v)) as [Eb|Eb];
        cbn [negb orb]; split; try discriminate; try congruence.
      * intros _. subst. auto.
      * intros [_ [_ H]]. congruence.
      * intros [_ [H _]]. congruence.
      * intros [_ [H _]]. congruence.
    + destruct (a =? instructorStep v); cbn; split; try discriminate;
        intros [_ [_ H]]; discriminate.
    + split; [discriminate | intros [_ [H _]]; discriminate].
    + split; [discriminate | intros [_ [H _]]; discriminate].
Qed.

Lemma step_keeps_sync (v : StudentView) (e : Event) :
  keeps_sync v e = true ->
  isOutOfSync v = false -> isOutOfSync (step v e) = false.
Proof.
  intros Hk Hs. apply isOutOfSync_false in Hs. destruct Hs as [Hp [Hst Hse]].
  apply isOutOfSync_false.
  destruct e as [payload| |state| | |sectionId]; cbn [keeps_sync] in Hk;
    try discriminate; cbn [step].
  - unfold on_state_update, onStateChange, setSessionState, onSessionEnd.
    cbn [isSyncPaused]. rewrite Hp. cbn [negb].
    match goal with
    | |- context [if ?c then _ else _] => destruct c
    end; unfold instructorStep, instructorSection; cbn; auto.
  - unfold on_session_end, onSessionEnd, setSessionState,
      instructorStep, instructorSection in *.
    cbn. destruct (sessionState v); cbn; auto.
  - unfold rejoinSync, instructorStep, instructorSection in *.
    destruct (sessionState v) as [s|] eqn:E; cbn; rewrite ?E; auto.
  - apply String.eqb_eq in Hk. subst sectionId.
    unfold selectSection, instructorStep, instructorSection in *.
    cbn. rewrite Hp, String.eqb_refl. cbn. auto.
Qed.

(** X13. A student who follows the instructor keeps following: as long as
    the only events are [state_update] and [session_end] broadcasts, the
    rejoin action and clicks on the section the instructor is on, the view
    is never out of sync and shows the instructor's step and section. *)
Theorem following_student_stays_in_sync (es : list Event) :
  forall v : StudentView,
    isOutOfSync v = false ->
    all_keep_sync v es = true ->
    isOutOfSync (run v es) = false
    /\ localStep (run v es) = Some (instructorStep (run v es))
    /\ localSection (run v es) = Some (instructorSection (run v es)).
Proof.
  induction es as [|e es IH]; intros v Hs Hk.
  - split; [exact Hs|]. apply isOutOfSync_false in Hs. tauto.
  - cbn [all_keep_sync] in Hk. apply andb_prop in Hk. destruct Hk as [Hk Hr].
    unfold run. cbn [fold_left]. apply IH; [|exact Hr].
    apply step_keeps_sync; assumption.
Qed.

Lemma step_paused (v : StudentView) (e : Event) :
  from_channel e = true ->
  isSyncPaused v = true ->
  isSyncPaused (step v e) = true
  /\ localStep (step v e) = localStep v
  /\ localSection (step v e) = localSection v.
Proof.
  intros Hc Hp.
  destruct e as [payload| |state| | |sectionId]; cbn [from_channel] in Hc;
    try discriminate; cbn [step].
  - unfold on_state_update, onStateChange, setSessionState, onSessionEnd.
    cbn [isSyncPaused]. rewrite Hp. cbn [negb].
    match goal with
    | |- context [if ?c then _ else _] => destruct c
    end; cbn; auto.
  - cbn. auto.
  - unfold on_fetched. destruct (negb (isActive state)); cbn; auto.
Qed.

(** X14. While sync is paused nothing that arrives from the channel moves
    the student: after any sequence of [state_update] and [session_end]
    broadcasts and fetches, sync is still paused, the local step and
    section are unchanged and the view is flagged out of sync. *)
Theorem paused_student_keeps_position (es : list Event) :
  forall v : StudentView,
    isSyncPaused v = true ->
    forallb from_channel es = true ->
    isSyncPaused (run v es) = true
    /\ localStep (run v es) = localStep v
    /\ localSection (run v es) = localSection v
    /\ isOutOfSync (run v es) = true.
Proof.
  induction es as [|e es IH]; intros v Hp Hc.
  - unfold run, isOutOfSync. cbn [fold_left]. rewrite Hp. auto.
  - cbn [forallb] in Hc. apply andb_prop in Hc. destruct Hc as [Hc Hr].
    destruct (step_paused v e Hc Hp) as [Hp1 [H1 H2]].
    unfold run. cbn [fold_left].
    destruct (IH (step v e) Hp1 Hr) as [I1 [I2 [I3 I4]]].
    unfold run in *. rewrite I2, I3, H1, H2. auto.
Qed.

Definition next_step : Event :=
  StateUpdate {| p_currentStep := Some 2; p_currentSection := None;
                 p_isActive := None |}.

Definition to_lab : Event :=
  StateUpdate {| p_currentStep := Some 3; p_currentSection := Some "lab"%string;
                 p_isActive := None |}.

Lemma following_student_stays_in_sync_witness :
  let v := run (mount briefing_row)
               [next_step; to_lab; SelectSection "lab"; RejoinSync] in
  isOutOfSync v = false
  /\ localStep v = Some 3 /\ localSection v = Some "lab"%string.
Proof.
  exact (following_student_stays_in_sync
           [next_step; to_lab; SelectSection "lab"; RejoinSync]
           (mount briefing_row) eq_refl eq_refl).
Defined.

Lemma paused_student_keeps_position_witness :
  let v := run diverged [next_step; to_lab; SessionEnd] in
  isSyncPaused v = true
  /\ localStep v = Some 1
  /\ localSection v = Some "briefing"%string
  /\ isOutOfSync v = true.
Proof.
  exact (paused_student_keeps_position [next_step; to_lab; SessionEnd]
           diverged eq_refl eq_refl).
Defined.

End FollowFacts.

(** ** The participant list and the instructor's broadcasts *)

Section ChannelFacts.
Import LiveSession SessionChannel.

Definition ids (l : list Participant) : list string := map id l.

(** The event does not remove, respectively add, the participant [x]. *)
Definition no_leave_of (x : string) (e : ChannelEvent) : bool :=
  match e with
  | ParticipantLeave k => negb (String.eqb k x)
  | ParticipantJoin _ => true
  end.

Definition no_join_of (x : string) (e : ChannelEvent) : bool :=
  match e with
  | ParticipantJoin p => negb (String.eqb (id p) x)
  | ParticipantLeave _ => true
  end.

Lemma find_id (x : string) (prev : list Participant) :
  find (fun p => String.eqb (id p) x) prev = None <-> ~ In x (ids prev).
Proof.
  induction prev as [|q prev IH]; cbn [find ids map In].
  - tauto.
  - destruct (String.eqb_spec (id q) x) as [E|E].
    + split; [discriminate | intros H; exfalso; apply H; left; exact E].
    + unfold ids in IH. rewrite IH. tauto.
Qed.

Lemma In_join (x : string) (p : Participant) (prev : list Participant) :
  In x (ids (participant_join p prev)) <-> x = id p \/ In x (ids prev).
Proof.
  unfold participant_join.
  destruct (find (fun q => String.eqb (id q) (id p)) prev) as [q|] eqn:F.
  - split; [tauto|]. intros [->|H]; [|exact H].
    destruct (in_dec string_dec (id p) (ids prev)) as [I|I]; [exact I|].
    apply find_id in I. congruence.
  - unfold ids. rewrite map_app, in_app_iff. cbn [map In]. intuition.
Qed.

Lemma In_leave (x k : string) (prev : list Participant) :
  In x (ids (participant_leave k prev)) <-> x <> k /\ In x (ids prev).
Proof.
  unfold participant_leave, ids. rewrite !in_map_iff. split.
  - intros [q [<- Hq]]. apply filter_In in Hq. destruct Hq as [Hin Hk].
    destruct (String.eqb_spec (id q) k) as [E|E]; [discriminate|].
    split; [exact E | exists q; auto].
  - intros [Hx [q [<- Hin]]]. exists q. split; [reflexivity|].
    apply filter_In. split; [exact Hin|].
    destruct (String.eqb_spec (id q) k) as [E|E]; [contradiction | reflexivity].
Qed.

Lemma NoDup_snoc (x : string) (l : list string) :
  NoDup l -> ~ In x l -> NoDup (l ++ [x]).
Proof.
  induction 1 as [|y l Hy Hl IH]; intros Hx; cbn [app].
  - constructor; [intros [] | constructor].
  - constructor.
    + rewrite in_app_iff. cbn [In] in *. intuition.
    + apply IH. cbn [In] in Hx. tauto.
Qed.

Lemma NoDup_join (p : Participant) (prev : list Participant) :
  NoDup (ids prev) -> NoDup (ids (participant_join p prev)).
Proof.
  intros H. unfold participant_join.
  destruct (find (fun q => String.eqb (id q) (id p)) prev) as [q|] eqn:F.
  - exact H.
  - apply find_id in F. unfold ids in *. rewrite map_app. cbn [map].
    apply NoDup_snoc; assumption.
Qed.

Lemma NoDup_leave (k : string) (prev : list Participant) :
  NoDup (ids prev) -> NoDup (ids (participant_leave k prev)).
Proof.
  unfold participant_leave, ids.
  induction prev as [|q prev IH]; intros H; cbn [filter map].
  - constructor.
  - cbn [map] in H. inversion H as [|? ? Hq Hrest]; subst.
    destruct (negb (String.eqb (id q) k)); [|apply IH; exact Hrest].
    cbn [map]. constructor; [|apply IH; exact Hrest].
    intros Hin. apply Hq. apply in_map_iff in Hin.
    destruct Hin as [r [Er Hr]]. apply filter_In in Hr.
    apply in_map_iff. exists r. tauto.
Qed.

Lemma listed_stays (x : string) (es : list ChannelEvent) :
  forallb (no_leave_of x) es = true ->
  forall prev, In x (ids prev) -> In x (ids (receive_all prev es)).
Proof.
  induction es as [|e es IH]; intros Hf prev Hin; [exact Hin|].
  cbn [forallb] in Hf. apply andb_prop in Hf. destruct Hf as [He Hf].
  unfold receive_all. cbn [fold_left]. apply (IH Hf).
  destruct e as [p|k]; cbn [receive no_leave_of] in *.
  - apply In_join. right. exact Hin.
  - apply In_leave. split; [|exact Hin].
    destruct (String.eqb_spec k x) as [E|E]; [discriminate | congruence].
Qed.

Lemma unlisted_stays (x : string) (es : list ChannelEvent) :
  forallb (no_join_of x) es = true ->
  forall prev, ~ In x (ids prev) -> ~ In x (ids (receive_all prev es)).
Proof.
  induction es as [|e es IH]; intros Hf prev Hin; [exact Hin|].
  cbn [forallb] in Hf. apply andb_prop in Hf. destruct Hf as [He Hf].
  unfold receive_all. cbn [fold_left]. apply (IH Hf).
  destruct e as [p|k]; cbn [receive no_join_of] in *.
  - rewrite In_join. intros [E|H]; [|contradiction].
    destruct (String.eqb_spec (id p) x) as [E'|E']; [discriminate | congruence].
  - rewrite In_leave. tauto.
Qed.

Lemma receive_all_app (prev : list Participant) (es1 es2 : list ChannelEvent) :
  receive_all prev (es1 ++ es2) = receive_all (receive_all prev es1) es2.
Proof. unfold receive_all. apply fold_left_app. Qed.

(** X15. The participant list never shows a participant twice: if the ids
    of the list are distinct they stay distinct under any sequence of
    [participant_join] and [participant_leave] broadcasts.  A join of a
    participant that is already listed changes nothing (the payload is
    dropped), a join of a new one appends it, and a leave of an unlisted
    id changes nothing. *)
Theorem participants_stay_distinct
        (prev : list Participant) (es : list ChannelEvent) :
  NoDup (ids prev) ->
  NoDup (ids (receive_all prev es))
  /\ (forall p, In (id p) (ids prev) -> participant_join p prev = prev)
  /\ (forall p, ~ In (id p) (ids prev) -> participant_join p prev = prev ++ [p])
  /\ (forall k, ~ In k (ids prev) -> participant_leave k prev = prev).
Proof.
  intros Hnd. split; [|split; [|split]].
  - revert prev Hnd. induction es as [|e es IH]; intros prev Hnd; [exact Hnd|].
    unfold receive_all. cbn [fold_left]. apply IH.
    destruct e as [p|k]; cbn [receive];
      [apply NoDup_join | apply NoDup_leave]; exact Hnd.
  - intros p Hin. unfold participant_join.
    destruct (find (fun q => String.eqb (id q) (id p)) prev) eqn:F;
      [reflexivity|]. apply find_id in F. contradiction.
  - intros p Hin. unfold participant_join. apply find_id in Hin.
    rewrite Hin. reflexivity.
  - intros k Hk. unfold participant_leave. clear Hnd.
    induction prev as [|q prev IH]; [reflexivity|].
    cbn [filter]. cbn [ids map In] in Hk.
    destruct (String.eqb_spec (id q) k) as [E|E]; [tauto|].
    cbn [negb]. f_equal. apply IH. tauto.
Qed.

(** X16. The list reflects the last word on each participant: after a
    [participant_join] that no later [participant_leave] of the same id
    follows the participant is listed, and after a [participant_leave]
    that no later [participant_join] with that id follows it is not,
    whatever came before. *)
Theorem participant_listed_by_last_event
        (prev : list Participant) (before after : list ChannelEvent) :
  (forall p,
      forallb (no_leave_of (id p)) after = true ->
      In (id p)
         (ids (receive_all prev (before ++ ParticipantJoin p :: after))))
  /\ (forall k,
         forallb (no_join_of k) after = true ->
         ~ In k (ids (receive_all prev
                        (before ++ ParticipantLeave k :: after)))).
Proof.
  split.
  - intros p Hf. rewrite receive_all_app.
    change (ParticipantJoin p :: after) with ([ParticipantJoin p] ++ after).
    rewrite receive_all_app. apply listed_stays; [exact Hf|].
    unfold receive_all at 1. cbn [fold_left receive].
    apply In_join. left. reflexivity.
  - intros k Hf. rewrite receive_all_app.
    change (ParticipantLeave k :: after) with ([ParticipantLeave k] ++ after).
    rewrite receive_all_app. apply unlisted_stays; [exact Hf|].
    unfold receive_all at 1. cbn [fold_left receive].
    rewrite In_leave. tauto.
Qed.




Definition ada : Participant :=
  {| id := "p-1"%string; name := "Ada"%string; avatar_url := None;
     role := "FDE"%string; joined_at := "2026-02-02T09:00:00Z"%string |}.

Definition bob : Participant :=
  {| id := "p-2"%string; name := "Bob"%string; avatar_url := None;
     role := "AI-SE"%string; joined_at := "2026-02-02T09:01:00Z"%string |}.

Lemma participants_stay_distinct_witness :
  NoDup (ids (receive_all [ada]
                [ParticipantJoin bob; ParticipantJoin ada;
                 ParticipantLeave "p-2"; ParticipantJoin bob])).
Proof.
  refine (proj1 (participants_stay_distinct [ada] _ _)).
  repeat constructor; cbn; tauto.
Defined.



Lemma participant_listed_by_last_event_witness :
  In "p-2"%string
     (ids (receive_all []
             ([ParticipantJoin ada]
                ++ ParticipantJoin bob :: [ParticipantLeave "p-1"]))).
Proof.
  exact (proj1 (participant_listed_by_last_event [] [ParticipantJoin ada]
                  [ParticipantLeave "p-1"]) bob eq_refl).
Defined.

End ChannelFacts.

(** ** The recognition sweep *)

Section RecognitionFacts.
Import JS Readiness Recognition.

(** A recognition is identified by its participant and its type. *)
Definition award_key (r : Recognition) : string * Z :=
  (participant_id r, recognition_type_id r).

Definition award_keys (w : World) : list (string * Z) :=
  map award_key (recognitions w).


Lemma matches_key (p : string) (t : Z) (r : Recognition) :
  matches p t r = true <-> award_key r = (p, t).
Proof.
  unfold matches, award_key. rewrite andb_true_iff, String.eqb_eq, Z.eqb_eq.
  split; [intros [-> ->]; reflexivity | intros H; inversion H; auto].
Qed.

Lemma filter_matches_absent (p : string) (t : Z) (l : list Recognition) :
  ~ In (p, t) (map award_key l) -> filter (matches p t) l = [].
Proof.
  induction l as [|r l IH]; intros Hn; [reflexivity|].
  cbn [filter]. cbn [map In] in Hn.
  destruct (matches p t r) eqn:M.
  - apply matches_key in M. tauto.
  - apply IH. tauto.
Qed.

Lemma filter_matches_present (p : string) (t : Z) (l : list Recognition) :
  NoDup (map award_key l) -> In (p, t) (map award_key l) ->
  exists r, filter (matches p t) l = [r].
Proof.
  induction l as [|r l IH]; intros Hnd Hin; [contradiction|].
  cbn [map] in Hnd. inversion Hnd as [|? ? Hr Hl]; subst.
  cbn [filter]. destruct (matches p t r) eqn:M.
  - apply matches_key in M. rewrite M in Hr.
    rewrite (filter_matches_absent p t l Hr). eauto.
  - cbn [map In] in Hin. destruct Hin as [E|Hin].
    + apply matches_key in E. congruence.
    + apply IH; assumption.
Qed.

Lemma filter_matches_single (p : string) (t : Z) (l : list Recognition)
      (r : Recognition) :
  filter (matches p t) l = [r] -> In (p, t) (map award_key l).
Proof.
  intros F. assert (H : In r (filter (matches p t) l)) by (rewrite F; left; auto).
  apply filter_In in H. destruct H as [Hin M]. apply matches_key in M.
  rewrite <- M. apply in_map. exact Hin.
Qed.

Lemma NoDup_keys_snoc (l : list Recognition) (r : Recognition) :
  NoDup (map award_key l) -> ~ In (award_key r) (map award_key l) ->
  NoDup (map award_key (l ++ [r])).
Proof.
  rewrite map_app. cbn [map]. generalize (award_key r) as k.
  generalize (map award_key l) as ks. clear.
  induction 1 as [|y ks Hy Hks IH]; intros Hk; cbn [app].
  - constructor; [intros [] | constructor].
  - constructor.
    + rewrite in_app_iff. cbn [In] in *. intuition.
    + apply IH. cbn [In] in Hk. tauto.
Qed.

(** What one call of [awardRecognition] does to the table. *)
Lemma awardRecognition_spec (e : Env) (p : string) (t : Z) (c : string)
      (w : World) :
  let r := awardRecognition e p t c w in
  exists added,
    recognitions (snd r) = recognitions w ++ added
    /\ Z.of_nat (List.length added) = (if fst r then 1 else 0)
    /\ (NoDup (award_keys w) -> NoDup (award_keys (snd r)))
    /\ (NoDup (award_keys w) -> insertError e (inserts w) = false ->
        In (p, t) (award_keys (snd r)))
    /\ (NoDup (award_keys w) -> In (p, t) (award_keys w) -> r = (false, w)).
Proof.
  unfold awardRecognition, award_keys.
  destruct (filter (matches p t) (recognitions w)) as [|x [|y rest]] eqn:F.
  - assert (Hab : ~ In (p, t) (map award_key (recognitions w))).
    { intros Hin. apply in_map_iff in Hin. destruct Hin as [r [Hk Hr]].
      assert (Hf : In r (filter (matches p t) (recognitions w)))
        by (apply filter_In; split; [exact Hr | apply matches_key; exact Hk]).
      rewrite F in Hf. contradiction. }
    destruct (insertError e (inserts w)); cbn [fst snd recognitions].
    + exists []. rewrite app_nil_r. repeat split; auto; try discriminate.
      intros _ Hin. contradiction.
    + eexists. split; [reflexivity|]. split; [reflexivity|].
      split; [|split].
      * intros Hnd. apply NoDup_keys_snoc; [exact Hnd | exact Hab].
      * intros _ _. rewrite map_app, in_app_iff. right. left. reflexivity.
      * intros _ Hin. contradiction.
  - cbn [fst snd]. exists []. rewrite app_nil_r.
    repeat split; auto.
    intros _ _. exact (filter_matches_single p t _ x F).
  - assert (Hdup : NoDup (map award_key (recognitions w)) -> False).
    { intros Hnd.
      assert (Hin : In (p, t) (map award_key (recognitions w))).
      { assert (Hx : In x (filter (matches p t) (recognitions w)))
          by (rewrite F; left; reflexivity).
        apply filter_In in Hx. destruct Hx as [Hx M].
        apply matches_key in M. rewrite <- M. apply in_map. exact Hx. }
      destruct (filter_matches_present p t _ Hnd Hin) as [r Hr].
      rewrite F in Hr. discriminate. }
    destruct (insertError e (inserts w)); cbn [fst snd recognitions].
    + exists []. rewrite app_nil_r. repeat split; auto; try tauto.
    + eexists. split; [reflexivity|]. split; [reflexivity|].
      repeat split; tauto.
Qed.

Lemma award_each_spec (e : Env) (t : Z) (c : string) (ps : list string) :
  forall (count : Z) (w : World),
    let r := award_each e ps t c count w in
    exists added,
      recognitions (snd r) = recognitions w ++ added
      /\ fst r = count + Z.of_nat (List.length added)
      /\ (List.length added <= List.length ps)%nat
      /\ (NoDup (award_keys w) -> NoDup (award_keys (snd r)))
      /\ (NoDup (award_keys w) -> (forall n, insertError e n = false) ->
          forall p, In p ps -> In (p, t) (award_keys (snd r)))
      /\ (NoDup (award_keys w) ->
          (forall p, In p ps -> In (p, t) (award_keys w)) ->
          r = (count, w)).
Proof.
  induction ps as [|p ps IH]; intros count w; cbn [award_each].
  - exists []. cbn. rewrite app_nil_r. repeat split; auto; try lia.
  - pose proof (awardRecognition_spec e p t c w) as A. cbn zeta in A.
    destruct (awardRecognition e p t c w) as [ok w1]. cbn [fst snd] in A.
    destruct A as [a1 [A1 [A2 [A3 [A4 A5]]]]].
    specialize (IH (if ok then count + 1 else count) w1). cbn zeta in IH.
    destruct IH as [a2 [I1 [I2 [I3 [I4 [I5 I6]]]]]].
    cbn zeta. exists (a1 ++ a2). split; [|split; [|split; [|split; [|split]]]].
    + rewrite I1, A1, app_assoc. reflexivity.
    + rewrite I2, length_app, Nat2Z.inj_add, A2. destruct ok; lia.
    + rewrite length_app. cbn [List.length].
      assert (List.length a1 <= 1)%nat by (destruct ok; lia). lia.
    + intros Hnd. apply I4, A3, Hnd.
    + intros Hnd Hok q [<-|Hq].
      * unfold award_keys. rewrite I1, map_app, in_app_iff. left.
        apply A4; [exact Hnd | apply Hok].
      * apply I5; auto.
    + intros Hnd Hall.
      assert (E : (ok, w1) = (false, w))
        by (apply A5; [exact Hnd | apply Hall; left; reflexivity]).
      inversion E; subst ok w1.
      apply I6; [exact Hnd|]. intros q Hq. apply Hall. right. exact Hq.
Qed.

(** The type id is truthy. *)
Definition runs (typeId : option Z) : bool :=
  match typeId with Some t => negb (t =? 0) | None => false end.

Definition settled (typeId : option Z) (ps : list string) (w : World) : Prop :=
  forall t, typeId = Some t -> t <> 0 ->
            forall p, In p ps -> In (p, t) (award_keys w).

Lemma process_spec (e : Env) (typeId : option Z) (finder : Env -> list string)
      (c : string) (w : World) :
  let r := process e typeId finder c w in
  exists added,
    recognitions (snd r) = recognitions w ++ added
    /\ awarded (fst r) = Z.of_nat (List.length added)
    /\ 0 <= awarded (fst r) <= found (fst r)
    /\ found (fst r)
       = (if runs typeId then Z.of_nat (List.length (finder e)) else 0)
    /\ (NoDup (award_keys w) -> NoDup (award_keys (snd r)))
    /\ (NoDup (award_keys w) -> (forall n, insertError e n = false) ->
        settled typeId (finder e) (snd r))
    /\ (NoDup (award_keys w) -> settled typeId (finder e) w ->
        snd r = w /\ awarded (fst r) = 0).
Proof.
  unfold process, runs, settled.
  assert (Hskip : exists added : list Recognition,
             recognitions w = recognitions w ++ added
             /\ 0 = Z.of_nat (List.length added))
    by (exists []; rewrite app_nil_r; auto).
  destruct typeId as [t|].
  - destruct (Z.eqb_spec t 0) as [E|E]; cbn [negb fst snd found awarded].
    + destruct Hskip as [a [H1 H2]]. exists a.
      repeat split; auto; try lia.
      intros _ _ t' Ht' Hn. inversion Ht'; subst. contradiction.
    + pose proof (award_each_spec e t c (finder e) 0 w) as A. cbn zeta in A.
      destruct (award_each e (finder e) t c 0 w) as [count w1].
      cbn [fst snd] in A. destruct A as [a [A1 [A2 [A3 [A4 [A5 A6]]]]]].
      cbn [fst snd found awarded]. exists a.
      split; [exact A1|]. split; [lia|]. split; [lia|].
      split; [reflexivity|]. split; [exact A4|]. split.
      * intros Hnd Hok t' Ht' _. inversion Ht'; subst. apply A5; assumption.
      * intros Hnd Hs.
        assert (R : (count, w1) = (0, w)).
        { apply A6; [exact Hnd|]. intros p Hp. apply (Hs t eq_refl E p Hp). }
        inversion R; subst. auto.
  - cbn [fst snd found awarded]. destruct Hskip as [a [H1 H2]]. exists a.
    repeat split; auto; try lia. intros _ _ t' Ht'. discriminate.
Qed.


(** Names the result of the next [process] call of the goal and what
    [process_spec] says about it. *)
Ltac process_step e r w' a G A :=
  match goal with
  | |- context [process e ?tid ?f ?c ?w] =>
      let P := fresh "P" in
      pose proof (process_spec e tid f c w) as P; cbn zeta in P;
      destruct (process e tid f c w) as [r w']; cbn [fst snd] in P;
      destruct P as [a [G A]]
  end.

(** X18. The summary tells what was written: [totalAwarded] is the sum of
    the four [awarded] counts and equals the number of rows the run
    appended to [participant_recognitions]; no existing row is changed or
    removed; in every category [awarded] is at most [found].  A request
    that is refused (401) or whose type lookup fails (500) writes
    nothing. *)
Theorem totalAwarded_counts_new_rows
        (e : Env) (authHeader : option string) (w : World) :
  let r := GET e authHeader w in
  match body (fst r) with
  | Summary success res total =>
      status (fst r) = 200
      /\ (exists added,
             recognitions (snd r) = recognitions w ++ added
             /\ total = Z.of_nat (List.length added))
      /\ total = awarded (earlyRiser res) + awarded (nightScholar res)
                 + awarded (momentum res) + awarded (teamSupporter res)
      /\ Forall (fun c => 0 <= awarded c <= found c)
                [earlyRiser res; nightScholar res; momentum res;
                 teamSupporter res]
  | ErrorBody _ =>
      snd r = w /\ (status (fst r) = 401 \/ status (fst r) = 500)
  end.
Proof.
  unfold GET.
  destruct (Mastery.truthy (CRON_SECRET e)
            && Mastery.header_differs authHeader
                 (Mastery.bearer (CRON_SECRET e))); [cbn; auto|].
  destruct (rows (recognition_types e)) as [types|]; [|cbn; auto].
  process_step e r1 w1 a1 G1 A1. process_step e r2 w2 a2 G2 A2.
  process_step e r3 w3 a3 G3 A3. process_step e r4 w4 a4 G4 A4.
  cbn [fst snd body status].
  split; [reflexivity|]. split; [|split; [reflexivity|]].
  - exists (a1 ++ a2 ++ a3 ++ a4). split.
    + rewrite G4, G3, G2, G1, <- !app_assoc. reflexivity.
    + rewrite !length_app, !Nat2Z.inj_add. lia.
  - cbn [earlyRiser nightScholar momentum teamSupporter].
    repeat (apply Forall_cons; [lia|]). apply Forall_nil.
Qed.




Lemma Set_add_spec (x : string) (s : list string) :
  (NoDup s -> NoDup (Set_add x s))
  /\ (forall p, In p (Set_add x s) <-> p = x \/ In p s).
Proof.
  unfold Set_add. destruct (existsb (String.eqb x) s) eqn:E.
  - split; [auto|]. intros p. split; [auto|]. intros [->|H]; [|exact H].
    apply existsb_exists in E. destruct E as [y [Hy Exy]].
    apply String.eqb_eq in Exy. subst y. exact Hy.
  - assert (Hx : ~ In x s).
    { intros Hin. assert (T : existsb (String.eqb x) s = true)
        by (apply existsb_exists; exists x; split;
            [exact Hin | apply String.eqb_refl]).
      congruence. }
    split.
    + intros Hnd. clear E. induction Hnd as [|y l Hy Hl IH]; cbn [app].
      * constructor; [intros [] | constructor].
      * constructor.
        -- rewrite in_app_iff. cbn [In] in *. intuition.
        -- apply IH. cbn [In] in Hx. tauto.
    + intros p. rewrite in_app_iff. cbn [In]. intuition.
Qed.

Lemma collect_spec {A : Type} (keep : A -> bool) (key : A -> string)
      (l : list A) :
  forall acc,
    NoDup acc ->
    let r := fold_left (fun s x => if keep x then Set_add (key x) s else s)
               l acc in
    NoDup r
    /\ forall p, In p r
                 <-> In p acc
                     \/ exists x, In x l /\ key x = p /\ keep x = true.
Proof.
  induction l as [|x l IH]; intros acc Hnd; cbn [fold_left].
  - split; [exact Hnd|]. intros p. split; [auto|].
    intros [H|[x [[] _]]]. exact H.
  - destruct (Set_add_spec (key x) acc) as [S1 S2].
    assert (Hacc : NoDup (if keep x then Set_add (key x) acc else acc))
      by (destruct (keep x); auto).
    destruct (IH _ Hacc) as [I1 I2]. cbn zeta in *. split; [exact I1|].
    intros p. rewrite I2. cbn [In]. destruct (keep x) eqn:K.
    + rewrite S2. split.
      * intros [[->|H]|[y [Hy [Ey Ky]]]]; eauto 6.
      * intros [H|[y [[->|Hy] [Ey Ky]]]]; eauto 6.
    + split.
      * intros [H|[y [Hy [Ey Ky]]]]; eauto 6.
      * intros [H|[y [[->|Hy] [Ey Ky]]]]; [auto | congruence | eauto 6].
Qed.

(** X21. The two submission finders return every candidate once: a
    participant is an early riser exactly when the reply holds a
    submission of theirs whose local hour is below 8, and a night scholar
    exactly when it holds one whose hour is 22 or later; a failed query
    yields no candidates, and no single timestamp counts for both. *)
Theorem submission_finders (e : Env) :
  NoDup (findEarlyRisers e) /\ NoDup (findNightScholars e)
  /\ (forall p,
         In p (findEarlyRisers e)
         <-> exists subs sub,
             rows (early_submissions e) = Some subs /\ In sub subs
             /\ s_participant_id sub = p
             /\ ltb (getHours e (submitted_at sub)) (Int 8) = true)
  /\ (forall p,
         In p (findNightScholars e)
         <-> exists subs sub,
             rows (night_submissions e) = Some subs /\ In sub subs
             /\ s_participant_id sub = p
             /\ geb (getHours e (submitted_at sub)) (Int 22) = true)
  /\ (forall s, ltb (getHours e s) (Int 8) = true ->
                geb (getHours e s) (Int 22) = false).
Proof.
  unfold findEarlyRisers, findNightScholars.
  split; [|split; [|split; [|split]]].
  - destruct (rows (early_submissions e)) as [subs|]; [|constructor].
    apply (collect_spec
             (fun sub => ltb (getHours e (submitted_at sub)) (Int 8))
             s_participant_id subs [] (NoDup_nil _)).
  - destruct (rows (night_submissions e)) as [subs|]; [|constructor].
    apply (collect_spec
             (fun sub => geb (getHours e (submitted_at sub)) (Int 22))
             s_participant_id subs [] (NoDup_nil _)).
  - intros p. destruct (rows (early_submissions e)) as [subs|].
    + destruct (collect_spec
                  (fun sub => ltb (getHours e (submitted_at sub)) (Int 8))
                  s_participant_id subs [] (NoDup_nil _)) as [_ C].
      cbn zeta in C. rewrite C. split.
      * intros [[]|[x Hx]]. exists subs, x. tauto.
      * intros [subs' [x [E Hx]]]. inversion E; subst. right. exists x. tauto.
    + split; [intros [] | intros [subs [x [E _]]]; discriminate].
  - intros p. destruct (rows (night_submissions e)) as [subs|].
    + destruct (collect_spec
                  (fun sub => geb (getHours e (submitted_at sub)) (Int 22))
                  s_participant_id subs [] (NoDup_nil _)) as [_ C].
      cbn zeta in C. rewrite C. split.
      * intros [[]|[x Hx]]. exists subs, x. tauto.
      * intros [subs' [x [E Hx]]]. inversion E; subst. right. exists x. tauto.
    + split; [intros [] | intros [subs [x [E _]]]; discriminate].
  - intros s. destruct (getHours e s) as [z| |[|]]; cbn; try discriminate.
    + intros H. apply Z.ltb_lt in H. apply Z.leb_gt. lia.
    + reflexivity.
Qed.






End RecognitionFacts.

(** ** Offline briefings *)

Section OfflineFacts.
Import JS Readiness JsArray OfflineBriefing.

(** [filter] and the sort commute when the comparator is the difference of
    integer keys. *)
Lemma filter_insert {A : Type} (cmp : A -> A -> number) (key : A -> Z)
      (p : A -> bool) (x : A) (l : list A) :
  (forall y, In y l -> cmp x y = Int (key x - key y)) ->
  StronglySorted (fun a b => key a <= key b) l ->
  filter p (insert cmp x l)
  = if p x then insert cmp x (filter p l) else filter p l.
Proof.
  induction l as [|y l IH]; intros Hc Hs.
  - cbn. destruct (p x); reflexivity.
  - apply StronglySorted_inv in Hs. destruct Hs as [Hs Hy].
    assert (Hc' : forall z, In z l -> cmp x z = Int (key x - key z))
      by (intros z Hz; apply Hc; right; exact Hz).
    specialize (IH Hc' Hs).
    cbn [insert]. rewrite (Hc y (or_introl eq_refl)). unfold gtb, ltb.
    destruct (Z.ltb_spec 0 (key x - key y)) as [L|L].
    + cbn [filter]. rewrite IH. destruct (p x), (p y); try reflexivity.
      cbn [insert]. rewrite (Hc y (or_introl eq_refl)). unfold gtb, ltb.
      destruct (Z.ltb_spec 0 (key x - key y)); [reflexivity | lia].
    + cbn [filter]. destruct (p x) eqn:Px; [|reflexivity].
      destruct (p y) eqn:Py.
      * cbn [insert]. rewrite (Hc y (or_introl eq_refl)). unfold gtb, ltb.
        destruct (Z.ltb_spec 0 (key x - key y)); [lia | reflexivity].
      * (* the elements behind [y] are no smaller than [x] either *)
        clear IH. induction l as [|z l IHl]; [reflexivity|].
        apply StronglySorted_inv in Hs. destruct Hs as [Hs Hz].
        inversion Hy as [|? ? Hyz Hyl]; subst.
        cbn [filter]. destruct (p z).
        -- cbn [insert]. rewrite (Hc' z (or_introl eq_refl)). unfold gtb, ltb.
           destruct (Z.ltb_spec 0 (key x - key z)); [lia | reflexivity].
        -- apply IHl; auto.
           ++ intros w [<-|Hw]; apply Hc; [left; auto | right; right; auto].
           ++ intros w Hw. apply Hc'. right. exact Hw.
Qed.

Lemma filter_sort {A : Type} (cmp : A -> A -> number) (key : A -> Z)
      (p : A -> bool) (l : list A) :
  (forall a b, In a l -> In b l -> cmp a b = Int (key a - key b)) ->
  filter p (sort cmp l) = sort cmp (filter p l).
Proof.
  induction l as [|x l IH]; intros Hc; [reflexivity|].
  assert (Hc' : forall a b, In a l -> In b l -> cmp a b = Int (key a - key b))
    by (intros a b Ha Hb; apply Hc; right; assumption).
  unfold sort. cbn [fold_right]. fold (sort cmp l).
  rewrite (filter_insert cmp key).
  - cbn [filter]. destruct (p x).
    + cbn [fold_right]. fold (sort cmp (filter p l)). rewrite IH by exact Hc'.
      reflexivity.
    + apply IH, Hc'.
  - intros y Hy. apply Hc; [left; reflexivity | right].
    apply (Permutation_in _ (sort_perm cmp l)). exact Hy.
  - apply (sort_ascending cmp key). exact Hc'.
Qed.

Lemma by_day_diff (a b : CachedDay) : by_day a b = Int (day a - day b).
Proof. reflexivity. Qed.

Definition usable (b : Browser) : Prop :=
  supported b = true /\ storage_ok b = true.

Lemma cacheDay_days (b : Browser) (d : Z) (captured : list CachedDay)
      (h : Hook) :
  usable b ->
  exists entry c,
    cacheDay b d captured h
    = (true,
       {| cachedDays :=
            sort by_day (filter (fun x => negb (day x =? d)) captured ++ [entry]);
          stored :=
            Some (sort by_day
                    (filter (fun x => negb (day x =? d)) captured ++ [entry]));
          cache := c |})
    /\ day entry = d /\ cachedAt entry = now b
    /\ (Forall (fun url => fetched b url = None) (urls d) ->
        size entry = 0 /\ c = cache h).
Proof.
  intros [Hs Ho]. unfold cacheDay. rewrite Hs, Ho. cbn [negb].
  destruct (fold_left _ (urls d) (cache h, 0)) as [c total] eqn:F.
  eexists. exists c. split; [reflexivity|]. cbn [day cachedAt size].
  split; [reflexivity|]. split; [reflexivity|].
  intros Hnone. unfold urls in *. cbn [fold_left] in F.
  pose proof (Forall_inv Hnone) as H1.
  pose proof (Forall_inv (Forall_inv_tail Hnone)) as H2.
  cbn beta in H1, H2. rewrite H1, H2 in F. inversion F. auto.
Qed.

Lemma existsb_day_perm (d : Z) (l l' : list CachedDay) :
  Permutation l l' ->
  existsb (fun x => day x =? d) l = existsb (fun x => day x =? d) l'.
Proof.
  intros P. apply eq_true_iff_eq. rewrite !existsb_exists.
  split; intros [x [Hx E]]; exists x; split; auto.
  - apply (Permutation_in _ P). exact Hx.
  - apply (Permutation_in _ (Permutation_sym P)). exact Hx.
Qed.

Lemma existsb_day_filter (d d' : Z) (l : list CachedDay) :
  existsb (fun x => day x =? d') (filter (fun x => negb (day x =? d)) l)
  = if d' =? d then false else existsb (fun x => day x =? d') l.
Proof.
  induction l as [|x l IH]; cbn [filter existsb].
  - destruct (d' =? d); reflexivity.
  - destruct (Z.eqb_spec (day x) d) as [E|E]; cbn [negb existsb].
    + rewrite IH. destruct (Z.eqb_spec d' d) as [E'|E']; [reflexivity|].
      destruct (Z.eqb_spec (day x) d'); [lia | reflexivity].
    + rewrite IH. destruct (Z.eqb_spec d' d) as [E'|E'];
        destruct (Z.eqb_spec (day x) d'); try lia; reflexivity.
Qed.

Lemma cacheDay_isCached (b : Browser) (d d' : Z) (captured : list CachedDay)
      (h : Hook) :
  usable b ->
  isCached d' (snd (cacheDay b d captured h))
  = (d' =? d) || existsb (fun x => day x =? d') captured.
Proof.
  intros Hu.
  destruct (cacheDay_days b d captured h Hu) as [entry [c [E [Hd _]]]].
  rewrite E. unfold isCached. cbn [snd cachedDays].
  rewrite (existsb_day_perm d' _ _ (sort_perm by_day _)), existsb_app.
  cbn [existsb]. rewrite existsb_day_filter, Hd, orb_false_r, (Z.eqb_sym d d').
  destruct (d' =? d); [reflexivity|]. rewrite orb_false_r. reflexivity.
Qed.

Lemma Map_get_set {V : Type} (m : JsMap V) (k k' : string) (v : V) :
  Map_get (Map_set m k v) k'
  = if String.eqb k k' then Some v else Map_get m k'.
Proof.
  induction m as [|[k0 v0] m IH]; cbn [Map_set Map_get]; [reflexivity|].
  destruct (String.eqb_spec k0 k) as [E|E]; cbn [Map_get].
  - subst k0. destruct (String.eqb k k'); reflexivity.
  - rewrite IH. destruct (String.eqb_spec k0 k') as [E'|E'];
      destruct (String.eqb_spec k k'); congruence.
Qed.

Lemma put_all (b : Browser) (us : list string) :
  forall (c : JsMap Z) (t : Z) (url : string) (sz : Z),
    fetched b url = Some sz ->
    In url us \/ Map_get c url = Some sz ->
    Map_get
      (fst (fold_left
              (fun (acc : JsMap Z * Z) url =>
                 match fetched b url with
                 | Some blob_size => (Map_set (fst acc) url blob_size,
                                      snd acc + blob_size)
                 | None => acc
                 end) us (c, t))) url = Some sz.
Proof.
  induction us as [|u us IH]; intros c t url sz Hf Hin; cbn [fold_left].
  - destruct Hin as [[]|H]. exact H.
  - destruct (fetched b u) as [s|] eqn:Fu; cbn [fst snd].
    + apply IH; [exact Hf|]. rewrite Map_get_set.
      destruct (String.eqb_spec u url) as [E|E].
      * right. subst u. congruence.
      * destruct Hin as [[E'|H]|H]; [contradiction | auto | auto].
    + apply IH; [exact Hf|]. destruct Hin as [[E|H]|H]; auto.
      subst u. congruence.
Qed.

Lemma put_total (b : Browser) (us : list string) :
  forall (c c' : JsMap Z) (t : Z),
    snd (fold_left
           (fun (acc : JsMap Z * Z) url =>
              match fetched b url with
              | Some blob_size => (Map_set (fst acc) url blob_size,
                                   snd acc + blob_size)
              | None => acc
              end) us (c, t))
    = snd (fold_left
             (fun (acc : JsMap Z * Z) url =>
                match fetched b url with
                | Some blob_size => (Map_set (fst acc) url blob_size,
                                     snd acc + blob_size)
                | None => acc
                end) us (c', t)).
Proof.
  induction us as [|u us IH]; intros c c' t; cbn [fold_left]; [reflexivity|].
  destruct (fetched b u); cbn [fst snd]; apply IH.
Qed.

Lemma cacheDay_cache (b : Browser) (d : Z) (captured : list CachedDay)
      (h : Hook) (url : string) (sz : Z) :
  usable b ->
  fetched b url = Some sz ->
  In url (urls d) \/ Map_get (cache h) url = Some sz ->
  Map_get (cache (snd (cacheDay b d captured h))) url = Some sz.
Proof.
  intros [Hs Ho] Hf Hin. unfold cacheDay. rewrite Hs, Ho. cbn [negb].
  pose proof (put_all b (urls d) (cache h) 0 url sz Hf Hin) as P.
  destruct (fold_left _ (urls d) (cache h, 0)) as [c total].
  cbn [fst] in P. cbn [snd cache updateCachedDays set_cache]. exact P.
Qed.

(** X22. Saving a day lists it exactly once: in a browser with a cache
    storage [cacheDay] answers [true], the day is then cached, every other
    day is cached exactly if it was before, the list is in ascending order
    of days and is what [localStorage] holds, and it has a single entry
    for the day, also when the day was listed before.  This holds even
    when both fetches fail: the day is then listed with size 0 although
    nothing was put into the cache. *)
Theorem cacheDay_lists_day (b : Browser) (d : Z) (h : Hook) :
  usable b ->
  let r := cacheDay b d (cachedDays h) h in
  fst r = true
  /\ isCached d (snd r) = true
  /\ (forall d', d' <> d -> isCached d' (snd r) = isCached d' h)
  /\ StronglySorted (fun x y => day x <= day y) (cachedDays (snd r))
  /\ stored (snd r) = Some (cachedDays (snd r))
  /\ List.length (filter (fun x => day x =? d) (cachedDays (snd r))) = 1%nat
  /\ (Forall (fun url => fetched b url = None) (urls d) ->
      cache (snd r) = cache h
      /\ exists entry, In entry (cachedDays (snd r))
                       /\ day entry = d /\ size entry = 0).
Proof.
  intros Hu r.
  destruct (cacheDay_days b d (cachedDays h) h Hu)
    as [entry [c [E [Hd [_ Hnone]]]]].
  subst r. rewrite E. cbn [fst snd cachedDays stored cache].
  set (kept := filter (fun x => negb (day x =? d)) (cachedDays h)).
  pose proof (sort_perm by_day (kept ++ [entry])) as P.
  split; [reflexivity|]. split; [|split; [|split; [|split; [|split]]]].
  - unfold isCached. cbn [cachedDays]. rewrite (existsb_day_perm d _ _ P).
    rewrite existsb_app. cbn [existsb]. rewrite Hd, Z.eqb_refl.
    rewrite orb_true_r. reflexivity.
  - intros d' Hne. unfold isCached. cbn [cachedDays].
    rewrite (existsb_day_perm d' _ _ P), existsb_app. cbn [existsb].
    unfold kept. rewrite existsb_day_filter, Hd.
    destruct (Z.eqb_spec d' d) as [E'|E']; [contradiction|].
    destruct (Z.eqb_spec d d'); [lia|]. rewrite !orb_false_r. reflexivity.
  - apply (sort_ascending by_day day). intros x y _ _. apply by_day_diff.
  - reflexivity.
  - rewrite (filter_sort by_day day) by (intros x y _ _; apply by_day_diff).
    rewrite filter_app. cbn [filter]. rewrite Hd, Z.eqb_refl.
    assert (K : filter (fun x => day x =? d) kept = []).
    { unfold kept. clear. induction (cachedDays h) as [|x l IH]; [reflexivity|].
      cbn [filter]. destruct (Z.eqb_spec (day x) d) as [Ex|Ex]; cbn [negb].
      - exact IH.
      - cbn [filter]. destruct (Z.eqb_spec (day x) d); [contradiction | exact IH]. }
    rewrite K. reflexivity.
  - intros Hn. destruct (Hnone Hn) as [Hsz ->]. split; [reflexivity|].
    exists entry. split; [|auto].
    apply (Permutation_in _ (Permutation_sym P)), in_or_app. right. left.
    reflexivity.
Qed.

(** X23. Removing a day undoes saving it: when the list is in ascending
    order and does not hold the day, [cacheDay] followed by [uncacheDay]
    (each from a fresh render) gives back the list; in any case the day is
    not cached after [uncacheDay], the other days are cached exactly if
    they were, and [clearAllCache] leaves no day cached and an empty
    cache. *)
Theorem uncacheDay_undoes_cacheDay (b : Browser) (d : Z) (h : Hook) :
  usable b ->
  let after := snd (uncacheDay b d (cachedDays h) h) in
  (isCached d after = false
   /\ forall d', d' <> d -> isCached d' after = isCached d' h)
  /\ (StronglySorted (fun x y => day x <= day y) (cachedDays h) ->
      isCached d h = false ->
      let h1 := snd (cacheDay b d (cachedDays h) h) in
      cachedDays (snd (uncacheDay b d (cachedDays h1) h1)) = cachedDays h)
  /\ (cachedDays (clearAllCache b h) = [] /\ cache (clearAllCache b h) = []).
Proof.
  intros Hu after. pose proof Hu as [Hs Ho].
  assert (U : forall l h0,
             cachedDays (snd (uncacheDay b d l h0))
             = filter (fun x => negb (day x =? d)) l).
  { intros l h0. unfold uncacheDay. rewrite Hs, Ho. reflexivity. }
  split; [|split].
  - unfold after, isCached. rewrite U. split.
    + rewrite existsb_day_filter, Z.eqb_refl. reflexivity.
    + intros d' Hne. rewrite existsb_day_filter.
      destruct (Z.eqb_spec d' d); [contradiction | reflexivity].
  - intros Hsorted Hnot h1. rewrite U.
    destruct (cacheDay_days b d (cachedDays h) h Hu) as [entry [c [E [Hd _]]]].
    unfold h1. rewrite E. cbn [snd cachedDays].
    assert (K : filter (fun x => negb (day x =? d)) (cachedDays h)
                = cachedDays h).
    { unfold isCached in Hnot. clear - Hnot.
      induction (cachedDays h) as [|x l IH]; [reflexivity|].
      cbn [existsb] in Hnot. apply orb_false_elim in Hnot.
      destruct Hnot as [Hx Hl]. cbn [filter]. rewrite Hx. cbn [negb].
      f_equal. apply IH, Hl. }
    rewrite K.
    rewrite (filter_sort by_day day) by (intros x y _ _; apply by_day_diff).
    rewrite filter_app, K. cbn [filter]. rewrite Hd, Z.eqb_refl. cbn [negb].
    rewrite app_nil_r.
    apply (sort_ascending_id by_day day);
      [intros x y _ _; apply by_day_diff | exact Hsorted].
  - unfold clearAllCache. rewrite Hs, Ho. cbn. auto.
Qed.

(** X24. A batch lists only its last day: [cacheMultipleDays] runs every
    [cacheDay] of the batch against the list of the render it was started
    in, so the list afterwards is the one a single [cacheDay] of the last
    day gives; an earlier day of the batch that was not cached before is
    not listed, although its pages are fetched and stored like the
    others. *)
Theorem cacheMultipleDays_lists_last
        (b : Browser) (days : list Z) (d : Z) (h : Hook) :
  usable b ->
  let after := cacheMultipleDays b (days ++ [d]) h in
  cachedDays after = cachedDays (snd (cacheDay b d (cachedDays h) h))
  /\ stored after = Some (cachedDays after)
  /\ (forall d', In d' days -> d' <> d -> isCached d' h = false ->
                 isCached d' after = false)
  /\ (forall d' url size, In d' (days ++ [d]) -> In url (urls d') ->
                          fetched b url = Some size ->
                          Map_get (cache after) url = Some size).
Proof.
  intros Hu after.
  assert (L : forall h', cachedDays (snd (cacheDay b d (cachedDays h) h'))
                         = cachedDays (snd (cacheDay b d (cachedDays h) h))
                         /\ stored (snd (cacheDay b d (cachedDays h) h'))
                            = Some (cachedDays
                                      (snd (cacheDay b d (cachedDays h) h')))).
  { intros h'. unfold cacheDay. destruct Hu as [-> ->]. cbn [negb].
    destruct (fold_left _ (urls d) (cache h', 0)) as [c1 t1] eqn:F1.
    destruct (fold_left _ (urls d) (cache h, 0)) as [c2 t2] eqn:F2.
    cbn [snd cachedDays stored updateCachedDays].
    assert (T : t1 = t2).
    { pose proof (put_total b (urls d) (cache h') (cache h) 0) as T.
      rewrite F1, F2 in T. exact T. }
    subst t1. auto. }
  assert (E : after = snd (cacheDay b d (cachedDays h)
                             (fold_left
                                (fun h' x => snd (cacheDay b x (cachedDays h) h'))
                                days h))).
  { unfold after, cacheMultipleDays. rewrite fold_left_app. reflexivity. }
  split; [|split; [|split]].
  - rewrite E. apply L.
  - rewrite E. apply L.
  - intros d' Hin Hne Hnot.
    assert (O : isCached d' (snd (cacheDay b d (cachedDays h) h)) = false).
    { rewrite cacheDay_isCached by exact Hu.
      destruct (Z.eqb_spec d' d); [contradiction | exact Hnot]. }
    unfold isCached in *. rewrite E, (proj1 (L _)). exact O.
  - intros d' url sz Hin Hurl Hf. unfold after, cacheMultipleDays.
    generalize (cachedDays h) as captured. intros captured.
    assert (G : forall ds h0,
               In d' ds \/ Map_get (cache h0) url = Some sz ->
               Map_get
                 (cache (fold_left
                           (fun h' x => snd (cacheDay b x captured h')) ds h0))
                 url = Some sz).
    { induction ds as [|x ds IH]; intros h0 Hor; cbn [fold_left].
      - destruct Hor as [[]|H]. exact H.
      - apply IH. destruct Hor as [[->|H]|H].
        + right. apply cacheDay_cache; auto.
        + left. exact H.
        + right. apply cacheDay_cache; auto. }
    apply G. left. exact Hin.
Qed.

(** A browser in which the page of day 2 cannot be fetched. *)
Definition online : Browser :=
  {| supported := true; storage_ok := true;
     fetched := fun url => if String.eqb url "/mission/day/2" then None
                           else Some 1200;
     now := "2026-02-03T08:00:00.000Z"%string |}.

Definition fresh_hook : Hook := {| cachedDays := []; stored := None; cache := [] |}.

Lemma cacheDay_lists_day_witness :
  isCached 3 (snd (cacheDay online 3 (cachedDays fresh_hook) fresh_hook)) = true.
Proof.
  exact (proj1 (proj2 (cacheDay_lists_day online 3 fresh_hook
                         (conj eq_refl eq_refl)))).
Defined.

Lemma uncacheDay_undoes_cacheDay_witness :
  let h1 := snd (cacheDay online 3 (cachedDays fresh_hook) fresh_hook) in
  cachedDays (snd (uncacheDay online 3 (cachedDays h1) h1)) = [].
Proof.
  refine (proj1 (proj2 (uncacheDay_undoes_cacheDay online 3 fresh_hook
                          (conj eq_refl eq_refl))) _ eq_refl).
  constructor.
Defined.

Lemma cacheMultipleDays_lists_last_witness :
  cachedDays (cacheMultipleDays online ([1; 2] ++ [3]) fresh_hook)
  = cachedDays (snd (cacheDay online 3 (cachedDays fresh_hook) fresh_hook)).
Proof.
  exact (proj1 (cacheMultipleDays_lists_last online [1; 2] 3 fresh_hook
                  (conj eq_refl eq_refl))).
Defined.

End OfflineFacts.

(** ** The role analysis of the program aggregate *)

Section RoleAnalysisFacts.
Import JS Readiness.

(** All breakdown entries of all task forces, in the order the loops visit
    them. *)
Definition entries (tfs : list TaskForceReadiness) : list RoleBreakdown :=
  flat_map roleBreakdown tfs.

(** Members of role [r] over a list of breakdown entries. *)
Definition role_total (r : RoleType) (es : list RoleBreakdown) : Z :=
  sum_field (fun rb => if String.eqb (rb_role rb) r then count rb else 0) es.

Definition sums_total (m : JsMap RoleSum) : Z :=
  fold_right (fun e acc => total (snd e) + acc) 0 m.

Definition analysis_total (m : JsMap RoleAverage) : Z :=
  fold_right (fun e acc => ra_total (snd e) + acc) 0 m.

Definition total_at (m : JsMap RoleSum) (r : RoleType) : Z :=
  match Map_get m r with Some e => total e | None => 0 end.

(** The task force is a result of [calculateTaskForceReadiness]. *)
Definition computed (tf : TaskForceReadiness) : Prop :=
  exists now taskForceId taskForceName ms previousReadiness,
    tf = calculateTaskForceReadiness now taskForceId taskForceName ms
           previousReadiness.

Lemma fold_entries (tfs : list TaskForceReadiness) :
  forall acc,
    fold_left (fun acc tf => fold_left analyse_role (roleBreakdown tf) acc)
      tfs acc
    = fold_left analyse_role (entries tfs) acc.
Proof.
  induction tfs as [|tf tfs IH]; intros acc; cbn [fold_left entries flat_map].
  - reflexivity.
  - rewrite fold_left_app. apply IH.
Qed.

Lemma analyse_role_total_at (m : JsMap RoleSum) (rb : RoleBreakdown)
      (r : RoleType) :
  total_at (analyse_role m rb) r
  = total_at m r + (if String.eqb (rb_role rb) r then count rb else 0).
Proof.
  unfold total_at, analyse_role. rewrite Map_get_set.
  destruct (String.eqb_spec (rb_role rb) r) as [E|E].
  - subst r. destruct (Map_get m (rb_role rb)); cbn [total]; lia.
  - lia.
Qed.

Lemma analyse_role_keys (m : JsMap RoleSum) (rb : RoleBreakdown) (r : RoleType) :
  In r (keys (analyse_role m rb)) <-> r = rb_role rb \/ In r (keys m).
Proof.
  unfold analyse_role. rewrite keys_Map_set.
  destruct (Map_get m (rb_role rb)) as [e|] eqn:E.
  - split; [auto|]. intros [->|H]; [|exact H].
    apply Map_get_Some in E. unfold keys.
    change (rb_role rb) with (fst (rb_role rb, e)). apply in_map. exact E.
  - rewrite in_app_iff. cbn [In]. intuition.
Qed.

Lemma Map_set_total (m : JsMap RoleSum) (k : RoleType) (v : RoleSum) :
  sums_total (Map_set m k v) = sums_total m - total_at m k + total v.
Proof.
  unfold sums_total, total_at.
  induction m as [|[k0 v0] m IH]; cbn [Map_set Map_get fold_right fst snd].
  - lia.
  - destruct (String.eqb_spec k0 k) as [E|E]; cbn [fold_right fst snd]; lia.
Qed.

Lemma fold_analyse (es : list RoleBreakdown) :
  forall m,
    NoDup (keys m) ->
    let m' := fold_left analyse_role es m in
    NoDup (keys m')
    /\ (forall r, total_at m' r = total_at m r + role_total r es)
    /\ (forall r, In r (keys m')
                  <-> In r (keys m) \/ exists rb, In rb es /\ rb_role rb = r)
    /\ sums_total m' = sums_total m + sum_field count es.
Proof.
  induction es as [|rb es IH]; intros m Hnd; cbn [fold_left].
  - cbn. split; [exact Hnd|]. split; [intros; lia|]. split; [|lia].
    intros r. split; [auto|]. intros [H|[rb [[] _]]]. exact H.
  - assert (Hnd' : NoDup (keys (analyse_role m rb)))
      by (apply NoDup_Map_set; exact Hnd).
    destruct (IH _ Hnd') as [I1 [I2 [I3 I4]]]. cbn zeta in *.
    split; [exact I1|]. split; [|split].
    + intros r. rewrite I2, analyse_role_total_at.
      unfold role_total, sum_field. cbn [fold_right]. lia.
    + intros r. rewrite I3, analyse_role_keys. cbn [In]. split.
      * intros [[->|H]|[x [Hx Ex]]]; eauto 6.
      * intros [H|[x [[->|Hx] Ex]]]; eauto 6.
    + rewrite I4. unfold analyse_role. rewrite Map_set_total.
      unfold total_at, sum_field. cbn [fold_right total].
      destruct (Map_get m (rb_role rb)); cbn [total]; lia.
Qed.

Lemma computed_counts (tf : TaskForceReadiness) :
  computed tf -> sum_field count (roleBreakdown tf) = totalMembers tf.
Proof.
  intros [now [i [n [ms [prev ->]]]]].
  destruct ms as [|m0 ms0]; [reflexivity|].
  remember (m0 :: ms0) as ms eqn:E.
  assert (Hne : ms <> []) by (rewrite E; discriminate).
  destruct (calculateTaskForceReadiness_fields now i n ms prev Hne)
    as [_ [Hb Ht]].
  rewrite Hb, Ht.
  rewrite (sum_field_perm _ _ _
             (sort_by_readiness_perm (map breakdown_of (group_by_role ms)))).
  rewrite (sum_field_breakdown count (fun _ => 1))
    by (intros g; apply length_weight).
  now rewrite group_by_role_sum, <- length_weight.
Qed.

Lemma computed_total (tfs : list TaskForceReadiness) :
  Forall computed tfs -> sum_field count (entries tfs) = sum_members tfs.
Proof.
  assert (S : forall a b, sum_field count (a ++ b)
                          = sum_field count a + sum_field count b).
  { intros a b. unfold sum_field. induction a as [|x a IHa];
      cbn [app fold_right]; [reflexivity | rewrite IHa; lia]. }
  induction 1 as [|tf tfs Htf _ IH]; [reflexivity|].
  change (entries (tf :: tfs)) with (roleBreakdown tf ++ entries tfs).
  change (sum_members (tf :: tfs)) with (totalMembers tf + sum_members tfs).
  rewrite S, (computed_counts tf Htf), IH. reflexivity.
Qed.

(** X25. The role analysis of the program aggregate: its roles are
    distinct and are exactly the roles of the task forces' breakdown
    entries; the [total] of a role is the sum of the counts of its
    entries over all task forces; the task forces on track and at risk
    add up to the number of task forces; and for task forces computed by
    [calculateTaskForceReadiness] the totals of all roles add up to
    [totalParticipants]. *)
Theorem roleAnalysis_totals (tfs : list TaskForceReadiness) :
  tfs <> [] ->
  let p := calculateOverallProgramReadiness tfs in
  (taskForcesOnTrack p + taskForcesAtRisk p = Z.of_nat (List.length tfs)
   /\ 0 <= taskForcesOnTrack p /\ 0 <= taskForcesAtRisk p)
  /\ NoDup (keys (roleAnalysis p))
  /\ (forall r, In r (keys (roleAnalysis p))
                <-> exists rb, In rb (entries tfs) /\ rb_role rb = r)
  /\ (forall r a, Map_get (roleAnalysis p) r = Some a ->
                  ra_total a = role_total r (entries tfs))
  /\ (Forall computed tfs ->
      analysis_total (roleAnalysis p) = totalParticipants p).
Proof.
  intros Hne p. destruct tfs as [|tf0 tfs0]; [congruence|].
  remember (tf0 :: tfs0) as tfs eqn:E.
  set (m := fold_left analyse_role (entries tfs) []).
  assert (Hp : roleAnalysis p
               = map (fun entry : RoleType * RoleSum =>
                        (fst entry,
                         {| ra_total := total (snd entry);
                            avgReadiness :=
                              Math_round (div (sumReadiness (snd entry))
                                              (Int (total (snd entry)))) |}))
                     m
               /\ taskForcesOnTrack p
                  = Z.of_nat (List.length (filter isOnTrack tfs))
               /\ taskForcesAtRisk p
                  = Z.of_nat (List.length tfs)
                    - Z.of_nat (List.length (filter isOnTrack tfs))
               /\ totalParticipants p
                  = fold_left (fun sum tf => sum + totalMembers tf) tfs 0).
  { unfold p, m. rewrite <- fold_entries. rewrite E. cbn. repeat split. }
  destruct Hp as [Hr [Ho [Ha Ht]]].
  destruct (fold_analyse (entries tfs) [] (NoDup_nil _)) as [F1 [F2 [F3 F4]]].
  fold m in F1, F2, F3, F4. cbn zeta in *.
  assert (Hk : keys (roleAnalysis p) = keys m).
  { rewrite Hr. unfold keys. rewrite map_map. reflexivity. }
  split; [|split; [|split; [|split]]].
  - rewrite Ho, Ha. pose proof (filter_length_le isOnTrack tfs). lia.
  - rewrite Hk. exact F1.
  - intros r. rewrite Hk, F3. cbn [keys map In]. tauto.
  - intros r a Hget. rewrite Hr in Hget.
    assert (G : forall l : JsMap RoleSum,
               Map_get
                 (map (fun entry : RoleType * RoleSum =>
                         (fst entry,
                          {| ra_total := total (snd entry);
                             avgReadiness :=
                               Math_round (div (sumReadiness (snd entry))
                                               (Int (total (snd entry)))) |}))
                      l) r = Some a ->
               exists e, Map_get l r = Some e /\ ra_total a = total e).
    { induction l as [|[k0 v0] l IH]; cbn [map Map_get fst snd];
        [discriminate|].
      destruct (String.eqb k0 r).
      - intros H. inversion H. exists v0. auto.
      - exact IH. }
    destruct (G m Hget) as [e0 [He0 ->]].
    specialize (F2 r). unfold total_at in F2. rewrite He0 in F2. cbn in F2.
    exact F2.
  - intros Hc.
    assert (A : analysis_total (roleAnalysis p) = sums_total m).
    { rewrite Hr. unfold analysis_total, sums_total. clear.
      induction m as [|e m IH]; cbn [map fold_right fst snd ra_total];
        [reflexivity | rewrite IH; reflexivity]. }
    rewrite A, F4, Ht, fold_left_members. cbn [sums_total fold_right].
    f_equal. apply computed_total. exact Hc.
Qed.

Lemma roleAnalysis_totals_witness :
  analysis_total (roleAnalysis (calculateOverallProgramReadiness program))
  = totalParticipants (calculateOverallProgramReadiness program).
Proof.
  refine (proj2 (proj2 (proj2 (proj2 (roleAnalysis_totals program _)))) _).
  - discriminate.
  - constructor; [do 5 eexists; reflexivity|].
    constructor; [do 5 eexists; reflexivity|]. constructor.
Defined.

End RoleAnalysisFacts.

(** ** Readiness over time, and the end of a session *)

Section ClockFacts.
Import JS Readiness.

Lemma getCurrentProgramDay_mono (now now' : Z) :
  now <= now' -> getCurrentProgramDay now <= getCurrentProgramDay now'.
Proof.
  intros H. unfold getCurrentProgramDay.
  assert (D : (now - PROGRAM_START) / (1000 * 60 * 60 * 24)
              <= (now' - PROGRAM_START) / (1000 * 60 * 60 * 24))
    by (apply Z.div_le_mono; lia).
  destruct (Z.ltb_spec ((now - PROGRAM_START) / (1000 * 60 * 60 * 24)) 0),
           (Z.ltb_spec ((now' - PROGRAM_START) / (1000 * 60 * 60 * 24)) 0);
    lia.
Qed.

Lemma getExpectedReadiness_mono (d d' : Z) :
  d <= d' -> getExpectedReadiness d <= getExpectedReadiness d'.
Proof.
  intros H. unfold getExpectedReadiness.
  repeat match goal with
    | |- context [?a <=? ?b] => destruct (Z.leb_spec a b)
    | |- context [?a >=? ?b] => destruct (Z.geb_spec a b)
    end; lia.
Qed.

(** X26. The clock enters a task force's readiness only through its
    target: computed later from the same members, the readiness, the
    breakdown, the trend and the extreme roles are the same, the target is
    no lower, and a task force that is on track then was on track
    before. *)
Theorem readiness_over_time
        (now now' : Z) (taskForceId taskForceName : string)
        (ms : list MemberMastery) (previousReadiness : option number) :
  now <= now' ->
  let r := calculateTaskForceReadiness now taskForceId taskForceName ms
             previousReadiness in
  let r' := calculateTaskForceReadiness now' taskForceId taskForceName ms
              previousReadiness in
  overallReadiness r' = overallReadiness r
  /\ roleBreakdown r' = roleBreakdown r
  /\ (trend r', trendValue r') = (trend r, trendValue r)
  /\ (lowestRole r', highestRole r') = (lowestRole r, highestRole r)
  /\ targetReadiness r <= targetReadiness r'
  /\ (isOnTrack r' = true -> isOnTrack r = true).
Proof.
  intros H r r'.
  pose proof (getExpectedReadiness_mono _ _ (getCurrentProgramDay_mono _ _ H))
    as M.
  unfold r, r', calculateTaskForceReadiness.
  destruct ms as [|m ms].
  - cbn. repeat split; auto.
  - destruct previousReadiness as [previous|];
      cbn [overallReadiness roleBreakdown trend trendValue lowestRole
           highestRole targetReadiness isOnTrack];
      (repeat split; [exact M|]); intros G; exact (geb_weaken _ _ _ G M).
Qed.

Lemma readiness_over_time_witness :
  let r := calculateTaskForceReadiness PROGRAM_START "tf-1" "Alpha" squad None in
  let r' := calculateTaskForceReadiness (PROGRAM_START + 20 * 86400000)
              "tf-1" "Alpha" squad None in
  overallReadiness r' = overallReadiness r
  /\ targetReadiness r <= targetReadiness r'.
Proof.
  destruct (readiness_over_time PROGRAM_START (PROGRAM_START + 20 * 86400000)
              "tf-1" "Alpha" squad None) as [H1 [_ [_ [_ [H2 _]]]]].
  - lia.
  - split; [exact H1 | exact H2].
Defined.

End ClockFacts.

Section SessionEndFacts.
Import LiveSession.






End SessionEndFacts.
